(** * Matterbridge thread package: control plane, spawn helper, worker scripts

    A shallow embedding of [packages/thread/src/worker.ts] and of the three
    worker entry modules ([workerCheckUpdates.ts], [workerSystemCheck.ts],
    [workerGlobalPrefix.ts]).  Every function runs in a small
    writer-plus-exception monad: the writer part is the ordered trace of
    the effects a call performs (messages posted on the parent port, lines
    written to a logger, calls on the broadcast server), the exception part
    is a JavaScript [throw].  Logger calls and [postMessage] return
    normally; what the package imports from elsewhere is a parameter
    ([Externals]), and each awaited collaborator may return or throw.

    The broadcast server itself ([broadcastServer.ts]) is not part of the
    sources at hand; module [BroadcastServer] models its correlated
    calls from the specification.

    Module [DockerVersion] embeds [dockerVersion.ts]: the HTTPS helper
    with its redirects, the two pure helpers and [getDockerVersion], over
    a network that is a parameter.

    Layout: the data model and the embedded code first, then what is
    observed on traces, then the lemmas and theorems. *)

From stdpp Require Import base option list gmap strings pretty.

Local Open Scope Z_scope.
Local Open Scope string_scope.
Local Open Scope list_scope.

(** ** JavaScript values, errors and log levels *)

(** The values a [workerData] record may hold
    ([Record<string, boolean | number | string | object>]); an object is
    an opaque handle.  [VUndefined] is what reading a missing key gives. *)
Inductive value :=
| VUndefined
| VBool (b : bool)
| VNum (n : Z)
| VStr (s : string)
| VObj (handle : positive).

#[global] Instance value_eq_dec : EqDecision value.
Proof. solve_decision. Defined.

(** String conversion inside a template literal. *)
Definition to_string (v : value) : string :=
  match v with
  | VUndefined => "undefined"
  | VBool true => "true"
  | VBool false => "false"
  | VNum n => pretty n
  | VStr s => s
  | VObj _ => "[object Object]"
  end.

(** What a [throw] carries.  [TypeError p] is the runtime's own error for
    reading property [p] of [null] or [undefined]; [Error m] is
    [new Error(m)]. *)
Inductive JsError :=
| TypeError (property : string)
| Error (message : string).

#[global] Instance JsError_eq_dec : EqDecision JsError.
Proof. solve_decision. Defined.

(** [LogLevel] of node-ansi-logger. *)
Inductive LogLevel := DEBUG | INFO | NOTICE | WARN | ERROR | FATAL.

#[global] Instance LogLevel_eq_dec : EqDecision LogLevel.
Proof. solve_decision. Defined.

Definition level_string (l : LogLevel) : string :=
  match l with
  | DEBUG => "debug" | INFO => "info" | NOTICE => "notice"
  | WARN => "warn" | ERROR => "error" | FATAL => "fatal"
  end.

(** ** Control-plane messages ([ParentPortMessage]) *)

Inductive ParentPortMessage :=
| MsgInit (threadId : Z) (threadName : value) (success : bool)
| MsgExit (threadId : Z) (threadName : value) (success : bool)
| MsgLog (threadId : Z) (threadName : value)
         (logName : option string) (logLevel : LogLevel) (message : string).

#[global] Instance ParentPortMessage_eq_dec : EqDecision ParentPortMessage.
Proof. solve_decision. Defined.

Definition is_init (m : ParentPortMessage) : bool :=
  match m with MsgInit _ _ _ => true | _ => false end.
Definition is_exit (m : ParentPortMessage) : bool :=
  match m with MsgExit _ _ _ => true | _ => false end.
Definition is_log (m : ParentPortMessage) : bool :=
  match m with MsgLog _ _ _ _ _ => true | _ => false end.

(** ** Data-plane envelopes ([WorkerMessage]) as the scripts build them *)

Record Envelope := mkEnvelope {
  env_type : string;
  env_src : string;
  env_dst : string;
  env_id : option N;
  env_params : option (gmap string value);
  env_result : option (gmap string value);
  env_success : option bool;
}.

(** ** The thread a piece of code runs in *)

(** A [MessagePort]; only its identity matters. *)
Inductive MessagePort := Port (id : positive).

#[global] Instance MessagePort_eq_dec : EqDecision MessagePort.
Proof. solve_decision. Defined.

(** The bindings imported from [node:worker_threads] and [process], and
    the command-line test [hasParameter] of [@matterbridge/utils].  The four
    worker_threads bindings are independent fields, as the unit tests mock
    them; [workerData] is [None] when it is [null] or [undefined] (the main
    thread, or a worker started without initial data). *)
Record Runtime := mkRuntime {
  isMainThread : bool;
  parentPort : option MessagePort;
  threadId : Z;
  workerData : option (gmap string value);
  hasParameter : string → bool;
  process_argv : list string;
  process_env : gmap string string;
  process_pid : Z;
  (** [process.versions.node], split at the dots and parsed. *)
  node_version : Z * Z * Z;
}.

(** Options handed to [new Worker(url, options)]. *)
Record WorkerOptions := mkWorkerOptions {
  opt_workerData : gmap string value;
  opt_type : string;
  opt_name : string;
  opt_argv : list string;
  opt_env : gmap string string;
  opt_execArgv : option (list string);
  opt_stdout : bool;
  opt_stderr : bool;
}.

Record Worker := mkWorker {
  worker_url : string;
  worker_options : WorkerOptions;
}.

(** ** Code outside the package *)

(** One entry of [os.networkInterfaces()]. *)
Record InterfaceDetail := mkDetail {
  internal : bool;
  family : string;
}.

(** [SharedMatterbridge], as far as the scripts read it. *)
Record Shared := mkShared {
  mdnsInterface : option string;
  shared_handle : positive;
}.

(** The response [server.fetch] resolves with, by its TypeScript type. *)
Record FetchResult := mkFetchResult { data : Shared }.
Record FetchResponse := mkFetchResponse { result : FetchResult }.

(** ** Effects *)

Inductive Event :=
| PostMessage (port : MessagePort) (message : ParentPortMessage)
    (** [parentPort.postMessage(message)] *)
| LoggerLog (logName : string) (level : LogLevel) (message : string)
    (** [AnsiLogger.create({ logName, logLevel: level }).log(level, message)] *)
| LoggerDebug (logName : string) (message : string)
    (** [log.debug(message)] on a module's own logger *)
| NewWorker (w : Worker)
| ServerNew (channel : string)
| ServerFetch (request : Envelope) (timeoutMs : Z)
| ServerRequest (request : Envelope)
| ServerClose
| CallInspectError (message : string) (error : JsError)
| CallCheckUpdates (shared : Shared)
| CallGetGlobalNodeModules
| CallNetworkInterfaces.

Inductive Outcome (A : Type) :=
| Ok (a : A)
| Throw (e : JsError).
Arguments Ok {A} a.
Arguments Throw {A} e.

(** A computation: the effects it performed, in order, and how it ended. *)
Definition M (A : Type) : Type := (list Event * Outcome A)%type.

#[global] Instance M_ret : MRet M := λ A a, ([], Ok a).
#[global] Instance M_bind : MBind M := λ A B f m,
  match m.2 with
  | Ok a => (m.1 ++ (f a).1, (f a).2)
  | Throw e => (m.1, Throw e)
  end.

Definition throw {A} (e : JsError) : M A := ([], Throw e).
Definition emit (ev : Event) : M unit := ([ev], Ok ()).
(** An external call whose result is given: one event, then the result. *)
Definition call {A} (ev : Event) (r : Outcome A) : M A := ([ev], r).

(** [try { body } catch (error) { handler }] *)
Definition try_catch {A} (body : M A) (handler : JsError → M A) : M A :=
  match body.2 with
  | Ok a => body
  | Throw e => (body.1 ++ (handler e).1, (handler e).2)
  end.

Definition trace {A} (m : M A) : list Event := m.1.
Definition outcome {A} (m : M A) : Outcome A := m.2.
Definition throws {A} (m : M A) : Prop := ∃ e, outcome m = Throw e.
Definition returns {A} (m : M A) : Prop := ∃ a, outcome m = Ok a.

(** The control messages of a trace, in posting order. *)
Definition posted (t : list Event) : list ParentPortMessage :=
  omap (λ ev, match ev with PostMessage _ m => Some m | _ => None end) t.

(** ** What the package imports *)

(** Functions imported from other packages and modules, and the behaviour
    of the collaborators a script awaits.  Each collaborator is given by
    what the call ends with: a value, or a [throw] (a rejected promise). *)
Record Externals := mkExternals {
  debugStringify_message : ParentPortMessage → string;
  debugStringify_options : WorkerOptions → string;
  (** [pathToFileURL(resolve(relativePath)).href] *)
  pathToFileURL : string → string;
  inspect_workerData : gmap string value → string;
  inspect_env : gmap string string → string;
  inspectError : string → JsError → string;
  server_fetch : Envelope → Z → Outcome FetchResponse;
  server_request : Envelope → Outcome unit;
  checkUpdates : Shared → Outcome unit;
  getGlobalNodeModules : Outcome string;
  os_networkInterfaces : Outcome (list (string * option (list InterfaceDetail)));
  (** [excludedInterfaceNamePattern.test] *)
  excludedInterfaceName : string → bool;
}.

(** ** worker.ts *)

Section worker.
Context (rt : Runtime) (ext : Externals).

Definition debug : bool :=
  hasParameter rt "debug" || hasParameter rt "verbose"
  || hasParameter rt "debug-worker" || hasParameter rt "verbose-worker".

Definition verbose : bool :=
  hasParameter rt "verbose" || hasParameter rt "verbose-worker".

(** [workerData.threadName]: a property read, which throws when
    [workerData] is [null] or [undefined]. *)
Definition workerData_threadName : M value :=
  match workerData rt with
  | None => throw (TypeError "threadName")
  | Some wd => mret (default VUndefined (wd !! "threadName"))
  end.

(** [workerData?.threadName] *)
Definition workerData_threadName_opt : value :=
  match workerData rt with
  | None => VUndefined
  | Some wd => default VUndefined (wd !! "threadName")
  end.

Definition parentPost (message : ParentPortMessage) : M unit :=
  match parentPort rt with
  | None =>
      name ← workerData_threadName;
      throw (Error ("WorkerServer " +:+ to_string name +:+ ": parentPort is not available."))
  | Some port =>
      emit (PostMessage port message);;
      if debug then
        name ← workerData_threadName;
        emit (LoggerDebug "Worker"
                ("Worker " +:+ to_string name +:+ ":" +:+ pretty (threadId rt)
                 +:+ " sent message to parent: " +:+ debugStringify_message ext message))
      else mret ()
  end.

Definition parentLog (logName : option string) (logLevel : LogLevel) (message : string) : M unit :=
  match parentPort rt with
  | None =>
      name ← workerData_threadName;
      throw (Error ("WorkerServer " +:+ to_string name +:+ ": parentPort is not available."))
  | Some port =>
      name ← workerData_threadName;
      let logMessage := MsgLog (threadId rt) name logName logLevel message in
      emit (PostMessage port logMessage);;
      if debug then
        name ← workerData_threadName;
        emit (LoggerDebug "Worker"
                ("Worker " +:+ to_string name +:+ ":" +:+ pretty (threadId rt)
                 +:+ " sent log to parent: " +:+ default "undefined" logName +:+ " "
                 +:+ level_string logLevel +:+ " " +:+ message))
      else mret ()
  end.

(** [!isMainThread && parentPort] *)
Definition linked : bool := negb (isMainThread rt) && bool_decide (is_Some (parentPort rt)).

Definition threadLogger (threadName : string) (level : LogLevel) (message : string) : M unit :=
  emit (LoggerLog threadName level message);;
  if linked then parentLog (Some threadName) level message else mret ().

Definition createESMWorker (name relativePath : string)
    (data : option (gmap string value)) (argv : option (list string))
    (env : option (gmap string string)) (execArgv : option (list string))
    (pipedOutput : option bool) : M Worker :=
  let piped := default false pipedOutput in
  let fileURL := pathToFileURL ext relativePath in
  let options := {|
    opt_workerData := <["threadName" := VStr name]> (default ∅ data);
    opt_type := "module";
    opt_name := name;
    opt_argv := default (drop 2 (process_argv rt)) argv;
    opt_env := default (process_env rt) env;
    opt_execArgv := execArgv;
    opt_stdout := piped;
    opt_stderr := piped |} in
  (if verbose then
     emit (LoggerDebug "Worker"
             ("Creating ESM Worker " +:+ name +:+ " with file URL: " +:+ fileURL
              +:+ " and options: " +:+ debugStringify_options ext options))
   else mret ());;
  let w := {| worker_url := fileURL; worker_options := options |} in
  emit (NewWorker w);;
  mret w.

Definition logWorkerInfo (logName : string) (logEnv : option bool) : M unit :=
  emit (LoggerDebug logName
          ((if isMainThread rt then "Main thread" else "Worker thread") +:+ ": "
           +:+ to_string workerData_threadName_opt +:+ ":" +:+ pretty (threadId rt)
           +:+ " Pid: " +:+ pretty (process_pid rt)));;
  emit (LoggerDebug logName
          ("ParentPort: " +:+ match parentPort rt with
                              | Some _ => "active"
                              | None => "not active"
                              end));;
  emit (LoggerDebug logName
          ("WorkerData: " +:+ match workerData rt with
                              | Some wd => inspect_workerData ext wd
                              | None => "none"
                              end));;
  let argv := drop 2 (process_argv rt) in
  emit (LoggerDebug logName
          ("Argv: " +:+ (if bool_decide (length argv = 0%nat) then "none"
                         else String.concat " " argv)));;
  emit (LoggerDebug logName
          ("Env: " +:+ (if default false logEnv then inspect_env ext (process_env rt)
                        else "not logged"))).

End worker.

(** ** The worker scripts *)

(** Each entry module is its top-level statements in order; [await] is
    sequencing.  What a script awaits or calls outside the package is
    taken from [Externals]; [new AnsiLogger], [new BroadcastServer],
    [server.close()] and [inspectError] return normally. *)
Section scripts.
Context (rt : Runtime) (ext : Externals).

(** The request every script that needs the shared state sends:
    [{ type: 'matterbridge_shared', src: 'matterbridge', dst: 'matterbridge' }]. *)
Definition shared_request : Envelope :=
  {| env_type := "matterbridge_shared"; env_src := "matterbridge"; env_dst := "matterbridge";
     env_id := None; env_params := None; env_result := None; env_success := None |}.

Definition global_prefix_request (prefix : string) : Envelope :=
  {| env_type := "matterbridge_global_prefix"; env_src := "matterbridge"; env_dst := "matterbridge";
     env_id := None; env_params := Some {[ "prefix" := VStr prefix ]};
     env_result := None; env_success := None |}.

(** The [// Send init message] block, the same in the three scripts. *)
Definition send_init (name : string) : M unit :=
  if linked rt then
    threadName ← workerData_threadName rt;
    parentPost rt ext (MsgInit (threadId rt) threadName true);;
    if debug rt then
      threadName ← workerData_threadName rt;
      parentLog rt (Some name) INFO
        ("Worker " +:+ to_string threadName +:+ ":" +:+ pretty (threadId rt) +:+ " initialized.")
    else mret ()
  else mret ().

(** The [// Send exit message] block, the same in the three scripts. *)
Definition send_exit (name : string) (success : bool) : M unit :=
  if linked rt then
    threadName ← workerData_threadName rt;
    parentPost rt ext (MsgExit (threadId rt) threadName success);;
    if debug rt then
      threadName ← workerData_threadName rt;
      parentLog rt (Some name) INFO
        ("Worker " +:+ to_string threadName +:+ ":" +:+ pretty (threadId rt)
         +:+ " exiting with success: " +:+ to_string (VBool success) +:+ ".")
    else mret ()
  else mret ().

(** *** workerCheckUpdates.ts *)

Definition checkUpdates_name : string := "MatterbridgeCheckUpdates".

(** The statements of the [try] block, up to [success = true]. *)
Definition checkUpdates_task : M unit :=
  response ← call (ServerFetch shared_request 1000) (server_fetch ext shared_request 1000);
  let shared := data (result response) in
  call (CallCheckUpdates shared) (checkUpdates ext shared);;
  threadLogger rt checkUpdates_name INFO "Check updates succeeded".

(** [let success = false; try { ...; success = true } catch (error) { ... }],
    returning the final value of [success]. *)
Definition checkUpdates_guarded : M bool :=
  try_catch (checkUpdates_task;; mret true)
    (λ error,
       emit (CallInspectError "Failed to check updates" error);;
       let errorMessage := inspectError ext "Failed to check updates" error in
       threadLogger rt checkUpdates_name ERROR errorMessage;;
       mret false).

Definition workerCheckUpdates : M unit :=
  let name := checkUpdates_name in
  send_init name;;
  emit (ServerNew "matterbridge");;
  (if verbose rt then logWorkerInfo rt ext name (Some (verbose rt)) else mret ());;
  threadLogger rt name INFO "Starting check updates...";;
  success ← checkUpdates_guarded;
  emit ServerClose;;
  send_exit name success.

(** *** workerGlobalPrefix.ts *)

Definition globalPrefix_name : string := "MatterbridgeGlobalPrefix".

Definition globalPrefix_task : M unit :=
  prefix ← call CallGetGlobalNodeModules (getGlobalNodeModules ext);
  call (ServerRequest (global_prefix_request prefix))
       (server_request ext (global_prefix_request prefix));;
  threadLogger rt globalPrefix_name INFO ("Global node_modules directory: " +:+ prefix).

Definition globalPrefix_guarded : M bool :=
  try_catch (globalPrefix_task;; mret true)
    (λ error,
       emit (CallInspectError "Failed to get global node modules" error);;
       let errorMessage := inspectError ext "Failed to get global node modules" error in
       threadLogger rt globalPrefix_name ERROR errorMessage;;
       mret false).

Definition workerGlobalPrefix : M unit :=
  let name := globalPrefix_name in
  send_init name;;
  emit (ServerNew "matterbridge");;
  (if verbose rt then logWorkerInfo rt ext name (Some (verbose rt)) else mret ());;
  threadLogger rt name INFO "Starting global prefix check...";;
  success ← globalPrefix_guarded;
  emit ServerClose;;
  send_exit name success.

(** *** workerSystemCheck.ts *)

Definition systemCheck_name : string := "MatterbridgeSystemCheck".

(** Truthiness of [process.env.KEY]: set and not the empty string. *)
Definition env_truthy (key : string) : bool :=
  match process_env rt !! key with
  | Some s => negb (String.eqb s "")
  | None => false
  end.

(** Truthiness of [shared.mdnsInterface]. *)
Definition mdns_truthy (shared : Shared) : bool :=
  match mdnsInterface shared with
  | Some s => negb (String.eqb s "")
  | None => false
  end.

(** [foundInternal], [foundExternal], [foundIpv4], [foundIpv6] *)
Record Found := mkFound {
  foundInternal : bool;
  foundExternal : bool;
  foundIpv4 : bool;
  foundIpv6 : bool;
}.

(** The body of [for (const detail of interfaceDetails || [])]. *)
Definition scan_detail (f : Found) (detail : InterfaceDetail) : Found :=
  {| foundInternal := if internal detail then true else foundInternal f;
     foundExternal := if negb (internal detail) then true else foundExternal f;
     foundIpv4 :=
       if String.eqb (family detail) "IPv4" && negb (internal detail) && negb (foundIpv4 f)
       then true else foundIpv4 f;
     foundIpv6 :=
       if String.eqb (family detail) "IPv6" && negb (internal detail) && negb (foundIpv6 f)
       then true else foundIpv6 f |}.

(** The loop over [Object.entries(networkInterfaces)]. *)
Fixpoint scan_interfaces (shared : Shared)
    (entries : list (string * option (list InterfaceDetail))) (f : Found) : M Found :=
  match entries with
  | [] => mret f
  | (interfaceName, interfaceDetails) :: rest =>
      (if negb (mdns_truthy shared) && excludedInterfaceName ext interfaceName then
         threadLogger rt systemCheck_name WARN
           ("Found network interface '" +:+ interfaceName
            +:+ "'. Please use --mdnsinterface parameter to specify the correct local interface for mDNS.")
       else mret ());;
      if excludedInterfaceName ext interfaceName then scan_interfaces shared rest f
      else scan_interfaces shared rest (foldl scan_detail f (default [] interfaceDetails))
  end.

Definition systemCheck_task : M unit :=
  let name := systemCheck_name in
  response ← call (ServerFetch shared_request 1000) (server_fetch ext shared_request 1000);
  let shared := data (result response) in
  (if env_truthy "NVM_BIN" && env_truthy "NVM_DIR" then
     threadLogger rt name ERROR
       "NVM is a development tool and is not supported in production. Please install node from https://github.com/nodesource/distributions."
   else mret ());;
  let '(versionMajor, versionMinor, versionPatch) := node_version rt in
  let version := pretty versionMajor +:+ "." +:+ pretty versionMinor +:+ "." +:+ pretty versionPatch in
  threadLogger rt name DEBUG ("Node.js Version: " +:+ version);;
  (if (versionMajor =? 20)%Z && (versionMinor <? 19)%Z then
     threadLogger rt name ERROR
       "Node.js version < 20.19.0 is not supported. Please upgrade to Node.js LTS version (24.x)."
   else mret ());;
  (if (versionMajor =? 22)%Z && (versionMinor <? 13)%Z then
     threadLogger rt name ERROR
       "Node.js version < 22.13.0 is not supported. Please upgrade to Node.js LTS version (24.x)."
   else mret ());;
  (if (versionMajor =? 21)%Z || (versionMajor =? 23)%Z || (versionMajor =? 25)%Z then
     threadLogger rt name ERROR
       "Node.js odd major versions are not supported. Please upgrade to Node.js LTS version (24.x)."
   else mret ());;
  (if negb (versionMajor =? 24)%Z then
     threadLogger rt name NOTICE
       ("You are running Node.js " +:+ version
        +:+ ". Please consider upgrading to Node.js LTS version (24.x).")
   else mret ());;
  networkInterfaces ← call CallNetworkInterfaces (os_networkInterfaces ext);
  found ← scan_interfaces shared networkInterfaces
             {| foundInternal := false; foundExternal := false;
                foundIpv4 := false; foundIpv6 := false |};
  (if negb (foundInternal found) then
     threadLogger rt name ERROR "No internal network interface found. Check your network configuration."
   else mret ());;
  (if negb (foundExternal found) then
     threadLogger rt name ERROR "No external network interface found. Check your network configuration."
   else mret ());;
  (if negb (foundIpv4 found) then
     threadLogger rt name ERROR "No IPv4 network interface found. Check your network configuration."
   else mret ());;
  (if negb (foundIpv6 found) then
     threadLogger rt name ERROR "No IPv6 network interface found. Check your network configuration."
   else mret ());;
  threadLogger rt name INFO "System check succeeded".

Definition systemCheck_guarded : M bool :=
  try_catch (systemCheck_task;; mret true)
    (λ error,
       emit (CallInspectError "Failed to perform system check" error);;
       let errorMessage := inspectError ext "Failed to perform system check" error in
       threadLogger rt systemCheck_name ERROR errorMessage;;
       mret false).

Definition workerSystemCheck : M unit :=
  let name := systemCheck_name in
  send_init name;;
  emit (ServerNew "matterbridge");;
  (if verbose rt then logWorkerInfo rt ext name (Some (verbose rt)) else mret ());;
  threadLogger rt name INFO "Starting system check...";;
  success ← systemCheck_guarded;
  emit ServerClose;;
  send_exit name success.

(** The three entry modules. *)
Inductive Script := CheckUpdates | SystemCheck | GlobalPrefix.

Definition script_name (s : Script) : string :=
  match s with
  | CheckUpdates => checkUpdates_name
  | SystemCheck => systemCheck_name
  | GlobalPrefix => globalPrefix_name
  end.

(** The statements of the script's [try] block. *)
Definition script_task (s : Script) : M unit :=
  match s with
  | CheckUpdates => checkUpdates_task
  | SystemCheck => systemCheck_task
  | GlobalPrefix => globalPrefix_task
  end.

(** The first argument of the script's [inspectError] call. *)
Definition script_failure (s : Script) : string :=
  match s with
  | CheckUpdates => "Failed to check updates"
  | SystemCheck => "Failed to perform system check"
  | GlobalPrefix => "Failed to get global node modules"
  end.

(** The script's whole [try]/[catch] statement. *)
Definition script_guarded (s : Script) : M bool :=
  match s with
  | CheckUpdates => checkUpdates_guarded
  | SystemCheck => systemCheck_guarded
  | GlobalPrefix => globalPrefix_guarded
  end.

(** Running the module from its first statement to its last. *)
Definition run_script (s : Script) : M unit :=
  match s with
  | CheckUpdates => workerCheckUpdates
  | SystemCheck => workerSystemCheck
  | GlobalPrefix => workerGlobalPrefix
  end.

End scripts.

(** ** The broadcast bus *)

(** [broadcastServer.ts] is not among the sources; only its callers and
    their tests are.  Every definition of this module is written from the
    wording of the specification: section 4.1 for [open], [publish],
    [fetch] and [respond], section 5 for the timeout, section 7 for the
    timeout error. *)
Module BroadcastServer.

(** Modelled from the spec: the timeout error of [fetch] (section 7). *)
Inductive FetchError := Timeout.

(** Modelled from the spec: how the promise of a [fetch] ends: resolved
    with a response envelope, or rejected. *)
Inductive Settled :=
| Resolved (response : Envelope)
| Rejected (reason : FetchError).

(** Modelled from the spec: one endpoint's binding to a channel: the
    envelopes it has handed to the channel (oldest first), its clock in
    milliseconds, the next correlation id, the temporary per-call
    listeners of its outstanding [fetch] calls (correlation id to
    deadline), and the promises already settled. *)
Record Bus := mkBus {
  channel : string;
  outbox : list Envelope;
  clock : N;
  next_id : N;
  listeners : gmap N N;
  promises : gmap N Settled;
}.


(** Modelled from the spec: [publish(bus, envelope)], a one-way send. *)
Definition publish (bus : Bus) (envelope : Envelope) : Bus :=
  {| channel := channel bus; outbox := outbox bus ++ [envelope]; clock := clock bus;
     next_id := next_id bus; listeners := listeners bus; promises := promises bus |}.

(** Modelled from the spec: the correlation id is stamped onto the
    envelope. *)
Definition stamp (id : N) (envelope : Envelope) : Envelope :=
  {| env_type := env_type envelope; env_src := env_src envelope; env_dst := env_dst envelope;
     env_id := Some id; env_params := env_params envelope; env_result := env_result envelope;
     env_success := env_success envelope |}.

(** Modelled from the spec: [fetch(bus, envelope, timeoutMs)] up to the
    point where it suspends: a fresh correlation id is stamped onto the
    envelope, the envelope is published, and a per-call listener is
    registered together with its timer.  The id names the promise. *)
Definition fetch (bus : Bus) (envelope : Envelope) (timeoutMs : N) : N * Bus :=
  let id := next_id bus in
  (id,
   {| channel := channel bus; outbox := outbox bus ++ [stamp id envelope]; clock := clock bus;
      next_id := N.succ id;
      listeners := <[id := (clock bus + timeoutMs)%N]> (listeners bus);
      promises := promises bus |}).

(** Modelled from the spec: the test a per-call listener applies to an
    observed envelope: its [id] matches and it carries [result]. *)
Definition answers (id : N) (envelope : Envelope) : bool :=
  bool_decide (env_id envelope = Some id) && bool_decide (is_Some (env_result envelope)).

(** Modelled from the spec: an envelope is observed on the channel.  The
    listener it answers resolves its promise and is unregistered. *)
Definition receive (bus : Bus) (envelope : Envelope) : Bus :=
  match env_id envelope with
  | Some id =>
      if bool_decide (is_Some (listeners bus !! id)) && answers id envelope then
        {| channel := channel bus; outbox := outbox bus; clock := clock bus;
           next_id := next_id bus;
           listeners := delete id (listeners bus);
           promises := <[id := Resolved envelope]> (promises bus) |}
      else bus
  | None => bus
  end.

(** Modelled from the spec: [ms] milliseconds pass.  Every listener whose
    deadline is reached rejects its promise with a timeout error and is
    unregistered. *)
Definition elapse (bus : Bus) (ms : N) : Bus :=
  let now := (clock bus + ms)%N in
  let due := filter (λ kv, (kv.2 ≤ now)%N) (listeners bus) in
  {| channel := channel bus; outbox := outbox bus; clock := now;
     next_id := next_id bus;
     listeners := filter (λ kv, (now < kv.2)%N) (listeners bus);
     promises := ((λ _, Rejected Timeout) <$> due) ∪ promises bus |}.

(** Modelled from the spec: [respond(bus, requestEnvelope, result, success?)]. *)
Definition respond (bus : Bus) (requestEnvelope : Envelope)
    (result : gmap string value) (success : option bool) : Bus :=
  publish bus
    {| env_type := env_type requestEnvelope;
       env_src := env_dst requestEnvelope;
       env_dst := env_src requestEnvelope;
       env_id := env_id requestEnvelope;
       env_params := None;
       env_result := Some result;
       env_success := success |}.

(** Modelled from the spec: what the endpoint's thread goes through after
    a [fetch] suspended: it observes an envelope, or time passes. *)
Inductive Step :=
| Receive (envelope : Envelope)
| Elapse (ms : N).

(** Modelled from the spec: one step of the endpoint. *)
Definition step (bus : Bus) (s : Step) : Bus :=
  match s with
  | Receive envelope => receive bus envelope
  | Elapse ms => elapse bus ms
  end.

(** Modelled from the spec: the steps, in order. *)
Definition run (bus : Bus) (steps : list Step) : Bus := foldl step bus steps.



(** Modelled from the spec: correlation ids are unique per outstanding
    request; here, every id in use is below [next_id]. *)
Definition fresh_ids (bus : Bus) : Prop :=
  ∀ id, is_Some (listeners bus !! id) ∨ is_Some (promises bus !! id) → (id < next_id bus)%N.

End BroadcastServer.

(** ** Observations on traces and runtimes *)

(** The [threadLogger] calls of a trace: each writes one line to a freshly
    created logger tagged with its first argument. *)
Definition relay_calls (t : list Event) : list (string * LogLevel * string) :=
  omap (λ ev, match ev with LoggerLog n l m => Some (n, l, m) | _ => None end) t.

Definition is_error_call (c : string * LogLevel * string) : bool :=
  match c.1.2 with ERROR => true | _ => false end.

(** The error-level [threadLogger] calls of a trace. *)
Definition error_relays (t : list Event) : list (string * LogLevel * string) :=
  List.filter is_error_call (relay_calls t).

Definition is_close (ev : Event) : bool :=
  match ev with ServerClose => true | _ => false end.

(** How many times [server.close()] is called. *)
Definition closes (t : list Event) : nat := length (List.filter is_close t).

Definition is_open (ev : Event) : bool :=
  match ev with ServerNew _ => true | _ => false end.

(** The workers created in a trace. *)
Definition created (t : list Event) : list Worker :=
  omap (λ ev, match ev with NewWorker w => Some w | _ => None end) t.

(** A thread that is not the main thread and has a parent port was given
    initial data.  The main thread has neither port nor data; a worker
    started by [createESMWorker] has both, as the helper always passes
    [{ ...workerData, threadName: name }]. *)
Definition linked_has_data (rt : Runtime) : Prop :=
  linked rt = true → is_Some (workerData rt).

(** The main thread as [node:worker_threads] presents it: no parent port,
    no initial data. *)
Definition main_thread : Runtime :=
  {| isMainThread := true; parentPort := None; threadId := 0; workerData := None;
     hasParameter := λ _, false;
     process_argv := ["node"; "script"; "--x"; "1"];
     process_env := {[ "HOME" := "/root" ]};
     process_pid := 4242; node_version := (24, 1, 0) |}.

(** A worker started by [createESMWorker('CheckUpdates', ...)]; [flags]
    lists the command-line parameters that are set. *)
Definition spawned_worker (flags : list string) : Runtime :=
  {| isMainThread := false; parentPort := Some (Port 1); threadId := 1;
     workerData := Some {[ "threadName" := VStr "CheckUpdates" ]};
     hasParameter := λ p, bool_decide (p ∈ flags);
     process_argv := ["node"; "script"]; process_env := ∅;
     process_pid := 4242; node_version := (24, 1, 0) |}.

(** A worker that was started without initial data. *)
Definition bare_worker : Runtime :=
  {| isMainThread := false; parentPort := Some (Port 1); threadId := 1;
     workerData := None;
     hasParameter := λ _, false;
     process_argv := ["node"; "script"]; process_env := ∅;
     process_pid := 4242; node_version := (24, 1, 0) |}.

(** The same worker run with [--debug]. *)
Definition bare_worker_debug : Runtime :=
  {| isMainThread := false; parentPort := Some (Port 1); threadId := 1;
     workerData := None;
     hasParameter := λ p, String.eqb p "debug";
     process_argv := ["node"; "script"; "--debug"]; process_env := ∅;
     process_pid := 4242; node_version := (24, 1, 0) |}.

(** A worker started by [createESMWorker('SystemCheck', ...)] under
    Node.js 21. *)
Definition node21_worker : Runtime :=
  {| isMainThread := false; parentPort := Some (Port 1); threadId := 1;
     workerData := Some {[ "threadName" := VStr "SystemCheck" ]};
     hasParameter := λ _, false;
     process_argv := ["node"; "script"]; process_env := ∅;
     process_pid := 4242; node_version := (21, 0, 0) |}.

(** Collaborators for the examples: the fetch answers, [checkUpdates] and
    [getGlobalNodeModules] fail. *)
Definition failing_externals : Externals :=
  {| debugStringify_message := λ _, "{...}";
     debugStringify_options := λ _, "{...}";
     pathToFileURL := λ p, "file:///" +:+ p;
     inspect_workerData := λ _, "{...}";
     inspect_env := λ _, "{...}";
     inspectError := λ m _, m +:+ ": inspected error";
     server_fetch := λ _ _,
       Ok {| result := {| data := {| mdnsInterface := None; shared_handle := 1 |} |} |};
     server_request := λ _, Ok ();
     checkUpdates := λ _, Throw (Error "checkUpdates failed");
     getGlobalNodeModules := Throw (Error "npm failed");
     os_networkInterfaces := Throw (Error "uv_interface_addresses");
     excludedInterfaceName := λ _, false |}.

Section expected.
Context (rt : Runtime) (ext : Externals).

(** What a successful [parentLog] leaves in the trace. *)
Definition parentLog_trace (port : MessagePort) (logName : option string)
    (logLevel : LogLevel) (message : string) : list Event :=
  let name := workerData_threadName_opt rt in
  PostMessage port (MsgLog (threadId rt) name logName logLevel message)
  :: (if debug rt then
        [LoggerDebug "Worker"
           ("Worker " +:+ to_string name +:+ ":" +:+ pretty (threadId rt)
            +:+ " sent log to parent: " +:+ default "undefined" logName +:+ " "
            +:+ level_string logLevel +:+ " " +:+ message)]
      else []).

(** What a successful [parentPost] leaves in the trace. *)
Definition parentPost_trace (port : MessagePort) (message : ParentPortMessage) : list Event :=
  PostMessage port message
  :: (if debug rt then
        [LoggerDebug "Worker"
           ("Worker " +:+ to_string (workerData_threadName_opt rt) +:+ ":"
            +:+ pretty (threadId rt) +:+ " sent message to parent: "
            +:+ debugStringify_message ext message)]
      else []).

(** What [threadLogger] leaves in the trace when it returns. *)
Definition threadLogger_trace (threadName : string) (level : LogLevel)
    (message : string) : list Event :=
  LoggerLog threadName level message
  :: match parentPort rt with
     | Some port =>
         if linked rt then parentLog_trace port (Some threadName) level message else []
     | None => []
     end.

Definition initialized_text : string :=
  "Worker " +:+ to_string (workerData_threadName_opt rt) +:+ ":"
  +:+ pretty (threadId rt) +:+ " initialized.".

Definition exiting_text (success : bool) : string :=
  "Worker " +:+ to_string (workerData_threadName_opt rt) +:+ ":"
  +:+ pretty (threadId rt) +:+ " exiting with success: "
  +:+ to_string (VBool success) +:+ ".".

(** The [init] control message of this thread. *)
Definition init_message : ParentPortMessage :=
  MsgInit (threadId rt) (workerData_threadName_opt rt) true.

(** The [exit] control message of this thread. *)
Definition exit_message (success : bool) : ParentPortMessage :=
  MsgExit (threadId rt) (workerData_threadName_opt rt) success.

(** The [log] control message a debug flag adds after [init] or [exit]. *)
Definition debug_message (name text : string) : ParentPortMessage :=
  MsgLog (threadId rt) (workerData_threadName_opt rt) (Some name) INFO text.

(** What the init block leaves in the trace when it returns. *)
Definition send_init_trace (name : string) : list Event :=
  match parentPort rt with
  | Some port =>
      if linked rt then
        parentPost_trace port init_message
        ++ (if debug rt then parentLog_trace port (Some name) INFO initialized_text else [])
      else []
  | None => []
  end.

(** What the exit block leaves in the trace when it returns. *)
Definition send_exit_trace (name : string) (success : bool) : list Event :=
  match parentPort rt with
  | Some port =>
      if linked rt then
        parentPost_trace port (exit_message success)
        ++ (if debug rt then parentLog_trace port (Some name) INFO (exiting_text success)
            else [])
      else []
  | None => []
  end.

(** The line each script logs before its [try] block. *)
Definition script_start (s : Script) : string :=
  match s with
  | CheckUpdates => "Starting check updates..."
  | SystemCheck => "Starting system check..."
  | GlobalPrefix => "Starting global prefix check..."
  end.

(** The statements of a script between the init block and the [try]
    block: the server is created, the worker information is logged when a
    verbose flag is set, the start line is logged. *)
Definition script_prologue (s : Script) : list Event :=
  ServerNew "matterbridge"
  :: (if verbose rt then trace (logWorkerInfo rt ext (script_name s) (Some (verbose rt)))
      else [])
  ++ threadLogger_trace (script_name s) INFO (script_start s).

(** An effect that the statements between creating and closing the server
    may have: anything but creating or closing the server, creating a
    worker, or posting [init] or [exit]; and nothing is posted at all
    unless the thread is linked. *)
Definition task_event (ev : Event) : bool :=
  match ev with
  | PostMessage _ m => linked rt && is_log m
  | NewWorker _ | ServerNew _ | ServerClose => false
  | _ => true
  end.

(** [exit] is the last control message of a sequence. *)
Definition exit_is_last (msgs : list ParentPortMessage) : Prop :=
  ∀ pre m post, msgs = pre ++ m :: post → is_exit m = true → post = [].

End expected.

(** ** More observations on traces *)

(** The thread a control message says it comes from. *)
Definition msg_threadId (m : ParentPortMessage) : Z :=
  match m with
  | MsgInit threadId _ _ | MsgExit threadId _ _ | MsgLog threadId _ _ _ _ => threadId
  end.

Definition msg_threadName (m : ParentPortMessage) : value :=
  match m with
  | MsgInit _ threadName _ | MsgExit _ threadName _ | MsgLog _ threadName _ _ _ => threadName
  end.

(** The [server.fetch] calls of a trace, with their timeouts. *)
Definition fetches (t : list Event) : list (Envelope * Z) :=
  omap (λ ev, match ev with ServerFetch e ms => Some (e, ms) | _ => None end) t.

(** The [server.request] calls of a trace. *)
Definition requests (t : list Event) : list Envelope :=
  omap (λ ev, match ev with ServerRequest e => Some e | _ => None end) t.

(** The [checkUpdates] calls of a trace, with their argument. *)
Definition check_calls (t : list Event) : list Shared :=
  omap (λ ev, match ev with CallCheckUpdates shared => Some shared | _ => None end) t.

(** The [log.debug] lines of a trace, with the logger they go to. *)
Definition debug_lines (t : list Event) : list (string * string) :=
  omap (λ ev, match ev with LoggerDebug n m => Some (n, m) | _ => None end) t.

(** The details [workerSystemCheck] looks at: those of the interfaces
    whose name the exclusion pattern does not match, in order. *)
Definition considered (ext : Externals)
    (entries : list (string * option (list InterfaceDetail))) : list InterfaceDetail :=
  flat_map (λ entry, if excludedInterfaceName ext entry.1 then [] else default [] entry.2)
           entries.

(** The interface names the exclusion pattern matches, in order. *)
Definition excluded_names (ext : Externals)
    (entries : list (string * option (list InterfaceDetail))) : list string :=
  List.filter (excludedInterfaceName ext) (map fst entries).

(** A control message of this thread on its parent port: it carries the
    thread's id and the thread name of its initial data, and a [log]
    message is filed under [name]. *)
Definition own_message (rt : Runtime) (name : string) (port : MessagePort)
    (m : ParentPortMessage) : Prop :=
  parentPort rt = Some port
  ∧ msg_threadId m = threadId rt
  ∧ msg_threadName m = workerData_threadName_opt rt
  ∧ match m with MsgLog _ _ logName _ _ => logName = Some name | _ => True end.

(** A call on the broadcast server or of a collaborator: an effect that
    neither posts nor logs. *)
Definition call_event (ev : Event) : bool :=
  match ev with
  | PostMessage _ _ | LoggerLog _ _ _ | LoggerDebug _ _ | NewWorker _ => false
  | _ => true
  end.

(** An effect is a control message only if it is the thread's own. *)
Definition own_event (rt : Runtime) (name : string) (ev : Event) : Prop :=
  match ev with
  | PostMessage port m => own_message rt name port m
  | _ => True
  end.

(** The [log] control message that relays a local log call to the parent. *)
Definition relayed (rt : Runtime) (c : string * LogLevel * string) : ParentPortMessage :=
  MsgLog (threadId rt) (workerData_threadName_opt rt) (Some c.1.1) c.1.2 c.2.

(** An effect that is neither a call on the broadcast server's data plane
    nor a call of a collaborator: a message to the parent, a log line,
    creating or closing the server, a call of [inspectError]. *)
Definition plumbing (ev : Event) : bool :=
  match ev with
  | PostMessage _ _ | LoggerLog _ _ _ | LoggerDebug _ _
  | ServerNew _ | ServerClose | CallInspectError _ _ => true
  | _ => false
  end.

(** Collaborators for the examples: every call completes; the host has a
    loopback interface, one LAN interface and one container bridge. *)
Definition answering_externals : Externals :=
  {| debugStringify_message := λ _, "{...}";
     debugStringify_options := λ _, "{...}";
     pathToFileURL := λ p, "file:///" +:+ p;
     inspect_workerData := λ _, "{...}";
     inspect_env := λ _, "{...}";
     inspectError := λ m _, m +:+ ": inspected error";
     server_fetch := λ _ _,
       Ok {| result := {| data := {| mdnsInterface := None; shared_handle := 1 |} |} |};
     server_request := λ _, Ok ();
     checkUpdates := λ _, Ok ();
     getGlobalNodeModules := Ok "/usr/lib/node_modules";
     os_networkInterfaces :=
       Ok [("lo", Some [{| internal := true; family := "IPv4" |}]);
           ("docker0", Some [{| internal := false; family := "IPv4" |}]);
           ("eth0", Some [{| internal := false; family := "IPv4" |};
                          {| internal := false; family := "IPv6" |}])];
     excludedInterfaceName := λ n, String.eqb n "docker0" |}.

(** ** workerSystemCheck.ts: what its diagnostics say *)

Section diagnostics.
Context (rt : Runtime) (ext : Externals).

(** No flag set: the state of the four [found...] variables before the
    loop. *)
Definition nothing_found : Found :=
  {| foundInternal := false; foundExternal := false; foundIpv4 := false; foundIpv6 := false |}.

(** Some detail of an interface the exclusion pattern does not match
    satisfies [P]. *)
Definition seen (entries : list (string * option (list InterfaceDetail)))
    (P : InterfaceDetail → Prop) : Prop :=
  ∃ interfaceName interfaceDetails detail,
    (interfaceName, Some interfaceDetails) ∈ entries
    ∧ excludedInterfaceName ext interfaceName = false
    ∧ detail ∈ interfaceDetails
    ∧ P detail.

(** The warning about an interface the exclusion pattern matches. *)
Definition warn_text (interfaceName : string) : string :=
  "Found network interface '" +:+ interfaceName
  +:+ "'. Please use --mdnsinterface parameter to specify the correct local interface for mDNS.".

Definition nvm_text : string :=
  "NVM is a development tool and is not supported in production. Please install node from https://github.com/nodesource/distributions.".

(** The error lines about the Node.js version, in the order of the checks. *)
Definition node_errors : list string :=
  let '(versionMajor, versionMinor, _) := node_version rt in
  (if (versionMajor =? 20)%Z && (versionMinor <? 19)%Z
   then ["Node.js version < 20.19.0 is not supported. Please upgrade to Node.js LTS version (24.x)."]
   else [])
  ++ (if (versionMajor =? 22)%Z && (versionMinor <? 13)%Z
      then ["Node.js version < 22.13.0 is not supported. Please upgrade to Node.js LTS version (24.x)."]
      else [])
  ++ (if (versionMajor =? 21)%Z || (versionMajor =? 23)%Z || (versionMajor =? 25)%Z
      then ["Node.js odd major versions are not supported. Please upgrade to Node.js LTS version (24.x)."]
      else []).

(** The error lines about the network interfaces, given the four flags. *)
Definition network_errors (found : Found) : list string :=
  (if foundInternal found then []
   else ["No internal network interface found. Check your network configuration."])
  ++ (if foundExternal found then []
      else ["No external network interface found. Check your network configuration."])
  ++ (if foundIpv4 found then []
      else ["No IPv4 network interface found. Check your network configuration."])
  ++ (if foundIpv6 found then []
      else ["No IPv6 network interface found. Check your network configuration."]).

End diagnostics.

(** ** dockerVersion.ts *)

(** The module asks Docker Hub for the version label of an image: a
    token, the manifest of the tag (through the manifest list when the tag
    is multi-platform), the config blob.  [node:https], [URL], [JSON.parse],
    [encodeURIComponent] and [isValidString] of [@matterbridge/utils] are
    parameters ([Net]); the parsed bodies have the module's declared
    types, an optional field being an [option]. *)
Module DockerVersion.

Record DockerRegistryTokenResponse := mkToken {
  token : option string;
  access_token : option string;
}.

Record Platform := mkPlatform {
  architecture : option string;
  os : option string;
}.

(** An element of [manifests]: [{ digest?, platform? }]. *)
Record ManifestEntry := mkEntry {
  manifest_digest : option string;
  platform : option Platform;
}.

(** [config?: { digest?: string }] *)
Record ManifestConfig := mkManifestConfig {
  digest : option string;
}.

Record DockerManifestV2 := mkManifest {
  schemaVersion : option Z;
  mediaType : option string;
  config : option ManifestConfig;
  manifests : option (list ManifestEntry);
}.

(** [{ Labels?: Record<string, string> }] *)
Record ImageConfig := mkImageConfig {
  Labels : option (gmap string string);
}.

(** [DockerConfigBlob]; its field [config] is [image_config] here. *)
Record DockerConfigBlob := mkBlob {
  image_config : option ImageConfig;
  container_config : option ImageConfig;
}.

Definition Headers := gmap string string.

(** One call of [https.get]: the URL, the [headers] option, and the delay
    of the timer armed beside it. *)
Record Request := mkRequest {
  req_url : string;
  req_headers : option Headers;
  req_timeoutMs : Z;
}.

#[global] Instance Request_eq_dec : EqDecision Request.
Proof. solve_decision. Defined.

(** [res.headers.location]: a string, or an array of strings. *)
Inductive Location :=
| LocString (s : string)
| LocArray (l : list string).

(** What settles the promise of one [https.get]: the timer, the request's
    [error] event, or a response (with its body when it is read). *)
Inductive Exchange :=
| TimedOut
| RequestError (message : string)
| Response (statusCode : option Z) (location : option Location) (body : string).

(** The errors [httpsGetJson] rejects with:
    [Request timed out after ${timeoutMs / 1000} seconds],
    [Request failed: ${message}],
    [Failed to fetch data. Status code: ${statusCode}],
    [Failed to parse response JSON: ${message}]. *)
Inductive Failure :=
| Timeout (timeoutMs : Z)
| RequestFailed (message : string)
| BadStatus (statusCode : Z)
| ParseFailed (message : string).

(** How a call ends.  [CallbackThrew]: an exception left the response
    callback after the timer was cleared, so that the callback settled
    nothing.  [Redirecting]: the chain of redirects is longer than the
    model follows. *)
Inductive Settlement (A : Type) :=
| Resolved (a : A)
| Rejected (f : Failure)
| CallbackThrew (e : JsError)
| Redirecting.
Arguments Resolved {A} a.
Arguments Rejected {A} f.
Arguments CallbackThrew {A} e.
Arguments Redirecting {A}.

(** The world outside the module.  [https_get] answers a request given
    the requests made before it; [URL_resolve location base] is
    [new URL(location, base).toString()], [URL_host url] is
    [new URL(url).host]; a [JSON_parse_...] gives the parsed body or the
    message of the error [JSON.parse] throws. *)
Record Net := mkNet {
  https_get : list Request → Request → Exchange;
  URL_resolve : string → string → Outcome string;
  URL_host : string → Outcome string;
  encodeURIComponent : string → string;
  isValidString : option string → Z → bool;
  JSON_parse_token : string → DockerRegistryTokenResponse + string;
  JSON_parse_manifest : string → DockerManifestV2 + string;
  JSON_parse_config : string → DockerConfigBlob + string;
}.

(** An asynchronous computation: it extends the list of the requests made
    so far and ends in a settlement. *)
Definition D (A : Type) : Type := list Request → list Request * Settlement A.

Definition D_ret {A} (a : A) : D A := λ log, (log, Resolved a).

Definition D_bind {A B} (m : D A) (f : A → D B) : D B := λ log,
  match m log with
  | (log', Resolved a) => f a log'
  | (log', Rejected e) => (log', Rejected e)
  | (log', CallbackThrew e) => (log', CallbackThrew e)
  | (log', Redirecting) => (log', Redirecting)
  end.

(** [try { body } catch { return undefined }] around awaited calls: a
    rejection becomes [undefined]; a call that did not settle stays so. *)
Definition D_catch {A} (m : D (option A)) : D (option A) := λ log,
  match m log with
  | (log', Rejected _) => (log', Resolved None)
  | r => r
  end.

(** [a ?? b] *)
Definition nullish {A} (a b : option A) : option A :=
  match a with Some x => Some x | None => b end.

(** Truthiness of an optional string. *)
Definition truthy (s : option string) : bool :=
  match s with Some s => negb (String.eqb s "") | None => false end.

(** A string, or [undefined], inside a template literal. *)
Definition show (s : option string) : string := default "undefined" s.

(** [Array.isArray(location) ? location[0] : location] *)
Definition locationHeader (location : option Location) : option string :=
  match location with
  | Some (LocString s) => Some s
  | Some (LocArray l) => head l
  | None => None
  end.

(** [headers?.Authorization] *)
Definition authorization (headers : option Headers) : option string :=
  match headers with Some h => h !! "Authorization" | None => None end.

(** [headers?.[key]] *)
Definition header (key : string) (headers : option Headers) : option string :=
  match headers with Some h => h !! key | None => None end.

(** [m.platform?.os === 'linux' && m.platform?.architecture === 'amd64'] *)
Definition is_linux_amd64 (m : ManifestEntry) : bool :=
  bool_decide (platform m ≫= os = Some "linux")
  && bool_decide (platform m ≫= architecture = Some "amd64").

(** [linuxAmd64?.digest ?? manifests[0]?.digest], [undefined] for a
    missing or empty list. *)
Definition pickPlatformManifestDigest (manifestList : DockerManifestV2) : option string :=
  match manifests manifestList with
  | None | Some [] => None
  | Some manifests =>
      let linuxAmd64 := List.find is_linux_amd64 manifests in
      nullish (linuxAmd64 ≫= manifest_digest) (head manifests ≫= manifest_digest)
  end.

(** [holder?.Labels?.[key]] *)
Definition label (holder : option ImageConfig) (key : string) : option string :=
  match holder with
  | Some holder =>
      match Labels holder with
      | Some labels => labels !! key
      | None => None
      end
  | None => None
  end.

(** The four lookups chained with [??], in the order of the source. *)
Definition getOciVersionLabel (config : DockerConfigBlob) : option string :=
  nullish
    (nullish
       (nullish (label (image_config config) "org.opencontainers.image.version")
                (label (container_config config) "org.opencontainers.image.version"))
       (label (image_config config) "org.label-schema.version"))
    (label (container_config config) "org.label-schema.version").

Section with_net.
Context (net : Net).

(** The headers of the redirected request: [Authorization] is dropped
    when the host changes; a URL that does not parse leaves them as they
    are. *)
Definition redirectedHeaders (url redirectedUrl : string) (headers : option Headers) :
    option Headers :=
  match URL_host net url with
  | Throw _ => headers
  | Ok fromHost =>
      match URL_host net redirectedUrl with
      | Throw _ => headers
      | Ok toHost =>
          if negb (String.eqb fromHost toHost) && truthy (authorization headers)
          then delete "Authorization" <$> headers
          else headers
      end
  end.

(** [httpsGetJson<T>(url, headers, timeoutMs)], following at most [fuel]
    requests. *)
Fixpoint httpsGetJson {T} (parse : string → T + string) (fuel : nat)
    (url : string) (headers : option Headers) (timeoutMs : Z) : D T := λ log,
  match fuel with
  | O => (log, Redirecting)
  | S fuel =>
      let request := mkRequest url headers timeoutMs in
      let answer := https_get net log request in
      let log := log ++ [request] in
      match answer with
      | TimedOut => (log, Rejected (Timeout timeoutMs))
      | RequestError message => (log, Rejected (RequestFailed message))
      | Response status location body =>
          let statusCode := default 0 status in
          let redirect :=
            if (300 <=? statusCode)%Z && (statusCode <? 400)%Z
            then (if truthy (locationHeader location) then locationHeader location else None)
            else None in
          match redirect with
          | Some locationHeader =>
              match URL_resolve net locationHeader url with
              | Throw e => (log, CallbackThrew e)
              | Ok redirectedUrl =>
                  httpsGetJson parse fuel redirectedUrl
                    (redirectedHeaders url redirectedUrl headers) timeoutMs log
              end
          | None =>
              if (statusCode <? 200)%Z || (300 <=? statusCode)%Z
              then (log, Rejected (BadStatus statusCode))
              else match parse body with
                   | inl json => (log, Resolved json)
                   | inr message => (log, Rejected (ParseFailed message))
                   end
          end
      end
  end.

Definition tokenUrl (owner repo : string) : string :=
  "https://auth.docker.io/token?service=registry.docker.io&scope=repository:"
  +:+ owner +:+ "/" +:+ repo +:+ ":pull".

Definition registry (owner repo : string) : string :=
  "https://registry-1.docker.io/v2/" +:+ owner +:+ "/" +:+ repo.

Definition accept : string :=
  "application/vnd.docker.distribution.manifest.v2+json, "
  +:+ "application/vnd.oci.image.manifest.v1+json, "
  +:+ "application/vnd.docker.distribution.manifest.list.v2+json, "
  +:+ "application/vnd.oci.image.index.v1+json".

(** [{ Authorization: `Bearer ${token}` }] *)
Definition baseHeaders (token : option string) : Headers :=
  {[ "Authorization" := "Bearer " +:+ show token ]}.

(** The statements of [getDockerVersion] from [const configDigest] on. *)
Definition readLabel (fuel : nat) (owner repo : string) (token : option string)
    (timeoutMs : Z) (manifest : DockerManifestV2) : D (option string) :=
  let configDigest := config manifest ≫= digest in
  if negb (isValidString net configDigest 10) then D_ret None
  else
    let configUrl := registry owner repo +:+ "/blobs/" +:+ show configDigest in
    D_bind (httpsGetJson (JSON_parse_config net) fuel configUrl
              (Some (<["Accept" := "application/json"]> (baseHeaders token))) timeoutMs)
      (λ config, D_ret (getOciVersionLabel config)).

(** [getDockerVersion(owner, repo, tag = 'latest', timeoutMs = 5_000)];
    each [httpsGetJson] follows at most [fuel] requests. *)
Definition getDockerVersion (fuel : nat) (owner repo : string) (tag : option string)
    (timeoutMs : option Z) : D (option string) :=
  let tag := default "latest" tag in
  let timeoutMs := default 5000 timeoutMs in
  if negb (isValidString net (Some owner) 1) || negb (isValidString net (Some repo) 1)
     || negb (isValidString net (Some tag) 1)
  then D_ret None
  else
    D_catch
      (D_bind (httpsGetJson (JSON_parse_token net) fuel (tokenUrl owner repo) None timeoutMs)
         (λ tokenJson,
            let token := nullish (token tokenJson) (access_token tokenJson) in
            if negb (isValidString net token 10) then D_ret None
            else
              let manifestUrl :=
                registry owner repo +:+ "/manifests/" +:+ encodeURIComponent net tag in
              let headers := Some (<["Accept" := accept]> (baseHeaders token)) in
              D_bind (httpsGetJson (JSON_parse_manifest net) fuel manifestUrl headers
                        timeoutMs)
                (λ manifest,
                   if bool_decide (config manifest ≫= digest = None)
                      && bool_decide (manifests manifest ≠ None)
                   then
                     let digest := pickPlatformManifestDigest manifest in
                     if negb (truthy digest) then D_ret None
                     else
                       let byDigestUrl :=
                         registry owner repo +:+ "/manifests/" +:+ show digest in
                       D_bind (httpsGetJson (JSON_parse_manifest net) fuel byDigestUrl
                                 headers timeoutMs)
                         (readLabel fuel owner repo token timeoutMs)
                   else readLabel fuel owner repo token timeoutMs manifest))).

End with_net.

End DockerVersion.

(** ** What is observed of dockerVersion.ts *)

(** What a request of a redirect chain keeps of the call that started it
    ([httpsGetJson(url, headers, timeoutMs)]): the timer delay, every
    header but [Authorization], and [Authorization] itself only on the
    host of [url]. *)
Definition forwarded (net : DockerVersion.Net) (url : string)
    (headers : option DockerVersion.Headers) (timeoutMs : Z)
    (r : DockerVersion.Request) : Prop :=
  DockerVersion.req_timeoutMs r = timeoutMs
  ∧ (∀ key, key ≠ "Authorization" →
       DockerVersion.header key (DockerVersion.req_headers r)
       = DockerVersion.header key headers)
  ∧ (DockerVersion.truthy (DockerVersion.authorization (DockerVersion.req_headers r)) = true →
       DockerVersion.URL_host net (DockerVersion.req_url r) = DockerVersion.URL_host net url
       ∧ DockerVersion.authorization (DockerVersion.req_headers r)
         = DockerVersion.authorization headers).

(** [200 <= statusCode < 300], an absent status code counting as 0. *)
Definition is_2xx (status : option Z) : Prop := (200 ≤ default 0 status < 300)%Z.

(** [300 <= statusCode < 400] *)
Definition is_3xx (status : option Z) : Prop := (300 ≤ default 0 status < 400)%Z.

(** How the answer to the last request of a call settles the call. *)
Definition accounts_for {T} (net : DockerVersion.Net) (parse : string → T + string)
    (r : DockerVersion.Request) (answer : DockerVersion.Exchange)
    (s : DockerVersion.Settlement T) : Prop :=
  match s, answer with
  | DockerVersion.Resolved json, DockerVersion.Response status _ body =>
      is_2xx status ∧ parse body = inl json
  | DockerVersion.Rejected (DockerVersion.Timeout timeoutMs), DockerVersion.TimedOut =>
      timeoutMs = DockerVersion.req_timeoutMs r
  | DockerVersion.Rejected (DockerVersion.RequestFailed message),
    DockerVersion.RequestError message' =>
      message = message'
  | DockerVersion.Rejected (DockerVersion.BadStatus statusCode),
    DockerVersion.Response status location _ =>
      statusCode = default 0%Z status
      ∧ ¬ is_2xx status
      ∧ (is_3xx status →
         DockerVersion.truthy (DockerVersion.locationHeader location) = false)
  | DockerVersion.Rejected (DockerVersion.ParseFailed message),
    DockerVersion.Response status _ body =>
      is_2xx status ∧ parse body = inr message
  | DockerVersion.CallbackThrew e, DockerVersion.Response status location _ =>
      is_3xx status
      ∧ ∃ target,
          DockerVersion.locationHeader location = Some target
          ∧ target ≠ ""
          ∧ DockerVersion.URL_resolve net target (DockerVersion.req_url r) = Throw e
  | _, _ => False
  end.

(** [isValidString(owner, 1) && isValidString(repo, 1) && isValidString(tag, 1)],
    [tag] defaulting to ['latest']. *)
Definition valid_args (net : DockerVersion.Net) (owner repo : string)
    (tag : option string) : bool :=
  DockerVersion.isValidString net (Some owner) 1
  && DockerVersion.isValidString net (Some repo) 1
  && DockerVersion.isValidString net (Some (default "latest" tag)) 1.

(** A request of the token call of [getDockerVersion], or of one of its
    calls to the registry made with [token], [Inv] telling what a request
    keeps of the call it belongs to. *)
Definition from_call (Inv : string → option DockerVersion.Headers → Z
                            → DockerVersion.Request → Prop)
    (owner repo : string) (timeoutMs : Z) (token : option string)
    (r : DockerVersion.Request) : Prop :=
  Inv (DockerVersion.tokenUrl owner repo) None timeoutMs r
  ∨ ∃ path acc,
      Inv (DockerVersion.registry owner repo +:+ path)
          (Some (<["Accept" := acc]> (DockerVersion.baseHeaders token))) timeoutMs r.

(** A network for the examples: Docker Hub answers the token request and
    the manifest request, and redirects the blob request to another host,
    which serves the config blob. *)
Definition sample_net : DockerVersion.Net :=
  {| DockerVersion.https_get := λ _ request,
       let url := DockerVersion.req_url request in
       if String.eqb url (DockerVersion.tokenUrl "luligu" "matterbridge")
       then DockerVersion.Response (Some 200) None "token"
       else if String.eqb url "https://registry-1.docker.io/v2/luligu/matterbridge/manifests/latest"
       then DockerVersion.Response (Some 200) None "manifest"
       else if String.eqb url
                 "https://registry-1.docker.io/v2/luligu/matterbridge/blobs/sha256:configdigest"
       then DockerVersion.Response (Some 307)
              (Some (DockerVersion.LocString "https://redirect.example/config.json")) ""
       else if String.eqb url "https://redirect.example/config.json"
       then DockerVersion.Response (Some 200) None "config"
       else DockerVersion.Response (Some 404) None "";
     DockerVersion.URL_resolve := λ location _, Ok location;
     DockerVersion.URL_host := λ url,
       Ok (if String.prefix "https://registry-1.docker.io/" url then "registry-1.docker.io"
           else if String.prefix "https://auth.docker.io/" url then "auth.docker.io"
           else "redirect.example");
     DockerVersion.encodeURIComponent := λ s, s;
     DockerVersion.isValidString := λ s minLength,
       match s with
       | Some s => (minLength <=? Z.of_nat (String.length s))%Z
       | None => false
       end;
     DockerVersion.JSON_parse_token := λ body,
       if String.eqb body "token"
       then inl (DockerVersion.mkToken (Some "token-1234567890") None)
       else inr "Unexpected token";
     DockerVersion.JSON_parse_manifest := λ body,
       if String.eqb body "manifest"
       then inl (DockerVersion.mkManifest (Some 2) None
                   (Some (DockerVersion.mkManifestConfig (Some "sha256:configdigest"))) None)
       else inr "Unexpected token";
     DockerVersion.JSON_parse_config := λ body,
       if String.eqb body "config"
       then inl (DockerVersion.mkBlob
                   (Some (DockerVersion.mkImageConfig
                            (Some {[ "org.opencontainers.image.version" := "8.8.8" ]})))
                   None)
       else inr "Unexpected token" |}.

(** A manifest list with two platforms, linux/amd64 second. *)
Definition sample_manifest_list : DockerVersion.DockerManifestV2 :=
  DockerVersion.mkManifest (Some 2) None None
    (Some [DockerVersion.mkEntry (Some "sha256:arm")
             (Some (DockerVersion.mkPlatform (Some "arm64") (Some "linux")));
           DockerVersion.mkEntry (Some "sha256:amd")
             (Some (DockerVersion.mkPlatform (Some "amd64") (Some "linux")))]).

(** A config blob with a label-schema version in [config] and an OCI
    version in [container_config]. *)
Definition sample_blob : DockerVersion.DockerConfigBlob :=
  DockerVersion.mkBlob
    (Some (DockerVersion.mkImageConfig (Some {[ "org.label-schema.version" := "1.0" ]})))
    (Some (DockerVersion.mkImageConfig
             (Some {[ "org.opencontainers.image.version" := "2.0" ]}))).

(** The requests of one call [httpsGetJson(url, headers, timeoutMs)] form
    a chain: the first is the request asked for, and each next one goes to
    some redirected URL with the headers [redirectedHeaders] computes from
    the request before it. *)
Fixpoint redirect_chain (net : DockerVersion.Net) (url : string)
    (headers : option DockerVersion.Headers) (timeoutMs : Z)
    (added : list DockerVersion.Request) : Prop :=
  match added with
  | [] => True
  | r :: rest =>
      r = DockerVersion.mkRequest url headers timeoutMs
      ∧ match rest with
        | [] => True
        | r' :: _ =>
            redirect_chain net (DockerVersion.req_url r')
              (DockerVersion.redirectedHeaders net url (DockerVersion.req_url r') headers)
              timeoutMs rest
        end
  end.

(** [new URL(url)] does not throw. *)
Definition parses (net : DockerVersion.Net) (url : string) : Prop :=
  ∃ host, DockerVersion.URL_host net url = Ok host.

(** The sample network with a stricter parser: [new URL] throws on
    anything that does not start with [https://]. *)
Definition strict_net : DockerVersion.Net :=
  {| DockerVersion.https_get := DockerVersion.https_get sample_net;
     DockerVersion.URL_resolve := λ location base,
       if String.prefix "https://" location then Ok location
       else Throw (TypeError "Invalid URL");
     DockerVersion.URL_host := λ url,
       if String.prefix "https://" url then DockerVersion.URL_host sample_net url
       else Throw (TypeError "Invalid URL");
     DockerVersion.encodeURIComponent := DockerVersion.encodeURIComponent sample_net;
     DockerVersion.isValidString := DockerVersion.isValidString sample_net;
     DockerVersion.JSON_parse_token := DockerVersion.JSON_parse_token sample_net;
     DockerVersion.JSON_parse_manifest := DockerVersion.JSON_parse_manifest sample_net;
     DockerVersion.JSON_parse_config := DockerVersion.JSON_parse_config sample_net |}.
(** The chain of the token call of [getDockerVersion], or of one of its
    calls to the registry made with [token]. *)
Definition call_chain (net : DockerVersion.Net) (owner repo : string) (timeoutMs : Z)
    (token : option string) (chain : list DockerVersion.Request) : Prop :=
  redirect_chain net (DockerVersion.tokenUrl owner repo) None timeoutMs chain
  ∨ ∃ path acc,
      redirect_chain net (DockerVersion.registry owner repo +:+ path)
        (Some (<["Accept" := acc]> (DockerVersion.baseHeaders token))) timeoutMs chain.

(** ** worker.ts: the control-plane primitives *)

Section worker_facts.
Context (rt : Runtime) (ext : Externals).

Lemma trace_bind {A B} (m : M A) (f : A → M B) :
  trace (m ≫= f) =
  match outcome m with Ok a => trace m ++ trace (f a) | Throw _ => trace m end.
Proof. unfold trace, outcome, mbind, M_bind. by destruct (m.2). Qed.

Lemma outcome_bind {A B} (m : M A) (f : A → M B) :
  outcome (m ≫= f) =
  match outcome m with Ok a => outcome (f a) | Throw e => Throw e end.
Proof. unfold outcome, mbind, M_bind. by destruct (m.2). Qed.

Lemma bind_ok {A B} (t : list Event) (a : A) (f : A → M B) :
  ((t, Ok a) : M A) ≫= f = (t ++ (f a).1, (f a).2).
Proof. reflexivity. Qed.

Lemma bind_throw {A B} (t : list Event) (e : JsError) (f : A → M B) :
  ((t, Throw e) : M A) ≫= f = (t, Throw e).
Proof. reflexivity. Qed.

Lemma posted_app (t1 t2 : list Event) : posted (t1 ++ t2) = posted t1 ++ posted t2.
Proof. apply omap_app. Qed.

Lemma relay_calls_app (t1 t2 : list Event) :
  relay_calls (t1 ++ t2) = relay_calls t1 ++ relay_calls t2.
Proof. apply omap_app. Qed.

Lemma error_relays_app (t1 t2 : list Event) :
  error_relays (t1 ++ t2) = error_relays t1 ++ error_relays t2.
Proof. unfold error_relays. by rewrite relay_calls_app, List.filter_app. Qed.

Lemma closes_app (t1 t2 : list Event) : closes (t1 ++ t2) = (closes t1 + closes t2)%nat.
Proof. unfold closes. by rewrite List.filter_app, length_app. Qed.

(** With initial data present, reading [workerData.threadName] succeeds
    and gives what [workerData?.threadName] gives. *)
Lemma workerData_threadName_ok :
  is_Some (workerData rt) →
  workerData_threadName rt = ([], Ok (workerData_threadName_opt rt)).
Proof.
  intros [wd Hwd]. unfold workerData_threadName, workerData_threadName_opt.
  by rewrite Hwd.
Qed.

Lemma parentLog_linked (port : MessagePort) logName logLevel message :
  parentPort rt = Some port → is_Some (workerData rt) →
  parentLog rt logName logLevel message
  = (parentLog_trace rt port logName logLevel message, Ok ()).
Proof.
  intros Hp Hd. unfold parentLog, parentLog_trace. rewrite Hp.
  rewrite (workerData_threadName_ok Hd). destruct (debug rt); reflexivity.
Qed.

Lemma parentPost_linked (port : MessagePort) message :
  parentPort rt = Some port → is_Some (workerData rt) →
  parentPost rt ext message = (parentPost_trace rt ext port message, Ok ()).
Proof.
  intros Hp Hd. unfold parentPost, parentPost_trace. rewrite Hp.
  rewrite (workerData_threadName_ok Hd). destruct (debug rt); reflexivity.
Qed.

Lemma posted_parentLog_trace port logName logLevel message :
  posted (parentLog_trace rt port logName logLevel message) =
  [MsgLog (threadId rt) (workerData_threadName_opt rt) logName logLevel message].
Proof. unfold parentLog_trace. by destruct (debug rt). Qed.

Lemma posted_parentPost_trace port message :
  posted (parentPost_trace rt ext port message) = [message].
Proof. unfold parentPost_trace. by destruct (debug rt). Qed.

(** The raw primitives with a link and initial data: [parentPost] posts
    the message it was given, [parentLog] one [log] message built from its
    arguments, the thread id and the thread name; neither throws. *)
Lemma primitives_post_when_linked (port : MessagePort) :
  parentPort rt = Some port → is_Some (workerData rt) →
  (∀ message,
     returns (parentPost rt ext message) ∧
     posted (trace (parentPost rt ext message)) = [message]) ∧
  (∀ logName logLevel message,
     returns (parentLog rt logName logLevel message) ∧
     posted (trace (parentLog rt logName logLevel message)) =
       [MsgLog (threadId rt) (workerData_threadName_opt rt) logName logLevel message]).
Proof.
  intros Hp Hd. split; intros.
  - rewrite (parentPost_linked port message Hp Hd). split; [by exists ()|].
    apply posted_parentPost_trace.
  - rewrite (parentLog_linked port logName logLevel message Hp Hd). split; [by exists ()|].
    apply posted_parentLog_trace.
Qed.

(** Without a link but with initial data, both primitives throw the
    explicit error, naming the thread. *)
Lemma primitives_throw_link_error :
  parentPort rt = None → is_Some (workerData rt) →
  let e := Error ("WorkerServer " +:+ to_string (workerData_threadName_opt rt)
                  +:+ ": parentPort is not available.") in
  (∀ message, parentPost rt ext message = ([], Throw e)) ∧
  (∀ logName logLevel message, parentLog rt logName logLevel message = ([], Throw e)).
Proof.
  intros Hp Hd e. split; intros; unfold parentPost, parentLog; rewrite Hp;
    by rewrite (workerData_threadName_ok Hd).
Qed.

End worker_facts.

(** ** The worker scripts, statement by statement *)

Section script_facts.
Context (rt : Runtime) (ext : Externals).
Hypothesis Hdata : linked_has_data rt.

Lemma linked_port : linked rt = true → ∃ port, parentPort rt = Some port.
Proof.
  unfold linked. intros [_ H]%andb_prop. apply bool_decide_eq_true in H.
  destruct H as [port H]. by exists port.
Qed.

Lemma linked_data : linked rt = true → is_Some (workerData rt).
Proof. exact Hdata. Qed.

Lemma threadLogger_eq threadName level message :
  threadLogger rt threadName level message
  = (threadLogger_trace rt threadName level message, Ok ()).
Proof.
  unfold threadLogger, threadLogger_trace.
  destruct (linked rt) eqn:Hl.
  - destruct (linked_port Hl) as [port Hp]. rewrite Hp.
    by rewrite (parentLog_linked rt port _ _ _ Hp (linked_data Hl)).
  - by destruct (parentPort rt).
Qed.

Lemma send_init_eq name : send_init rt ext name = (send_init_trace rt ext name, Ok ()).
Proof.
  unfold send_init, send_init_trace.
  destruct (linked rt) eqn:Hl; [|by destruct (parentPort rt)].
  destruct (linked_port Hl) as [port Hp]. rewrite Hp.
  pose proof (linked_data Hl) as Hd.
  rewrite (workerData_threadName_ok rt Hd), bind_ok.
  rewrite (parentPost_linked rt ext port _ Hp Hd), bind_ok.
  destruct (debug rt) eqn:Hdbg; simpl.
  - rewrite (parentLog_linked rt port _ _ _ Hp Hd). by rewrite Hdbg.
  - by rewrite Hdbg, app_nil_r.
Qed.

Lemma send_exit_eq name success :
  send_exit rt ext name success = (send_exit_trace rt ext name success, Ok ()).
Proof.
  unfold send_exit, send_exit_trace.
  destruct (linked rt) eqn:Hl; [|by destruct (parentPort rt)].
  destruct (linked_port Hl) as [port Hp]. rewrite Hp.
  pose proof (linked_data Hl) as Hd.
  rewrite (workerData_threadName_ok rt Hd), bind_ok.
  rewrite (parentPost_linked rt ext port _ Hp Hd), bind_ok.
  destruct (debug rt) eqn:Hdbg; simpl.
  - rewrite (parentLog_linked rt port _ _ _ Hp Hd). by rewrite Hdbg.
  - by rewrite Hdbg, app_nil_r.
Qed.

(** *** The [try] blocks and their handlers *)

Lemma trace_bind_Forall {A B} (P : Event → Prop) (m : M A) (f : A → M B) :
  Forall P (trace m) → (∀ a, Forall P (trace (f a))) → Forall P (trace (m ≫= f)).
Proof.
  intros Hm Hf. rewrite trace_bind. destruct (outcome m); [|done].
  apply Forall_app. split; [done | apply Hf].
Qed.

Lemma threadLogger_trace_task threadName level message :
  Forall (λ ev, task_event rt ev = true) (threadLogger_trace rt threadName level message).
Proof.
  unfold threadLogger_trace, parentLog_trace.
  destruct (parentPort rt), (linked rt) eqn:Hl, (debug rt); repeat constructor;
    unfold task_event; by rewrite Hl.
Qed.

Lemma threadLogger_task threadName level message :
  Forall (λ ev, task_event rt ev = true) (trace (threadLogger rt threadName level message)).
Proof. rewrite threadLogger_eq. apply threadLogger_trace_task. Qed.

Ltac task_step :=
  match goal with
  | |- Forall _ (trace (_ ≫= _)) => apply trace_bind_Forall; [|intros]
  | |- Forall _ (trace (threadLogger _ _ _ _)) => apply threadLogger_task
  | |- Forall _ (trace (call _ _)) => by repeat constructor
  | |- Forall _ (trace (mret _)) => by constructor
  | |- Forall _ (trace (if ?b then _ else _)) => destruct b
  | |- Forall _ (trace (let '(_, _) := ?p in _)) => destruct p
  end.

Lemma scan_interfaces_task shared entries f :
  Forall (λ ev, task_event rt ev = true) (trace (scan_interfaces rt ext shared entries f)).
Proof.
  revert f. induction entries as [|[interfaceName interfaceDetails] rest IH]; intros f.
  - by constructor.
  - cbn [scan_interfaces]. repeat task_step; apply IH.
Qed.

Lemma script_task_events s :
  Forall (λ ev, task_event rt ev = true) (trace (script_task rt ext s)).
Proof.
  destruct s; cbn [script_task].
  - unfold checkUpdates_task. repeat task_step.
  - unfold systemCheck_task. destruct (node_version rt) as [[major minor] patch].
    repeat first [task_step | apply scan_interfaces_task].
  - unfold globalPrefix_task. repeat task_step.
Qed.

(** The [try]/[catch] statement of every script returns: with [true] and
    the effects of the block when the block completes, with [false] when it
    throws, after one [inspectError] call and one error-level
    [threadLogger] call carrying the inspected text. *)
Lemma script_guarded_eq s :
  script_guarded rt ext s =
  match outcome (script_task rt ext s) with
  | Ok _ => (trace (script_task rt ext s), Ok true)
  | Throw e =>
      (trace (script_task rt ext s)
       ++ CallInspectError (script_failure s) e
       :: threadLogger_trace rt (script_name s) ERROR (inspectError ext (script_failure s) e),
       Ok false)
  end.
Proof.
  destruct s; cbn [script_guarded script_task script_failure script_name];
    unfold checkUpdates_guarded, systemCheck_guarded, globalPrefix_guarded, try_catch;
    match goal with |- context [outcome ?m] => destruct m as [t [[]|e]] end;
    cbn -[threadLogger threadLogger_trace]; rewrite ?threadLogger_eq;
    cbn -[threadLogger_trace]; by rewrite ?app_nil_r.
Qed.

Lemma script_guarded_events s :
  Forall (λ ev, task_event rt ev = true) (trace (script_guarded rt ext s)).
Proof.
  rewrite script_guarded_eq. pose proof (script_task_events s) as Ht.
  destruct (outcome (script_task rt ext s)); [done|].
  apply Forall_app. split; [done|]. constructor; [done|].
  apply threadLogger_trace_task.
Qed.

Lemma script_guarded_returns s :
  ∃ success, outcome (script_guarded rt ext s) = Ok success
    ∧ (success = true ↔ returns (script_task rt ext s)).
Proof.
  rewrite script_guarded_eq. unfold returns.
  destruct (outcome (script_task rt ext s)) as [[]|e].
  - exists true. split; [done|]. split; [by exists ()|done].
  - exists false. split; [done|]. split; [done|]. by intros [? ?].
Qed.

Lemma bind_eq {A B} (m : M A) (f : A → M B) t1 a t2 r :
  m = (t1, Ok a) → f a = (t2, r) → m ≫= f = (t1 ++ t2, r).
Proof. intros -> Hf. rewrite bind_ok. by rewrite Hf. Qed.

Lemma M_eta {A} (m : M A) a : outcome m = Ok a → m = (trace m, Ok a).
Proof. destruct m as [t o]. unfold outcome, trace. simpl. by intros ->. Qed.

Lemma logWorkerInfo_when n :
  (if verbose rt then logWorkerInfo rt ext n (Some (verbose rt)) else mret ())
  = ((if verbose rt then trace (logWorkerInfo rt ext n (Some (verbose rt))) else []), Ok ()).
Proof. by destruct (verbose rt). Qed.

(** Every script, start to end: the init block, the prologue, the
    [try]/[catch] statement, [server.close()], the exit block. *)
Lemma run_script_eq s success :
  outcome (script_guarded rt ext s) = Ok success →
  run_script rt ext s =
  (send_init_trace rt ext (script_name s)
   ++ script_prologue rt ext s
   ++ trace (script_guarded rt ext s)
   ++ ServerClose :: send_exit_trace rt ext (script_name s) success,
   Ok ()).
Proof.
  intros Hg%M_eta.
  destruct s; cbn [run_script script_name script_guarded] in *;
    unfold workerCheckUpdates, workerSystemCheck, workerGlobalPrefix, script_prologue;
    cbn [script_name script_start]; cbv zeta.
  all: etransitivity;
    [ eapply bind_eq; [apply send_init_eq|];
      eapply bind_eq; [reflexivity|];
      eapply bind_eq; [apply logWorkerInfo_when|];
      eapply bind_eq; [apply threadLogger_eq|];
      eapply bind_eq; [apply Hg|];
      eapply bind_eq; [reflexivity|];
      apply send_exit_eq
    | f_equal; simpl; by rewrite <- ?app_assoc ].
Qed.

End script_facts.

(** ** The worker scripts: what a run posts, logs and closes *)

Section script_obs.
Context (rt : Runtime) (ext : Externals).
Hypothesis Hdata : linked_has_data rt.

Lemma linked_spec : linked rt = true ↔ isMainThread rt = false ∧ is_Some (parentPort rt).
Proof.
  unfold linked. rewrite andb_true_iff, negb_true_iff, bool_decide_eq_true. done.
Qed.

Lemma posted_send_init name :
  posted (send_init_trace rt ext name) =
  if linked rt then
    init_message rt :: (if debug rt then [debug_message rt name (initialized_text rt)] else [])
  else [].
Proof.
  unfold send_init_trace. destruct (linked rt) eqn:Hl; [|by destruct (parentPort rt)].
  destruct (linked_port rt Hl) as [port ->].
  rewrite posted_app, posted_parentPost_trace.
  destruct (debug rt); [|done]. by rewrite posted_parentLog_trace.
Qed.

Lemma posted_send_exit name success :
  posted (send_exit_trace rt ext name success) =
  if linked rt then
    exit_message rt success
    :: (if debug rt then [debug_message rt name (exiting_text rt success)] else [])
  else [].
Proof.
  unfold send_exit_trace. destruct (linked rt) eqn:Hl; [|by destruct (parentPort rt)].
  destruct (linked_port rt Hl) as [port ->].
  rewrite posted_app, posted_parentPost_trace.
  destruct (debug rt); [|done]. by rewrite posted_parentLog_trace.
Qed.

Lemma send_init_quiet name :
  closes (send_init_trace rt ext name) = 0%nat
  ∧ relay_calls (send_init_trace rt ext name) = []
  ∧ List.filter is_open (send_init_trace rt ext name) = [].
Proof.
  unfold send_init_trace, parentPost_trace, parentLog_trace.
  by destruct (parentPort rt), (linked rt), (debug rt).
Qed.

Lemma send_exit_quiet name success :
  closes (send_exit_trace rt ext name success) = 0%nat
  ∧ relay_calls (send_exit_trace rt ext name success) = []
  ∧ List.filter is_open (send_exit_trace rt ext name success) = [].
Proof.
  unfold send_exit_trace, parentPost_trace, parentLog_trace.
  by destruct (parentPort rt), (linked rt), (debug rt).
Qed.

Lemma relay_calls_threadLogger_trace n l m :
  relay_calls (threadLogger_trace rt n l m) = [(n, l, m)].
Proof.
  unfold threadLogger_trace, parentLog_trace.
  by destruct (parentPort rt), (linked rt), (debug rt).
Qed.

(** What the statements between creating and closing the server cannot do. *)
Lemma task_events_quiet (t : list Event) :
  Forall (λ ev, task_event rt ev = true) t →
  closes t = 0%nat
  ∧ List.filter is_open t = []
  ∧ List.filter is_init (posted t) = []
  ∧ List.filter is_exit (posted t) = []
  ∧ Forall (λ m, is_log m = true) (posted t)
  ∧ (linked rt = false → posted t = []).
Proof.
  induction 1 as [|ev t Hev _ (IH1 & IH2 & IH3 & IH4 & IH5 & IH6)]; [done|].
  destruct ev as [port m| | | | | | | | | | |]; try done.
  unfold task_event in Hev. apply andb_prop in Hev as [Hl Hm].
  destruct m; try done.
  repeat split; try done.
  - by constructor.
  - by rewrite Hl.
Qed.

Lemma script_prologue_events s :
  ∃ rest, script_prologue rt ext s = ServerNew "matterbridge" :: rest
    ∧ Forall (λ ev, task_event rt ev = true) rest
    ∧ error_relays rest = [].
Proof.
  eexists. split; [reflexivity|]. split.
  - apply Forall_app. split; [|apply threadLogger_trace_task].
    destruct (verbose rt); repeat constructor.
  - rewrite error_relays_app. unfold error_relays at 2.
    rewrite relay_calls_threadLogger_trace. by destruct (verbose rt).
Qed.


Lemma task_no_error_relay s :
  s ≠ SystemCheck → error_relays (trace (script_task rt ext s)) = [].
Proof.
  intros Hs. destruct s; [|done|]; cbn [script_task].
  - unfold checkUpdates_task.
    destruct (server_fetch ext shared_request 1000) as [response|e]; [|done].
    cbn -[threadLogger].
    destruct (checkUpdates ext (data (result response))) as [[]|e]; [|done].
    cbn -[threadLogger]. rewrite (threadLogger_eq rt Hdata). cbn -[threadLogger_trace].
    unfold error_relays. cbn -[threadLogger_trace].
    by rewrite relay_calls_threadLogger_trace.
  - unfold globalPrefix_task.
    destruct (getGlobalNodeModules ext) as [prefix|e]; [|done].
    cbn -[threadLogger global_prefix_request].
    destruct (server_request ext (global_prefix_request prefix)) as [[]|e]; [|done].
    cbn -[threadLogger global_prefix_request]. rewrite (threadLogger_eq rt Hdata).
    cbn -[threadLogger_trace global_prefix_request].
    unfold error_relays. cbn -[threadLogger_trace global_prefix_request].
    by rewrite relay_calls_threadLogger_trace.
Qed.

Lemma posted_ServerNew c l : posted (ServerNew c :: l) = posted l.
Proof. reflexivity. Qed.

Lemma posted_ServerClose l : posted (ServerClose :: l) = posted l.
Proof. reflexivity. Qed.

Lemma send_init_trace_linked port name :
  parentPort rt = Some port → linked rt = true →
  ∃ tail, send_init_trace rt ext name = PostMessage port (init_message rt) :: tail
    ∧ posted tail = if debug rt then [debug_message rt name (initialized_text rt)] else [].
Proof.
  intros Hp Hl. unfold send_init_trace. rewrite Hp, Hl. unfold parentPost_trace.
  eexists. split; [reflexivity|]. rewrite posted_app.
  destruct (debug rt); [|done]. by rewrite posted_parentLog_trace.
Qed.

Lemma send_exit_trace_linked port name success :
  parentPort rt = Some port → linked rt = true →
  ∃ tail, send_exit_trace rt ext name success
          = PostMessage port (exit_message rt success) :: tail
    ∧ posted tail = if debug rt then [debug_message rt name (exiting_text rt success)] else [].
Proof.
  intros Hp Hl. unfold send_exit_trace. rewrite Hp, Hl. unfold parentPost_trace.
  eexists. split; [reflexivity|]. rewrite posted_app.
  destruct (debug rt); [|done]. by rewrite posted_parentLog_trace.
Qed.

(** A whole run: the init block, the server is created, the statements up
    to the end of the [try]/[catch] statement, the server is closed, the
    exit block. *)
Lemma run_script_split s :
  ∃ success middle,
    outcome (script_guarded rt ext s) = Ok success
    ∧ run_script rt ext s =
        (send_init_trace rt ext (script_name s)
         ++ ServerNew "matterbridge"
         :: middle ++ ServerClose :: send_exit_trace rt ext (script_name s) success,
         Ok ())
    ∧ Forall (λ ev, task_event rt ev = true) middle
    ∧ (∃ pre, middle = pre ++ trace (script_guarded rt ext s)
              ∧ error_relays pre = []).
Proof.
  destruct (script_guarded_returns rt ext Hdata s) as (success & Hg & _).
  destruct (script_prologue_events s) as (rest & Hpro & Hrest & Herr).
  pose proof (script_guarded_events rt ext Hdata s) as Hev.
  exists success, (rest ++ trace (script_guarded rt ext s)).
  split; [done|]. split; [|split].
  - rewrite (run_script_eq rt ext Hdata s success Hg), Hpro.
    cbn [app]. by rewrite <- app_assoc.
  - by apply Forall_app.
  - by exists rest.
Qed.

Lemma logs_not_init_exit (l : list ParentPortMessage) :
  Forall (λ m, is_log m = true) l →
  List.filter is_init l = [] ∧ List.filter is_exit l = [].
Proof.
  induction 1 as [|m l Hm _ [IH1 IH2]]; [done|]. by destruct m.
Qed.

(** The control messages of a whole run: those of the init block, then
    [log] messages only, then those of the exit block. *)
Lemma posted_run_script s :
  ∃ success logs,
    outcome (script_guarded rt ext s) = Ok success
    ∧ returns (run_script rt ext s)
    ∧ posted (trace (run_script rt ext s)) =
        posted (send_init_trace rt ext (script_name s))
        ++ logs ++ posted (send_exit_trace rt ext (script_name s) success)
    ∧ Forall (λ m, is_log m = true) logs
    ∧ (linked rt = false → logs = []).
Proof.
  destruct (run_script_split s) as (success & middle & Hg & Hrun & Hmid & _).
  apply task_events_quiet in Hmid as (_ & _ & _ & _ & Hlogs & Hnone).
  exists success, (posted middle). rewrite Hrun. split; [done|].
  split; [by exists ()|]. split; [|done].
  unfold trace. cbn [fst].
  by rewrite posted_app, posted_ServerNew, posted_app, posted_ServerClose.
Qed.

(** In each of the three worker scripts, run in a thread that has its
    initial data when it is linked ([linked_has_data]), the [init] control
    message (with [success: true]) is posted if and only if the script is
    not on the main thread and the parent port is present; it is then the
    very first effect of the script and is posted once.  On the main
    thread or without a parent port the script posts no control message at
    all and runs to its end without throwing. *)
Theorem init_posted_iff_linked (s : Script) :
  let t := trace (run_script rt ext s) in
  let init := MsgInit (threadId rt) (workerData_threadName_opt rt) true in
  (In init (posted t) ↔ isMainThread rt = false ∧ is_Some (parentPort rt))
  ∧ (∀ port, isMainThread rt = false → parentPort rt = Some port →
       ∃ rest, t = PostMessage port init :: rest
               ∧ List.filter is_init (posted rest) = [])
  ∧ (isMainThread rt = true ∨ parentPort rt = None →
       posted t = [] ∧ returns (run_script rt ext s)).
Proof.
  intros t init. subst t.
  destruct (posted_run_script s) as (success & logs & Hg & Hret & Hposted & Hlogs & Hnone).
  split; [|split].
  - rewrite posted_send_init, posted_send_exit in Hposted.
    rewrite <- linked_spec, Hposted. destruct (linked rt) eqn:Hl.
    + split; [done|]. intros _. by left.
    + rewrite (Hnone eq_refl). by split.
  - intros port Hmain Hport.
    assert (Hl : linked rt = true) by (apply linked_spec; by rewrite Hport).
    destruct (run_script_split s) as (success' & middle & Hg' & Hrun & Hmid & _).
    destruct (send_init_trace_linked port (script_name s) Hport Hl) as (tail & Htail & Hpt).
    destruct (send_exit_trace_linked port (script_name s) success' Hport Hl)
      as (tail' & Htail' & Hpt').
    apply task_events_quiet in Hmid as (_ & _ & Hmid & _).
    rewrite Hrun, Htail, Htail'. unfold trace. cbn [fst app].
    eexists. split; [reflexivity|].
    rewrite posted_app, posted_ServerNew, posted_app, posted_ServerClose.
    rewrite !List.filter_app, Hmid, Hpt.
    change (posted (PostMessage port ?m :: ?l)) with (m :: posted l).
    rewrite Hpt'. by destruct (debug rt).
  - intros Hno.
    assert (Hl : linked rt = false).
    { destruct (linked rt) eqn:Hl; [|done]. apply linked_spec in Hl as [Hm [port Hp]].
      destruct Hno; congruence. }
    rewrite posted_send_init, posted_send_exit, Hl, (Hnone Hl) in Hposted. by split.
Qed.

(** In each of the three worker scripts, on the main thread as in a
    worker that has its initial data ([linked_has_data]), [server.close()]
    is called exactly once: right after the [try]/[catch] statement has
    completed (with either value of [success]) and before any [exit]
    control message.  The server is created once, after the init block, so
    every [init] precedes its creation and every [exit] follows its
    closing; the script then returns. *)
Theorem server_closed_once (s : Script) :
  ∃ success before after,
    trace (run_script rt ext s) = before ++ ServerClose :: after
    ∧ closes (trace (run_script rt ext s)) = 1%nat
    ∧ outcome (script_guarded rt ext s) = Ok success
    ∧ (∃ pre, before = pre ++ trace (script_guarded rt ext s))
    ∧ List.filter is_exit (posted before) = []
    ∧ List.filter is_exit (posted after)
      = (if linked rt then [MsgExit (threadId rt) (workerData_threadName_opt rt) success]
         else [])
    ∧ (∃ b1 b2, before = b1 ++ ServerNew "matterbridge" :: b2
         ∧ List.filter is_open (b1 ++ b2 ++ after) = []
         ∧ List.filter is_init (posted (b2 ++ after)) = [])
    ∧ returns (run_script rt ext s).
Proof.
  destruct (run_script_split s) as (success & middle & Hg & Hrun & Hmid & pre & Hpre & _).
  pose proof (task_events_quiet _ Hmid) as (Hc & Ho & Hi & He & Hlogs & _).
  destruct (send_init_quiet (script_name s)) as (Hci & _ & Hoi).
  destruct (send_exit_quiet (script_name s) success) as (Hce & _ & Hoe).
  exists success,
    (send_init_trace rt ext (script_name s) ++ ServerNew "matterbridge" :: middle),
    (send_exit_trace rt ext (script_name s) success).
  rewrite Hrun. unfold trace. cbn [fst].
  split; [by rewrite <- app_assoc|].
  split.
  { rewrite closes_app, Hci. change (ServerNew "matterbridge" :: ?l) with ([ServerNew "matterbridge"] ++ l).
    rewrite !closes_app, Hc. change (ServerClose :: ?l) with ([ServerClose] ++ l).
    by rewrite closes_app, Hce. }
  split; [done|].
  split.
  { exists (send_init_trace rt ext (script_name s) ++ ServerNew "matterbridge" :: pre).
    rewrite Hpre. cbn [app]. by rewrite <- app_assoc. }
  split.
  { rewrite posted_app, posted_ServerNew, List.filter_app, He, posted_send_init.
    by destruct (linked rt), (debug rt). }
  split.
  { rewrite posted_send_exit. by destruct (linked rt), (debug rt). }
  split; [|by exists ()].
  exists (send_init_trace rt ext (script_name s)), middle.
  split; [done|]. split.
  - by rewrite !List.filter_app, Hoi, Ho, Hoe.
  - rewrite posted_app, List.filter_app, Hi, posted_send_exit.
    by destruct (linked rt), (debug rt).
Qed.

Lemma exit_last_after_logs (l : list ParentPortMessage) (e : ParentPortMessage) :
  Forall (λ m, is_exit m = false) l → exit_is_last (l ++ [e]).
Proof.
  induction 1 as [|x l Hx _ IH]; intros pre m post Heq Hm.
  - destruct pre as [|? [|? ?]]; simplify_eq/=; done.
  - destruct pre as [|y pre]; simplify_eq/=; [congruence|]. by eapply IH.
Qed.

(** With an active link and the initial data that comes with it
    ([linked_has_data]), the control messages of a run of any of
    the three scripts are: [init] (with [success: true]) first, then [log] messages only,
    then one [exit]; after [exit] comes nothing when no debug flag is set,
    and exactly one more [log] message (the script's "exiting with
    success" line) when one is.  So [init] and [exit] are posted exactly
    once each, [init] before every other message, and [exit] is last when
    no debug flag is set. *)
Theorem control_sequence (s : Script) :
  linked rt = true →
  ∃ success logs,
    posted (trace (run_script rt ext s)) =
      MsgInit (threadId rt) (workerData_threadName_opt rt) true
      :: logs
      ++ MsgExit (threadId rt) (workerData_threadName_opt rt) success
      :: (if debug rt
          then [MsgLog (threadId rt) (workerData_threadName_opt rt)
                  (Some (script_name s)) INFO (exiting_text rt success)]
          else [])
    ∧ Forall (λ m, is_log m = true) logs
    ∧ (debug rt = false → exit_is_last (posted (trace (run_script rt ext s)))).
Proof.
  intros Hl.
  destruct (posted_run_script s) as (success & logs & Hg & _ & Hposted & Hlogs & _).
  rewrite posted_send_init, posted_send_exit, Hl in Hposted.
  exists success,
    ((if debug rt then [debug_message rt (script_name s) (initialized_text rt)] else [])
     ++ logs).
  split; [|split].
  - rewrite Hposted. cbn [app]. by rewrite <- app_assoc.
  - apply Forall_app. split; [|done]. destruct (debug rt); by repeat constructor.
  - intros Hd. rewrite Hposted, Hd. cbn [app].
    change (init_message rt :: logs ++ [exit_message rt success])
      with ((init_message rt :: logs) ++ [exit_message rt success]).
    apply exit_last_after_logs. constructor; [done|].
    eapply Forall_impl; [exact Hlogs|]. intros m Hm. by destruct m.
Qed.

Lemma error_relays_quiet t : relay_calls t = [] → error_relays t = [].
Proof. unfold error_relays. by intros ->. Qed.

Lemma error_relays_ServerNew c l : error_relays (ServerNew c :: l) = error_relays l.
Proof. reflexivity. Qed.

Lemma error_relays_ServerClose l : error_relays (ServerClose :: l) = error_relays l.
Proof. reflexivity. Qed.

Lemma error_relays_CallInspectError m e l :
  error_relays (CallInspectError m e :: l) = error_relays l.
Proof. reflexivity. Qed.

Lemma error_relays_threadLogger_trace n m :
  error_relays (threadLogger_trace rt n ERROR m) = [(n, ERROR, m)].
Proof. unfold error_relays. by rewrite relay_calls_threadLogger_trace. Qed.

Lemma threadLogger_trace_split n l m :
  ∃ relay, threadLogger_trace rt n l m = LoggerLog n l m :: relay ∧ relay_calls relay = [].
Proof.
  unfold threadLogger_trace, parentLog_trace. eexists. split; [reflexivity|].
  by destruct (parentPort rt), (linked rt), (debug rt).
Qed.

(** C2, as amended.  In a worker script, run in a thread that has its
    initial data when it is linked ([linked_has_data]): when the [try]
    block throws, the script still returns (nothing propagates out of
    it); the handler calls [inspectError] and then makes one error-level
    [threadLogger] call carrying the text [inspectError] made of the
    error; that call comes before any [exit] and no error-level call
    follows it; with a link exactly one [exit] message is posted, with
    [success: false] (without a link, none).  In [workerCheckUpdates] and
    [workerGlobalPrefix] no error-level call comes before it either: it is
    the one error-level [threadLogger] call of the whole run.  In
    [workerSystemCheck] the [try] block may have relayed error-level
    diagnostics of its own before it threw. *)
Theorem task_failure_reported (s : Script) (e : JsError) :
  outcome (script_task rt ext s) = Throw e →
  let t := trace (run_script rt ext s) in
  let text := inspectError ext (script_failure s) e in
  returns (run_script rt ext s)
  ∧ List.filter is_exit (posted t)
    = (if linked rt then [MsgExit (threadId rt) (workerData_threadName_opt rt) false]
       else [])
  ∧ (∃ before after,
       t = before ++ CallInspectError (script_failure s) e
                  :: LoggerLog (script_name s) ERROR text :: after
       ∧ List.filter is_exit (posted before) = []
       ∧ error_relays after = []
       ∧ (s ≠ SystemCheck → error_relays before = []))
  ∧ (s ≠ SystemCheck → error_relays t = [(script_name s, ERROR, text)]).
Proof.
  intros He t text.
  destruct (run_script_split s)
    as (success & middle & Hg & Hrun & Hmid & pre & Hpre & Herr).
  rewrite (script_guarded_eq rt ext Hdata), He in Hg. injection Hg as <-.
  rewrite (script_guarded_eq rt ext Hdata), He in Hpre. unfold trace at 1 in Hpre.
  cbn [fst] in Hpre.
  destruct (threadLogger_trace_split (script_name s) ERROR text) as (relay & Hrelay & Hquiet).
  fold text in Hpre. rewrite Hrelay in Hpre.
  destruct (send_init_quiet (script_name s)) as (_ & Hri & _).
  destruct (send_exit_quiet (script_name s) false) as (_ & Hre & _).
  pose proof (task_events_quiet _ Hmid) as (_ & _ & _ & Hme & _).
  assert (Ht : t = (send_init_trace rt ext (script_name s) ++ ServerNew "matterbridge"
                    :: pre ++ trace (script_task rt ext s))
                   ++ CallInspectError (script_failure s) e
                   :: LoggerLog (script_name s) ERROR text
                   :: relay ++ ServerClose :: send_exit_trace rt ext (script_name s) false).
  { subst t. rewrite Hrun. unfold trace at 1. cbn [fst]. rewrite Hpre.
    rewrite <- !app_assoc. cbn [app]. by rewrite <- !app_assoc. }
  assert (Hafter : error_relays (relay ++ ServerClose
                                 :: send_exit_trace rt ext (script_name s) false) = []).
  { by rewrite error_relays_app, (error_relays_quiet _ Hquiet), error_relays_ServerClose,
      (error_relays_quiet _ Hre). }
  assert (Hbefore : s ≠ SystemCheck →
            error_relays (send_init_trace rt ext (script_name s) ++ ServerNew "matterbridge"
                          :: pre ++ trace (script_task rt ext s)) = []).
  { intros Hs.
    by rewrite error_relays_app, (error_relays_quiet _ Hri), error_relays_ServerNew,
      error_relays_app, Herr, (task_no_error_relay s Hs). }
  split; [by exists (); subst t; rewrite Hrun|].
  split; [|split].
  - subst t. rewrite Hrun. unfold trace. cbn [fst].
    rewrite posted_app, posted_ServerNew, posted_app, posted_ServerClose.
    rewrite !List.filter_app, Hme, posted_send_init, posted_send_exit.
    by destruct (linked rt), (debug rt).
  - eexists _, _. split; [exact Ht|]. split; [|split; [exact Hafter|exact Hbefore]].
    rewrite Hpre in Hmid. apply Forall_app in Hmid as [Hp1 Hmid].
    apply Forall_app in Hmid as [Hp2 _].
    apply task_events_quiet in Hp1 as (_ & _ & _ & Hp1 & _).
    apply task_events_quiet in Hp2 as (_ & _ & _ & Hp2 & _).
    rewrite posted_app, posted_ServerNew, posted_app, !List.filter_app, Hp1, Hp2.
    rewrite posted_send_init. by destruct (linked rt), (debug rt).
  - intros Hs. rewrite Ht, error_relays_app, (Hbefore Hs), error_relays_CallInspectError.
    change (LoggerLog ?a ?b ?c :: ?l) with ([LoggerLog a b c] ++ l).
    by rewrite error_relays_app, Hafter.
Qed.
End script_obs.

Lemma spawned_worker_data flags : linked_has_data (spawned_worker flags).
Proof. intros _. by eexists. Defined.

Lemma main_thread_data : linked_has_data main_thread.
Proof. intros Hlinked. discriminate Hlinked. Defined.

Lemma task_failure_reported_witness :
  linked_has_data (spawned_worker [])
  ∧ outcome (script_task (spawned_worker []) failing_externals CheckUpdates)
    = Throw (Error "checkUpdates failed")
  ∧ List.filter is_exit
      (posted (trace (run_script (spawned_worker []) failing_externals CheckUpdates)))
    = [MsgExit 1 (VStr "CheckUpdates") false].
Proof.
  split; [apply spawned_worker_data|]. split; [reflexivity|].
  destruct (task_failure_reported (spawned_worker []) failing_externals
              (spawned_worker_data []) CheckUpdates (Error "checkUpdates failed") eq_refl)
    as (_ & Hexit & _).
  exact Hexit.
Defined.

(** Before a failure, [workerSystemCheck] may already have relayed
    error-level diagnostics of its own: here Node.js 21 and a failing
    [os.networkInterfaces()]. *)
Example systemCheck_relays_its_diagnostics :
  let rt := {| isMainThread := false; parentPort := Some (Port 1); threadId := 1;
               workerData := Some {[ "threadName" := VStr "SystemCheck" ]};
               hasParameter := λ _, false;
               process_argv := ["node"; "script"]; process_env := ∅;
               process_pid := 4242; node_version := (21, 0, 0) |} in
  length (error_relays (trace (run_script rt failing_externals SystemCheck))) = 2%nat.
Proof. vm_compute. reflexivity. Qed.

(** C4, as stated, fails when a debug flag is set: the script posts its
    "exiting with success" [log] message after [exit]. *)
Lemma exit_not_last_with_debug :
  ¬ exit_is_last
      (posted (trace (run_script (spawned_worker ["debug"]) failing_externals CheckUpdates))).
Proof.
  set (msgs := posted _). intros Hlast.
  assert (Hsplit : msgs = take 4 msgs ++ MsgExit 1 (VStr "CheckUpdates") false :: drop 5 msgs)
    by (vm_compute; reflexivity).
  specialize (Hlast _ _ _ Hsplit eq_refl). vm_compute in Hlast. discriminate Hlast.
Qed.

(** ** The worker scripts in every thread *)

(** The statements so far are about threads that have their initial data
    when they are linked.  The remaining threads, linked but without
    initial data, stop at the first statement of the script. *)
Lemma run_without_data (rt : Runtime) (ext : Externals) (s : Script) :
  linked rt = true → workerData rt = None →
  run_script rt ext s = ([], Throw (TypeError "threadName")).
Proof.
  intros Hl Hd.
  destruct s; cbn [run_script];
    unfold workerCheckUpdates, workerSystemCheck, workerGlobalPrefix, send_init,
      workerData_threadName; by rewrite Hl, Hd.
Qed.

Lemma has_data (rt : Runtime) : is_Some (workerData rt) → linked_has_data rt.
Proof. by intros H _. Qed.

Lemma unlinked_has_data (rt : Runtime) : linked rt = false → linked_has_data rt.
Proof. intros Hl Hl'. congruence. Qed.

(** In a list with exactly one element satisfying [p], that element
    splits the list in one way only. *)
Lemma unique_split {A} (p : A → bool) (l1 l2 pre post : list A) (x m : A) :
  Forall (λ a, p a = false) l1 → Forall (λ a, p a = false) l2 → p m = true →
  l1 ++ x :: l2 = pre ++ m :: post →
  pre = l1 ∧ m = x ∧ post = l2.
Proof.
  intros H1 H2 Hm. revert pre. induction H1 as [|a l1 Ha _ IH]; intros pre Heq.
  - destruct pre as [|b pre]; cbn in Heq.
    + by injection Heq as -> ->.
    + injection Heq as -> ->.
      assert (Hin : m ∈ pre ++ m :: post) by set_solver.
      rewrite Forall_forall in H2. rewrite (H2 m Hin) in Hm. done.
  - destruct pre as [|b pre]; cbn in Heq.
    + injection Heq as -> _. congruence.
    + injection Heq as -> Heq. destruct (IH pre Heq) as (-> & -> & ->). done.
Qed.

(** C3, as amended.  In each of the three worker scripts the [init]
    control message (with [success: true]) is posted if and only if the
    script is not on the main thread, the parent port is present and the
    thread has its initial data; it is then the very first effect of the
    script and is posted once.  On the main thread or without a parent
    port the script posts no control message at all and runs to its end
    without throwing.  In a worker that has a parent port but no initial
    data the script throws a [TypeError] at its first statement, reading
    [workerData.threadName] for the [init] message, and posts nothing. *)
Theorem init_posted_iff_ready (rt : Runtime) (ext : Externals) (s : Script) :
  let t := trace (run_script rt ext s) in
  let init := MsgInit (threadId rt) (workerData_threadName_opt rt) true in
  (In init (posted t)
   ↔ isMainThread rt = false ∧ is_Some (parentPort rt) ∧ is_Some (workerData rt))
  ∧ (∀ port, isMainThread rt = false → parentPort rt = Some port →
       is_Some (workerData rt) →
       ∃ rest, t = PostMessage port init :: rest
               ∧ List.filter is_init (posted rest) = [])
  ∧ (isMainThread rt = true ∨ parentPort rt = None →
       posted t = [] ∧ returns (run_script rt ext s))
  ∧ (isMainThread rt = false → is_Some (parentPort rt) → workerData rt = None →
       run_script rt ext s = ([], Throw (TypeError "threadName"))).
Proof.
  intros t init. subst t.
  assert (Hbare : isMainThread rt = false → is_Some (parentPort rt) → workerData rt = None →
                  run_script rt ext s = ([], Throw (TypeError "threadName"))).
  { intros Hm Hp Hd. apply run_without_data; [|done]. by apply linked_spec. }
  split; [|split; [|split; [|exact Hbare]]].
  - destruct (workerData rt) as [wd|] eqn:Hd.
    + assert (Hdata : linked_has_data rt) by (apply has_data; by rewrite Hd).
      destruct (init_posted_iff_linked rt ext Hdata s) as (Hiff & _).
      cbv zeta in Hiff. unfold init. rewrite Hiff.
      split; [intros [Hm Hp]; by repeat split|by intros (Hm & Hp & _)].
    + split.
      * intros Hin. destruct (linked rt) eqn:Hl.
        -- by rewrite (run_without_data rt ext s Hl Hd) in Hin.
        -- destruct (init_posted_iff_linked rt ext (unlinked_has_data rt Hl) s)
             as (Hiff & _). cbv zeta in Hiff.
           apply Hiff in Hin. apply linked_spec in Hin. congruence.
      * intros (_ & _ & [? ?]). done.
  - intros port Hm Hp Hd.
    destruct (init_posted_iff_linked rt ext (has_data rt Hd) s) as (_ & H & _).
    exact (H port Hm Hp).
  - intros Hno.
    assert (Hl : linked rt = false).
    { destruct (linked rt) eqn:Hl; [|done]. apply linked_spec in Hl as [Hm [port Hp]].
      destruct Hno; congruence. }
    destruct (init_posted_iff_linked rt ext (unlinked_has_data rt Hl) s) as (_ & _ & H).
    exact (H Hno).
Qed.

Lemma init_posted_iff_ready_witness :
  isMainThread (spawned_worker []) = false
  ∧ parentPort (spawned_worker []) = Some (Port 1)
  ∧ is_Some (workerData (spawned_worker []))
  ∧ ∃ rest, trace (run_script (spawned_worker []) failing_externals CheckUpdates)
            = PostMessage (Port 1) (MsgInit 1 (VStr "CheckUpdates") true) :: rest.
Proof.
  split; [reflexivity|]. split; [reflexivity|]. split; [by eexists|].
  destruct (init_posted_iff_ready (spawned_worker []) failing_externals CheckUpdates)
    as (_ & H & _).
  destruct (H (Port 1) eq_refl eq_refl ltac:(by eexists)) as (rest & Hrest & _).
  exists rest. exact Hrest.
Defined.

(** C3, as stated, fails in a worker that has a parent port but was
    started without initial data: the thread is not the main thread and
    the link is present, yet no [init] is posted; the script throws. *)
Lemma no_init_without_data :
  isMainThread bare_worker = false
  ∧ is_Some (parentPort bare_worker)
  ∧ posted (trace (run_script bare_worker failing_externals CheckUpdates)) = []
  ∧ outcome (run_script bare_worker failing_externals CheckUpdates)
    = Throw (TypeError "threadName").
Proof. split; [done|]. split; [by eexists|]. split; reflexivity. Qed.

(** C9, as amended.  In each of the three worker scripts, in a thread
    that is not linked (the main thread, or a thread without parent port)
    or that has its initial data, [server.close()] is called exactly once:
    right after the [try]/[catch] statement has completed (with either
    value of [success]) and before any [exit] control message.  The server
    is created once, after the init block, so every [init] precedes its
    creation and every [exit] follows its closing; the script then
    returns.  In a worker that has a parent port but no initial data the
    script throws at its first statement: the server is never created and
    [server.close()] is never called. *)
Theorem server_closed_once_if_started (rt : Runtime) (ext : Externals) (s : Script) :
  (linked rt = false ∨ is_Some (workerData rt) →
   ∃ success before after,
     trace (run_script rt ext s) = before ++ ServerClose :: after
     ∧ closes (trace (run_script rt ext s)) = 1%nat
     ∧ outcome (script_guarded rt ext s) = Ok success
     ∧ (∃ pre, before = pre ++ trace (script_guarded rt ext s))
     ∧ List.filter is_exit (posted before) = []
     ∧ List.filter is_exit (posted after)
       = (if linked rt then [MsgExit (threadId rt) (workerData_threadName_opt rt) success]
          else [])
     ∧ (∃ b1 b2, before = b1 ++ ServerNew "matterbridge" :: b2
          ∧ List.filter is_open (b1 ++ b2 ++ after) = []
          ∧ List.filter is_init (posted (b2 ++ after)) = [])
     ∧ returns (run_script rt ext s))
  ∧ (linked rt = true → workerData rt = None →
     run_script rt ext s = ([], Throw (TypeError "threadName"))
     ∧ closes (trace (run_script rt ext s)) = 0%nat
     ∧ List.filter is_open (trace (run_script rt ext s)) = []).
Proof.
  split.
  - intros Hok. apply server_closed_once.
    destruct Hok as [Hl|Hd]; [by apply unlinked_has_data|by apply has_data].
  - intros Hl Hd. by rewrite (run_without_data rt ext s Hl Hd).
Qed.

Lemma server_closed_once_if_started_witness :
  linked main_thread = false
  ∧ closes (trace (run_script main_thread failing_externals SystemCheck)) = 1%nat.
Proof.
  split; [reflexivity|].
  destruct (server_closed_once_if_started main_thread failing_externals SystemCheck)
    as (H & _).
  destruct (H (or_introl eq_refl)) as (success & before & after & _ & Hcloses & _).
  exact Hcloses.
Defined.

(** C9, as stated, fails in a worker that has a parent port but was
    started without initial data: the script throws before the server is
    created, and [server.close()] is not called at all. *)
Lemma server_not_closed_without_data :
  closes (trace (run_script bare_worker failing_externals GlobalPrefix)) = 0%nat
  ∧ outcome (run_script bare_worker failing_externals GlobalPrefix)
    = Throw (TypeError "threadName").
Proof. split; reflexivity. Qed.

(** C4, as amended.  In a thread with an active link, the control
    messages of a run of any of the three scripts satisfy: [init] is
    posted at most once, and nothing is posted before it; [exit] is posted
    at most once; when no debug flag is set nothing follows [exit]; when
    one is set exactly one message follows [exit], the script's "exiting
    with success" [log] message.  When the thread has its initial data the
    sequence is [init] (with [success: true]), then [log] messages only,
    then one [exit], then that one [log] message if a debug flag is set;
    when it has not, the script throws at its first statement and posts
    nothing. *)
Theorem control_sequence_of_link (rt : Runtime) (ext : Externals) (s : Script) :
  linked rt = true →
  let msgs := posted (trace (run_script rt ext s)) in
  (length (List.filter is_init msgs) ≤ 1)%nat
  ∧ (∀ pre m post, msgs = pre ++ m :: post → is_init m = true → pre = [])
  ∧ (length (List.filter is_exit msgs) ≤ 1)%nat
  ∧ (debug rt = false → exit_is_last msgs)
  ∧ (debug rt = true →
     ∀ pre m post, msgs = pre ++ m :: post → is_exit m = true →
       ∃ success,
         m = MsgExit (threadId rt) (workerData_threadName_opt rt) success
         ∧ post = [MsgLog (threadId rt) (workerData_threadName_opt rt)
                     (Some (script_name s)) INFO (exiting_text rt success)])
  ∧ (is_Some (workerData rt) →
     ∃ success logs,
       msgs = MsgInit (threadId rt) (workerData_threadName_opt rt) true
              :: logs
              ++ MsgExit (threadId rt) (workerData_threadName_opt rt) success
              :: (if debug rt
                  then [MsgLog (threadId rt) (workerData_threadName_opt rt)
                          (Some (script_name s)) INFO (exiting_text rt success)]
                  else [])
       ∧ Forall (λ m, is_log m = true) logs)
  ∧ (workerData rt = None → msgs = [] ∧ throws (run_script rt ext s)).
Proof.
  intros Hl msgs. subst msgs.
  destruct (workerData rt) as [wd|] eqn:Hd.
  - assert (Hdata : linked_has_data rt) by (apply has_data; by rewrite Hd).
    destruct (control_sequence rt ext Hdata s Hl) as (success & logs & Hseq & Hlogs & Hlast).
    set (init := MsgInit (threadId rt) (workerData_threadName_opt rt) true) in *.
    set (exit := MsgExit (threadId rt) (workerData_threadName_opt rt) success) in *.
    set (tail := if debug rt
                 then [MsgLog (threadId rt) (workerData_threadName_opt rt)
                         (Some (script_name s)) INFO (exiting_text rt success)]
                 else []) in *.
    assert (Htail : Forall (λ m, is_log m = true) tail)
      by (subst tail; destruct (debug rt); by repeat constructor).
    assert (Hni : ∀ l, Forall (λ m, is_log m = true) l → Forall (λ m, is_init m = false) l).
    { intros l H. eapply Forall_impl; [exact H|]. by intros []. }
    assert (Hne : ∀ l, Forall (λ m, is_log m = true) l → Forall (λ m, is_exit m = false) l).
    { intros l H. eapply Forall_impl; [exact H|]. by intros []. }
    assert (Hfi : ∀ l, Forall (λ m, is_log m = true) l → List.filter is_init l = []).
    { intros l. induction 1 as [|m l Hm _ IH]; [done|]. cbn. by destruct m. }
    assert (Hfe : ∀ l, Forall (λ m, is_log m = true) l → List.filter is_exit l = []).
    { intros l. induction 1 as [|m l Hm _ IH]; [done|]. cbn. by destruct m. }
    rewrite Hseq. split; [|split; [|split; [|split; [|split; [|split]]]]].
    + cbn [List.filter is_init init]. rewrite List.filter_app, (Hfi _ Hlogs).
      cbn [List.filter is_init exit app]. rewrite (Hfi _ Htail). cbn. lia.
    + intros pre m post Heq Hm.
      destruct (unique_split is_init [] (logs ++ exit :: tail) pre post init m) as (-> & _);
        try done.
      apply Forall_app. split; [by apply Hni|]. constructor; [done|by apply Hni].
    + cbn [List.filter is_exit init]. rewrite List.filter_app, (Hfe _ Hlogs).
      cbn [List.filter is_exit exit app]. rewrite (Hfe _ Htail). cbn. lia.
    + intros Hdbg. rewrite <- Hseq. by apply Hlast.
    + intros Hdbg pre m post Heq Hm.
      destruct (unique_split is_exit (init :: logs) tail pre post exit m) as (_ & -> & ->);
        try done.
      { constructor; [done|by apply Hne]. }
      { by apply Hne. }
      exists success. split; [done|]. subst tail. by rewrite Hdbg.
    + intros _. by exists success, logs.
    + intros Hnone. done.
  - rewrite (run_without_data rt ext s Hl Hd). cbn.
    split; [lia|]. split; [by intros [|??] ???|]. split; [lia|].
    split; [by intros _ [|??] ???|]. split; [by intros _ [|??] ???|].
    split; [by intros [? ?]|]. intros _. split; [done|]. by eexists.
Qed.

Lemma control_sequence_of_link_witness :
  linked (spawned_worker []) = true
  ∧ debug (spawned_worker []) = false
  ∧ exit_is_last (posted (trace (run_script (spawned_worker []) failing_externals GlobalPrefix))).
Proof.
  split; [reflexivity|]. split; [reflexivity|].
  destruct (control_sequence_of_link (spawned_worker []) failing_externals GlobalPrefix eq_refl)
    as (_ & _ & _ & Hlast & _).
  apply Hlast. reflexivity.
Defined.

(** C2, as stated, fails for [workerSystemCheck]: under Node.js 21 its
    [try] block relays an error-level diagnostic before
    [os.networkInterfaces()] throws, so the run has two error-level relay
    calls, not one. *)
Lemma failure_after_error_diagnostic :
  outcome (script_task node21_worker failing_externals SystemCheck)
  = Throw (Error "uv_interface_addresses")
  ∧ error_relays (trace (run_script node21_worker failing_externals SystemCheck))
    = [(systemCheck_name, ERROR,
        "Node.js odd major versions are not supported. Please upgrade to Node.js LTS version (24.x).");
       (systemCheck_name, ERROR, "Failed to perform system check: inspected error")].
Proof. split; vm_compute; reflexivity. Qed.

(** ** worker.ts: the logger relay, the raw primitives, the spawn helper *)

(** C5, as amended.  [threadLogger] first writes its line to a logger
    created for the call and tagged with its [threadName] argument,
    whatever happens next, and it never ends in the link-unavailable error
    of [parentLog].  In a thread that is not linked or that has its
    initial data ([linked_has_data]) it never throws, and it posts one
    [log] control message (carrying the thread id, the worker's thread
    name, the [threadName] argument as [logName], the level and the
    message) exactly when the thread is not the main thread and has a
    parent port; otherwise it posts nothing.  In a linked thread without
    initial data it throws a [TypeError] after the local line, reading
    [workerData.threadName] for the message, and posts nothing. *)
Theorem threadLogger_dual_sink (rt : Runtime) (threadName : string)
    (level : LogLevel) (message : string) :
  let r := threadLogger rt threadName level message in
  (∃ rest, trace r = LoggerLog threadName level message :: rest ∧ relay_calls rest = [])
  ∧ (∀ text, outcome r ≠ Throw (Error text))
  ∧ (linked_has_data rt →
       returns r
       ∧ posted (trace r) =
           if negb (isMainThread rt) && bool_decide (is_Some (parentPort rt))
           then [MsgLog (threadId rt) (workerData_threadName_opt rt)
                   (Some threadName) level message]
           else [])
  ∧ (linked rt = true → workerData rt = None →
       r = ([LoggerLog threadName level message], Throw (TypeError "threadName"))).
Proof.
  intros r. subst r. split; [|split; [|split]]; cycle 3.
  { intros Hl Hd. unfold threadLogger, parentLog, workerData_threadName.
    rewrite Hl. destruct (linked_port rt Hl) as [port ->]. by rewrite Hd. }
  - unfold threadLogger, parentLog, workerData_threadName.
    destruct (linked rt), (parentPort rt), (workerData rt), (debug rt);
      eexists; split; reflexivity.
  - intros text. unfold threadLogger, linked, parentLog, workerData_threadName.
    destruct (isMainThread rt), (parentPort rt) as [port|], (workerData rt), (debug rt);
      discriminate.
  - intros Hdata. rewrite (threadLogger_eq rt Hdata). split; [by exists ()|].
    unfold trace. cbn [fst]. unfold threadLogger_trace. fold (linked rt).
    destruct (linked rt) eqn:Hl.
    + destruct (linked_port rt Hl) as [port ->].
      change (posted (LoggerLog ?a ?b ?c :: ?l)) with (posted l).
      apply posted_parentLog_trace.
    + by destruct (parentPort rt).
Qed.

Lemma threadLogger_dual_sink_witness :
  linked_has_data (spawned_worker [])
  ∧ posted (trace (threadLogger (spawned_worker []) "T" INFO "hi"))
    = [MsgLog 1 (VStr "CheckUpdates") (Some "T") INFO "hi"].
Proof.
  split; [apply spawned_worker_data|].
  destruct (threadLogger_dual_sink (spawned_worker []) "T" INFO "hi") as (_ & _ & H & _).
  destruct (H (spawned_worker_data [])) as [_ Hposted]. exact Hposted.
Defined.

(** C5, as stated, fails in a worker that has a parent port but was
    started without initial data: [parentLog] reads
    [workerData.threadName] and [threadLogger] throws, after its local
    line and before anything is posted. *)
Lemma threadLogger_without_data :
  linked bare_worker = true
  ∧ threadLogger bare_worker "T" INFO "hi"
    = ([LoggerLog "T" INFO "hi"], Throw (TypeError "threadName")).
Proof. split; reflexivity. Qed.

(** C6, evaluated on the main thread.  There the parent port is [null] and
    so is [workerData]: building the text of the link-unavailable error
    reads [workerData.threadName], and that read throws first.  Both
    primitives end in a [TypeError]; the explicit
    "parentPort is not available" error is never constructed. *)
Theorem primitives_on_main_thread (ext : Externals) :
  (∀ message,
     parentPost main_thread ext message = ([], Throw (TypeError "threadName")))
  ∧ (∀ logName logLevel message,
     parentLog main_thread logName logLevel message = ([], Throw (TypeError "threadName")))
  ∧ (∀ message text, outcome (parentPost main_thread ext message) ≠ Throw (Error text)).
Proof. split; [|split]; intros; cbv; congruence. Qed.

(** The same in any thread without parent port and without initial data. *)
Lemma primitives_throw_TypeError (rt : Runtime) (ext : Externals) :
  parentPort rt = None → workerData rt = None →
  (∀ message, parentPost rt ext message = ([], Throw (TypeError "threadName")))
  ∧ (∀ logName logLevel message,
       parentLog rt logName logLevel message = ([], Throw (TypeError "threadName"))).
Proof.
  intros Hp Hd. split; intros; unfold parentPost, parentLog, workerData_threadName;
    by rewrite Hp, Hd.
Qed.

(** C10.  Without a parent port both primitives throw, and they throw
    before any effect: nothing is posted, nothing is logged.  And in a
    thread that has initial data this is their only way to throw: a call
    that throws there had no parent port, so it posted nothing. *)
Theorem primitives_fail_before_posting (rt : Runtime) (ext : Externals) :
  (parentPort rt = None →
     (∀ message,
        throws (parentPost rt ext message) ∧ trace (parentPost rt ext message) = [])
     ∧ (∀ logName logLevel message,
          throws (parentLog rt logName logLevel message)
          ∧ trace (parentLog rt logName logLevel message) = []))
  ∧ (is_Some (workerData rt) →
     (∀ message,
        throws (parentPost rt ext message) → posted (trace (parentPost rt ext message)) = [])
     ∧ (∀ logName logLevel message,
          throws (parentLog rt logName logLevel message) →
          posted (trace (parentLog rt logName logLevel message)) = [])).
Proof.
  split.
  - intros Hp. split; intros; unfold parentPost, parentLog, workerData_threadName, throws;
      rewrite Hp; destruct (workerData rt); split; try reflexivity; by eexists.
  - intros Hd. destruct (parentPort rt) as [port|] eqn:Hp.
    + split; intros; [rewrite (parentPost_linked rt ext port _ Hp Hd) in *
                     | rewrite (parentLog_linked rt port _ _ _ Hp Hd) in *];
        by destruct H as [e He].
    + destruct (primitives_throw_link_error rt ext Hp Hd) as [Hpost Hlog].
      split; intros; by rewrite ?Hpost, ?Hlog.
Qed.

Lemma primitives_fail_before_posting_witness :
  parentPort main_thread = None
  ∧ trace (parentPost main_thread failing_externals (MsgInit 0 VUndefined true)) = [].
Proof.
  split; [reflexivity|].
  destruct (primitives_fail_before_posting main_thread failing_externals) as [H _].
  destruct (H eq_refl) as [Hpost _].
  exact (proj2 (Hpost (MsgInit 0 VUndefined true))).
Defined.

(** C7.  [createESMWorker] creates exactly one worker and returns it.  Its
    initial data is the given data with [threadName] set to [name] (every
    other key as given, none when no data is given); [argv] is the
    argument when given and otherwise [process.argv] without its first two
    entries; [env] is the argument when given and otherwise [process.env];
    [execArgv] is passed as given, so none when omitted; [stdout] and
    [stderr] are both [true] exactly when [pipedOutput] is [true]. *)
Theorem createESMWorker_options (rt : Runtime) (ext : Externals)
    (name relativePath : string) (data : option (gmap string value))
    (argv : option (list string)) (env : option (gmap string string))
    (execArgv : option (list string)) (pipedOutput : option bool) :
  let r := createESMWorker rt ext name relativePath data argv env execArgv pipedOutput in
  ∃ w, outcome r = Ok w
    ∧ created (trace r) = [w]
    ∧ worker_url w = pathToFileURL ext relativePath
    ∧ let o := worker_options w in
      opt_workerData o = <["threadName" := VStr name]> (default ∅ data)
      ∧ opt_workerData o !! "threadName" = Some (VStr name)
      ∧ (∀ key, key ≠ "threadName" → opt_workerData o !! key = default ∅ data !! key)
      ∧ opt_type o = "module"
      ∧ opt_name o = name
      ∧ opt_argv o = match argv with
                     | Some given => given
                     | None => drop 2 (process_argv rt)
                     end
      ∧ opt_env o = match env with Some given => given | None => process_env rt end
      ∧ opt_execArgv o = execArgv
      ∧ (opt_stdout o = true ↔ pipedOutput = Some true)
      ∧ (opt_stderr o = true ↔ pipedOutput = Some true).
Proof.
  intros r. subst r. unfold createESMWorker. eexists. split.
  { destruct (verbose rt); reflexivity. }
  split. { destruct (verbose rt); reflexivity. }
  split; [reflexivity|]. cbn [worker_options opt_workerData opt_type opt_name opt_argv
    opt_env opt_execArgv opt_stdout opt_stderr].
  split; [reflexivity|]. split; [apply lookup_insert_eq|].
  split; [intros key Hkey; by rewrite lookup_insert_ne|].
  split; [reflexivity|]. split; [reflexivity|].
  split; [by destruct argv|]. split; [by destruct env|]. split; [reflexivity|].
  destruct pipedOutput as [[]|]; cbn; split; split; congruence.
Qed.

(** Every worker the helper creates satisfies [linked_has_data]: a thread
    whose initial data is what [createESMWorker] passed has its data, and
    reads the name it was given as [workerData.threadName]. *)
Lemma created_worker_has_data (rt : Runtime) (ext : Externals)
    (name relativePath : string) (data : option (gmap string value))
    (argv : option (list string)) (env : option (gmap string string))
    (execArgv : option (list string)) (pipedOutput : option bool)
    (w : Worker) (inside : Runtime) :
  outcome (createESMWorker rt ext name relativePath data argv env execArgv pipedOutput)
    = Ok w →
  workerData inside = Some (opt_workerData (worker_options w)) →
  linked_has_data inside
  ∧ workerData_threadName inside = ([], Ok (VStr name)).
Proof.
  intros Hw Hinside. split; [intros _; by eexists|].
  unfold workerData_threadName. rewrite Hinside.
  unfold createESMWorker in Hw. destruct (verbose rt); injection Hw as <-;
    cbn [worker_options opt_workerData]; by rewrite lookup_insert_eq.
Qed.

(** The defaults, on the main thread of the examples (whose [process.argv]
    is [node script --x 1]): [createESMWorker('N', './worker.js')]. *)
Example createESMWorker_defaults :
  ∃ w, outcome (createESMWorker main_thread failing_externals
                  "N" "./worker.js" None None None None None) = Ok w
    ∧ opt_workerData (worker_options w) = {[ "threadName" := VStr "N" ]}
    ∧ opt_argv (worker_options w) = ["--x"; "1"]
    ∧ opt_env (worker_options w) = process_env main_thread
    ∧ opt_execArgv (worker_options w) = None
    ∧ opt_stdout (worker_options w) = false
    ∧ opt_stderr (worker_options w) = false.
Proof. eexists. repeat split. Qed.

(** ** The broadcast bus: correlated calls *)

Module BusFacts.
Import BroadcastServer.





Lemma elapse_listener bus ms id :
  listeners (elapse bus ms) !! id =
  match listeners bus !! id with
  | Some deadline => if bool_decide (clock bus + ms < deadline)%N then Some deadline else None
  | None => None
  end.
Proof.
  unfold elapse. cbn. destruct (listeners bus !! id) as [deadline|] eqn:Hl.
  - case_bool_decide as Hlt.
    + apply map_lookup_filter_Some. done.
    + apply map_lookup_filter_None. right. intros d Hd. simplify_eq. done.
  - apply map_lookup_filter_None. by left.
Qed.

Lemma elapse_promise bus ms id :
  promises (elapse bus ms) !! id =
  match listeners bus !! id with
  | Some deadline =>
      if bool_decide (deadline ≤ clock bus + ms)%N then Some (Rejected Timeout)
      else promises bus !! id
  | None => promises bus !! id
  end.
Proof.
  unfold elapse. cbn. destruct (listeners bus !! id) as [deadline|] eqn:Hl.
  - case_bool_decide as Hle.
    + apply lookup_union_Some_l. rewrite lookup_fmap.
      erewrite (proj2 (map_lookup_filter_Some _ _ _ _)); [done|]. done.
    + rewrite lookup_union_r; [done|]. rewrite lookup_fmap.
      erewrite (proj2 (map_lookup_filter_None _ _ _)); [done|].
      right. intros d Hd. simplify_eq. done.
  - rewrite lookup_union_r; [done|]. rewrite lookup_fmap.
    erewrite (proj2 (map_lookup_filter_None _ _ _)); [done|]. by left.
Qed.








(** Ids stay fresh: a bus that is opened and then only fetches, responds,
    receives and waits never reuses a correlation id. *)
Lemma fresh_ids_preserved bus :
  fresh_ids bus →
  (∀ envelope timeoutMs, fresh_ids (fetch bus envelope timeoutMs).2)
  ∧ (∀ request result success, fresh_ids (respond bus request result success))
  ∧ (∀ steps, fresh_ids (run bus steps)).
Proof.
  intros Hfresh. split; [|split].
  - intros envelope timeoutMs id. cbn. intros [Hl|Hp].
    + destruct (decide (next_id bus = id)) as [<-|Hne]; [lia|].
      rewrite lookup_insert_ne in Hl by done. specialize (Hfresh id (or_introl Hl)). lia.
    + specialize (Hfresh id (or_intror Hp)). lia.
  - intros request result success id. apply Hfresh.
  - intros steps. revert bus Hfresh.
    induction steps as [|[envelope|ms] steps IH]; intros bus Hfresh; [done| |];
      apply IH; intros id; cbn [step].
    + unfold receive. destruct (env_id envelope) as [j|]; [|apply Hfresh].
      case_match eqn:Hc; [|apply Hfresh]. cbn.
      apply andb_prop in Hc as [Hj%bool_decide_eq_true _].
      destruct (decide (j = id)) as [->|Hne].
      * intros _. apply Hfresh. by left.
      * rewrite lookup_delete_ne, lookup_insert_ne by done. apply Hfresh.
    + rewrite elapse_listener, elapse_promise. cbn.
      destruct (listeners bus !! id) as [deadline|] eqn:Hl.
      * intros _. apply Hfresh. left. by eexists.
      * intros [[? ?]|Hp]; [done|]. apply Hfresh. by right.
Qed.

(** C8.  [respond] publishes one envelope: [type] and [id] are those of
    the request, [src] is the request's [dst] and [dst] its [src], and it
    carries the given [result] and the given [success] (none when none is
    given).  It therefore answers the [fetch] that stamped the request. *)
Theorem respond_swaps_endpoints (bus : Bus) (requestEnvelope : Envelope)
    (result : gmap string value) (success : option bool) :
  ∃ response,
    outbox (respond bus requestEnvelope result success) = outbox bus ++ [response]
    ∧ env_type response = env_type requestEnvelope
    ∧ env_id response = env_id requestEnvelope
    ∧ env_src response = env_dst requestEnvelope
    ∧ env_dst response = env_src requestEnvelope
    ∧ env_result response = Some result
    ∧ env_success response = success
    ∧ (∀ id, env_id requestEnvelope = Some id → answers id response = true).
Proof.
  eexists. split; [reflexivity|]. repeat split.
  intros id Hid. unfold answers. cbn. rewrite Hid.
  rewrite !bool_decide_eq_true_2; by eauto.
Qed.

End BusFacts.



(** ** The worker scripts: what the [try] blocks do *)

Section runs.
Context (rt : Runtime) (ext : Externals).
Hypothesis Hdata : linked_has_data rt.

Lemma threadLogger_trace_plumbing n l m :
  Forall (λ ev, plumbing ev = true) (threadLogger_trace rt n l m).
Proof.
  unfold threadLogger_trace, parentLog_trace.
  destruct (parentPort rt), (linked rt), (debug rt); by repeat constructor.
Qed.

Lemma send_init_trace_plumbing name :
  Forall (λ ev, plumbing ev = true) (send_init_trace rt ext name).
Proof.
  unfold send_init_trace, parentPost_trace, parentLog_trace.
  destruct (parentPort rt), (linked rt), (debug rt); by repeat constructor.
Qed.

Lemma send_exit_trace_plumbing name success :
  Forall (λ ev, plumbing ev = true) (send_exit_trace rt ext name success).
Proof.
  unfold send_exit_trace, parentPost_trace, parentLog_trace.
  destruct (parentPort rt), (linked rt), (debug rt); by repeat constructor.
Qed.

Lemma script_prologue_plumbing s :
  Forall (λ ev, plumbing ev = true) (script_prologue rt ext s).
Proof.
  unfold script_prologue. constructor; [done|]. apply Forall_app. split.
  - destruct (verbose rt); by repeat constructor.
  - apply threadLogger_trace_plumbing.
Qed.

Lemma omap_plumbing {B} (f : Event → option B) (t : list Event) :
  (∀ ev, plumbing ev = true → f ev = None) →
  Forall (λ ev, plumbing ev = true) t → omap f t = [].
Proof.
  intros Hf. induction 1 as [|ev t Hev _ IH]; [done|]. cbn. by rewrite (Hf ev Hev).
Qed.

(** What a run shows of the data plane and of the collaborators is what
    its [try] block shows. *)
Lemma run_observation {B} (f : Event → option B) s :
  (∀ ev, plumbing ev = true → f ev = None) →
  omap f (trace (run_script rt ext s)) = omap f (trace (script_task rt ext s)).
Proof.
  intros Hf.
  destruct (script_guarded_returns rt ext Hdata s) as (success & Hg & _).
  rewrite (run_script_eq rt ext Hdata s success Hg). unfold trace at 1. cbn [fst].
  rewrite !omap_app.
  rewrite (omap_plumbing f _ Hf (send_init_trace_plumbing _)).
  rewrite (omap_plumbing f _ Hf (script_prologue_plumbing _)).
  change (ServerClose :: ?l) with ([ServerClose] ++ l). rewrite omap_app.
  rewrite (omap_plumbing f _ Hf (send_exit_trace_plumbing _ _)).
  rewrite (omap_plumbing f [ServerClose] Hf) by by repeat constructor.
  rewrite app_nil_r. cbn [app].
  rewrite (script_guarded_eq rt ext Hdata s).
  destruct (outcome (script_task rt ext s)) as [[]|e]; [done|].
  unfold trace at 1. cbn [fst]. rewrite omap_app.
  rewrite (omap_plumbing f (CallInspectError _ _ :: _) Hf), app_nil_r; [done|].
  constructor; [done|]. apply threadLogger_trace_plumbing.
Qed.

(** The [exit] message of a run says whether the [try] block completed. *)
Lemma exit_posted s :
  ∃ success,
    (success = true ↔ returns (script_task rt ext s))
    ∧ List.filter is_exit (posted (trace (run_script rt ext s)))
      = (if linked rt then [MsgExit (threadId rt) (workerData_threadName_opt rt) success]
         else []).
Proof.
  destruct (run_script_split rt ext Hdata s) as (success & middle & Hg & Hrun & Hmid & _).
  destruct (script_guarded_returns rt ext Hdata s) as (success' & Hg' & Hiff).
  rewrite Hg in Hg'. injection Hg' as <-.
  exists success. split; [done|].
  apply (task_events_quiet rt) in Hmid as (_ & _ & _ & Hme & _).
  rewrite Hrun. unfold trace. cbn [fst].
  rewrite posted_app, posted_ServerNew, posted_app, posted_ServerClose.
  rewrite !List.filter_app, Hme, (posted_send_init rt ext), (posted_send_exit rt ext).
  by destruct (linked rt), (debug rt).
Qed.

End runs.

Section system_check.
Context (rt : Runtime) (ext : Externals).
Hypothesis Hdata : linked_has_data rt.

Lemma ret_bind {A B} (a : A) (f : A → M B) : mret a ≫= f = f a.
Proof. unfold mbind, M_bind, mret, M_ret. cbn. by destruct (f a). Qed.

Lemma when_threadLogger_eq (b : bool) n l m :
  (if b then threadLogger rt n l m else mret ())
  = ((if b then threadLogger_trace rt n l m else []), Ok ()).
Proof. destruct b; [apply (threadLogger_eq rt Hdata)|done]. Qed.

Lemma relay_calls_when (b : bool) n l m :
  relay_calls (if b then threadLogger_trace rt n l m else [])
  = if b then [(n, l, m)] else [].
Proof. destruct b; [apply relay_calls_threadLogger_trace|done]. Qed.

Lemma scan_detail_flags (details : list InterfaceDetail) : ∀ f,
  let f' := foldl scan_detail f details in
  foundInternal f' = foundInternal f || existsb internal details
  ∧ foundExternal f' = foundExternal f || existsb (λ d, negb (internal d)) details
  ∧ foundIpv4 f' = foundIpv4 f
      || existsb (λ d, String.eqb (family d) "IPv4" && negb (internal d)) details
  ∧ foundIpv6 f' = foundIpv6 f
      || existsb (λ d, String.eqb (family d) "IPv6" && negb (internal d)) details.
Proof.
  induction details as [|d details IH]; intros f; cbn [foldl existsb].
  - by rewrite !orb_false_r.
  - destruct (IH (scan_detail f d)) as (H1 & H2 & H3 & H4).
    cbn zeta in *. rewrite H1, H2, H3, H4. cbn [scan_detail foundInternal foundExternal
      foundIpv4 foundIpv6].
    destruct (internal d), (foundInternal f), (foundExternal f), (foundIpv4 f),
      (foundIpv6 f), (String.eqb (family d) "IPv4"), (String.eqb (family d) "IPv6");
      done.
Qed.

Lemma scan_interfaces_eq shared entries : ∀ f,
  ∃ t, scan_interfaces rt ext shared entries f
       = (t, Ok (foldl scan_detail f (considered ext entries)))
    ∧ relay_calls t
      = (if mdns_truthy shared then []
         else map (λ n, (systemCheck_name, WARN, warn_text n)) (excluded_names ext entries))
    ∧ Forall (λ ev, task_event rt ev = true) t.
Proof.
  induction entries as [|[interfaceName interfaceDetails] rest IH]; intros f.
  - exists []. split; [done|]. split; [by destruct (mdns_truthy shared)|done].
  - cbn [scan_interfaces]. unfold considered, excluded_names.
    cbn [flat_map map List.filter fst snd].
    fold (considered ext rest). fold (excluded_names ext rest).
    destruct (excludedInterfaceName ext interfaceName) eqn:Hex.
    + destruct (IH f) as (t & Ht & Hr & Hev).
      rewrite when_threadLogger_eq, bind_ok, Ht. cbn [fst snd app].
      eexists. split; [reflexivity|]. split.
      * rewrite relay_calls_app, relay_calls_when, Hr.
        by destruct (mdns_truthy shared).
      * apply Forall_app. split; [|done].
        destruct (negb (mdns_truthy shared) && true); [|done].
        apply (threadLogger_trace_task rt).
    + destruct (IH (foldl scan_detail f (default [] interfaceDetails))) as (t & Ht & Hr & Hev).
      rewrite andb_false_r. cbn [app]. rewrite foldl_app.
      rewrite ret_bind, Ht.
      eexists. split; [reflexivity|]. by split.
Qed.


Lemma error_relays_when (b : bool) n l m :
  error_relays (if b then threadLogger_trace rt n l m else [])
  = if b && is_error_call (n, l, m) then [(n, l, m)] else [].
Proof.
  unfold error_relays. rewrite relay_calls_when. destruct b; [|done]. cbn.
  by destruct (is_error_call (n, l, m)).
Qed.

Lemma error_relays_cons_quiet ev t :
  relay_calls [ev] = [] → error_relays (ev :: t) = error_relays t.
Proof.
  intros Hq. change (ev :: t) with ([ev] ++ t).
  by rewrite error_relays_app, (error_relays_quiet _ Hq).
Qed.

Lemma systemCheck_task_eq response entries :
  server_fetch ext shared_request 1000 = Ok response →
  os_networkInterfaces ext = Ok entries →
  ∃ t, systemCheck_task rt ext = (t, Ok ())
    ∧ error_relays t
      = map (λ m, (systemCheck_name, ERROR, m))
          ((if env_truthy rt "NVM_BIN" && env_truthy rt "NVM_DIR" then [nvm_text] else [])
           ++ node_errors rt
           ++ network_errors (foldl scan_detail nothing_found (considered ext entries))).
Proof.
  intros Hfetch Hnet. unfold systemCheck_task, node_errors. rewrite Hfetch, Hnet.
  destruct (node_version rt) as [[major minor] patch].
  destruct (scan_interfaces_eq (data (result response)) entries nothing_found)
    as (tscan & Hscan & Hwarn & _).
  eexists. split.
  { eapply bind_eq; [reflexivity|]. cbv zeta.
    eapply bind_eq; [apply when_threadLogger_eq|].
    eapply bind_eq; [apply (threadLogger_eq rt Hdata)|].
    eapply bind_eq; [apply when_threadLogger_eq|].
    eapply bind_eq; [apply when_threadLogger_eq|].
    eapply bind_eq; [apply when_threadLogger_eq|].
    eapply bind_eq; [apply when_threadLogger_eq|].
    eapply bind_eq; [reflexivity|].
    eapply bind_eq; [apply Hscan|].
    eapply bind_eq; [apply when_threadLogger_eq|].
    eapply bind_eq; [apply when_threadLogger_eq|].
    eapply bind_eq; [apply when_threadLogger_eq|].
    eapply bind_eq; [apply when_threadLogger_eq|].
    apply (threadLogger_eq rt Hdata). }
  assert (Hscan_err : error_relays tscan = []).
  { unfold error_relays. rewrite Hwarn. clear Hwarn. destruct (mdns_truthy _); [done|].
    induction (excluded_names ext entries) as [|n l IH]; [done|]. exact IH. }
  set (found := foldl scan_detail nothing_found (considered ext entries)).
  cbn [app]. rewrite error_relays_cons_quiet by done.
  rewrite !error_relays_app, !error_relays_when.
  rewrite error_relays_cons_quiet by done.
  rewrite !error_relays_app, !error_relays_when, Hscan_err.
  unfold error_relays at 1 2. rewrite !relay_calls_threadLogger_trace.
  cbn [List.filter is_error_call fst snd app].
  rewrite !andb_true_r, andb_false_r. unfold network_errors. rewrite !map_app.
  destruct (env_truthy rt "NVM_BIN" && env_truthy rt "NVM_DIR"),
    ((major =? 20)%Z && (minor <? 19)%Z), ((major =? 22)%Z && (minor <? 13)%Z),
    ((major =? 21)%Z || (major =? 23)%Z || (major =? 25)%Z);
    cbn [map app];
    destruct (foundInternal found), (foundExternal found), (foundIpv4 found),
      (foundIpv6 found); reflexivity.
Qed.


Lemma elem_of_considered entries (d : InterfaceDetail) :
  d ∈ considered ext entries ↔ seen ext entries (λ d', d' = d).
Proof.
  unfold considered, seen. rewrite list_elem_of_In, in_flat_map. split.
  - intros ([name details] & Hin & Hd). cbn in Hd.
    destruct (excludedInterfaceName ext name) eqn:Hex; [by destruct Hd|].
    destruct details as [details|]; [|by destruct Hd].
    exists name, details, d. rewrite !list_elem_of_In. done.
  - intros (name & details & d' & Hin & Hex & Hd & ->).
    exists (name, Some details). rewrite <- !list_elem_of_In. cbn. by rewrite Hex.
Qed.

Lemma existsb_considered entries (p : InterfaceDetail → bool) :
  existsb p (considered ext entries) = true ↔ seen ext entries (λ d, p d = true).
Proof.
  rewrite existsb_exists. split.
  - intros (d & Hin & Hp). apply list_elem_of_In, elem_of_considered in Hin.
    destruct Hin as (name & details & d' & ? & ? & ? & ->). by exists name, details, d.
  - intros (name & details & d & Hin & Hex & Hd & Hp). exists d. split; [|done].
    apply list_elem_of_In, elem_of_considered. by exists name, details, d.
Qed.

Lemma considered_flags entries :
  let found := foldl scan_detail nothing_found (considered ext entries) in
  (foundInternal found = true ↔ seen ext entries (λ d, internal d = true))
  ∧ (foundExternal found = true ↔ seen ext entries (λ d, internal d = false))
  ∧ (foundIpv4 found = true
     ↔ seen ext entries (λ d, family d = "IPv4" ∧ internal d = false))
  ∧ (foundIpv6 found = true
     ↔ seen ext entries (λ d, family d = "IPv6" ∧ internal d = false)).
Proof.
  destruct (scan_detail_flags (considered ext entries) nothing_found) as (H1 & H2 & H3 & H4).
  cbn zeta in *. rewrite H1, H2, H3, H4. cbn [nothing_found foundInternal foundExternal
    foundIpv4 foundIpv6 orb]. rewrite !existsb_considered.
  split; [done|]. split.
  { split; intros (n & ds & d & ? & ? & ? & Hd); exists n, ds, d; repeat split; try done.
    - by apply negb_true_iff.
    - by apply negb_true_iff. }
  split.
  - split; intros (n & ds & d & ? & ? & ? & Hd); exists n, ds, d; repeat split; try done.
    + apply andb_prop in Hd as [Hd _]. by apply String.eqb_eq.
    + apply andb_prop in Hd as [_ Hd]. by apply negb_true_iff.
    + destruct Hd as [-> ->]. done.
  - split; intros (n & ds & d & ? & ? & ? & Hd); exists n, ds, d; repeat split; try done.
    + apply andb_prop in Hd as [Hd _]. by apply String.eqb_eq.
    + apply andb_prop in Hd as [_ Hd]. by apply negb_true_iff.
    + destruct Hd as [-> ->]. done.
Qed.

(** X5.  The interface loop of [workerSystemCheck] (with initial data present
    when linked): it always completes; a flag is set exactly when some
    detail of a non-excluded interface qualifies (internal; not internal;
    IPv4 and not internal; IPv6 and not internal), so excluded interfaces
    and interfaces without details never count; and it relays one warning
    per excluded interface name, in order, unless [mdnsInterface] is set,
    and nothing else. *)
Theorem scan_interfaces_found (shared : Shared)
    (entries : list (string * option (list InterfaceDetail))) :
  ∃ t found,
    scan_interfaces rt ext shared entries nothing_found = (t, Ok found)
    ∧ (foundInternal found = true ↔ seen ext entries (λ d, internal d = true))
    ∧ (foundExternal found = true ↔ seen ext entries (λ d, internal d = false))
    ∧ (foundIpv4 found = true
       ↔ seen ext entries (λ d, family d = "IPv4" ∧ internal d = false))
    ∧ (foundIpv6 found = true
       ↔ seen ext entries (λ d, family d = "IPv6" ∧ internal d = false))
    ∧ relay_calls t
      = (if mdns_truthy shared then []
         else map (λ n, (systemCheck_name, WARN, warn_text n)) (excluded_names ext entries)).
Proof.
  destruct (scan_interfaces_eq shared entries nothing_found) as (t & Ht & Hwarn & _).
  destruct (considered_flags entries) as (H1 & H2 & H3 & H4).
  exists t, (foldl scan_detail nothing_found (considered ext entries)).
  done.
Qed.

End system_check.

(** ** The worker scripts, start to end *)

Section verdicts.
Context (rt : Runtime) (ext : Externals).
Hypothesis Hdata : linked_has_data rt.

Lemma relay_calls_run s :
  relay_calls (trace (run_script rt ext s))
  = (script_name s, INFO, script_start s)
    :: relay_calls (trace (script_task rt ext s))
    ++ match outcome (script_task rt ext s) with
       | Ok _ => []
       | Throw e => [(script_name s, ERROR, inspectError ext (script_failure s) e)]
       end.
Proof.
  destruct (script_guarded_returns rt ext Hdata s) as (success & Hg & _).
  rewrite (run_script_eq rt ext Hdata s success Hg). unfold trace at 1. cbn [fst].
  destruct (send_init_quiet rt ext (script_name s)) as (_ & Hi & _).
  destruct (send_exit_quiet rt ext (script_name s) success) as (_ & He & _).
  rewrite !relay_calls_app, Hi. change (ServerClose :: ?l) with ([ServerClose] ++ l).
  rewrite relay_calls_app, He. unfold script_prologue.
  change (ServerNew ?c :: ?l) with ([ServerNew c] ++ l).
  rewrite !relay_calls_app, relay_calls_threadLogger_trace.
  replace (relay_calls (if verbose rt then _ else [])) with (@nil (string * LogLevel * string))
    by by destruct (verbose rt).
  cbn [app relay_calls omap]. rewrite app_nil_r. f_equal.
  rewrite (script_guarded_eq rt ext Hdata s).
  destruct (outcome (script_task rt ext s)) as [[]|e]; [by rewrite app_nil_r|].
  unfold trace at 1. cbn [fst]. rewrite relay_calls_app. f_equal.
  change (CallInspectError ?a ?b :: ?l) with ([CallInspectError a b] ++ l).
  by rewrite relay_calls_app, relay_calls_threadLogger_trace.
Qed.

(** X1.  [workerCheckUpdates], start to end: it fetches the shared state once,
    with a timeout of one second; it calls [checkUpdates] exactly when
    the fetch answered, once, with the data of the answer; it relays its
    start line and then either its success line or the inspected error;
    and its [exit] message says [success: true] exactly when both the
    fetch and [checkUpdates] completed.  It never sends a request of its
    own on the bus. *)
Theorem checkUpdates_run :
  let t := trace (run_script rt ext CheckUpdates) in
  let fetched := server_fetch ext shared_request 1000 in
  let verdict : Outcome unit :=
    match fetched with
    | Ok response => checkUpdates ext (data (result response))
    | Throw e => Throw e
    end in
  fetches t = [(shared_request, 1000)]
  ∧ requests t = []
  ∧ check_calls t
    = match fetched with Ok response => [data (result response)] | Throw _ => [] end
  ∧ relay_calls t
    = [(checkUpdates_name, INFO, "Starting check updates...");
       match verdict with
       | Ok _ => (checkUpdates_name, INFO, "Check updates succeeded")
       | Throw e => (checkUpdates_name, ERROR, inspectError ext "Failed to check updates" e)
       end]
  ∧ List.filter is_exit (posted t)
    = (if linked rt
       then [MsgExit (threadId rt) (workerData_threadName_opt rt)
               match verdict with Ok _ => true | Throw _ => false end]
       else []).
Proof.
  intros t fetched verdict. subst t.
  destruct (exit_posted rt ext Hdata CheckUpdates) as (success & Hiff & Hexit).
  rewrite Hexit, relay_calls_run. unfold fetches, requests, check_calls.
  rewrite !(run_observation rt ext Hdata) by (by intros []).
  assert (Htask : script_task rt ext CheckUpdates
    = match fetched with
      | Ok response =>
          match checkUpdates ext (data (result response)) with
          | Ok _ => ([ServerFetch shared_request 1000;
                      CallCheckUpdates (data (result response))]
                     ++ threadLogger_trace rt checkUpdates_name INFO "Check updates succeeded",
                     Ok ())
          | Throw e => ([ServerFetch shared_request 1000;
                         CallCheckUpdates (data (result response))], Throw e)
          end
      | Throw e => ([ServerFetch shared_request 1000], Throw e)
      end).
  { cbn [script_task]. unfold checkUpdates_task. subst fetched.
    destruct (server_fetch ext shared_request 1000) as [response|e]; [|done].
    cbn -[threadLogger threadLogger_trace].
    destruct (checkUpdates ext (data (result response))) as [[]|e]; [|done].
    cbn -[threadLogger threadLogger_trace]. by rewrite (threadLogger_eq rt Hdata). }
  unfold returns in Hiff. rewrite Htask in *. subst verdict.
  destruct fetched as [response|e].
  - destruct (checkUpdates ext (data (result response))) as [[]|e];
      unfold trace, outcome in *; cbn [fst snd] in *.
    + assert (success = true) as -> by (apply Hiff; by eexists).
      rewrite !omap_app, relay_calls_app, relay_calls_threadLogger_trace.
      rewrite !(omap_plumbing _ (threadLogger_trace rt _ _ _))
        by first [by intros [] | apply threadLogger_trace_plumbing].
      done.
    + assert (success = false) as ->.
      { destruct success; [|done]. destruct (proj1 Hiff eq_refl) as [? ?]. done. }
      done.
  - unfold trace, outcome in *; cbn [fst snd] in *.
    assert (success = false) as ->.
    { destruct success; [|done]. destruct (proj1 Hiff eq_refl) as [? ?]. done. }
    done.
Qed.


(** X2.  [workerGlobalPrefix], start to end: it publishes the prefix request
    exactly when [getGlobalNodeModules] completed, once, carrying the
    prefix it got; it relays its start line and then either the prefix
    or the inspected error; its [exit] message says [success: true]
    exactly when both [getGlobalNodeModules] and the request completed.
    It never fetches and never calls [checkUpdates]. *)
Theorem globalPrefix_run :
  let t := trace (run_script rt ext GlobalPrefix) in
  let found := getGlobalNodeModules ext in
  let verdict : Outcome string :=
    match found with
    | Ok prefix =>
        match server_request ext (global_prefix_request prefix) with
        | Ok _ => Ok prefix
        | Throw e => Throw e
        end
    | Throw e => Throw e
    end in
  requests t
  = match found with Ok prefix => [global_prefix_request prefix] | Throw _ => [] end
  ∧ fetches t = []
  ∧ check_calls t = []
  ∧ relay_calls t
    = [(globalPrefix_name, INFO, "Starting global prefix check...");
       match verdict with
       | Ok prefix => (globalPrefix_name, INFO, "Global node_modules directory: " +:+ prefix)
       | Throw e =>
           (globalPrefix_name, ERROR, inspectError ext "Failed to get global node modules" e)
       end]
  ∧ List.filter is_exit (posted t)
    = (if linked rt
       then [MsgExit (threadId rt) (workerData_threadName_opt rt)
               match verdict with Ok _ => true | Throw _ => false end]
       else []).
Proof.
  intros t found verdict. subst t.
  destruct (exit_posted rt ext Hdata GlobalPrefix) as (success & Hiff & Hexit).
  rewrite Hexit, relay_calls_run. unfold fetches, requests, check_calls.
  rewrite !(run_observation rt ext Hdata) by (by intros []).
  assert (Htask : script_task rt ext GlobalPrefix
    = match found with
      | Ok prefix =>
          match server_request ext (global_prefix_request prefix) with
          | Ok _ => ([CallGetGlobalNodeModules; ServerRequest (global_prefix_request prefix)]
                     ++ threadLogger_trace rt globalPrefix_name INFO
                          ("Global node_modules directory: " +:+ prefix),
                     Ok ())
          | Throw e => ([CallGetGlobalNodeModules;
                         ServerRequest (global_prefix_request prefix)], Throw e)
          end
      | Throw e => ([CallGetGlobalNodeModules], Throw e)
      end).
  { cbn [script_task]. unfold globalPrefix_task. subst found.
    destruct (getGlobalNodeModules ext) as [prefix|e]; [|done].
    cbn -[threadLogger threadLogger_trace global_prefix_request].
    destruct (server_request ext (global_prefix_request prefix)) as [[]|e]; [|done].
    cbn -[threadLogger threadLogger_trace global_prefix_request].
    by rewrite (threadLogger_eq rt Hdata). }
  unfold returns in Hiff. rewrite Htask in *. subst verdict.
  destruct found as [prefix|e].
  - destruct (server_request ext (global_prefix_request prefix)) as [[]|e];
      unfold trace, outcome in *; cbn [fst snd] in *.
    + assert (success = true) as -> by (apply Hiff; by eexists).
      rewrite !omap_app, relay_calls_app, relay_calls_threadLogger_trace.
      rewrite !(omap_plumbing _ (threadLogger_trace rt _ _ _))
        by first [by intros [] | apply threadLogger_trace_plumbing].
      done.
    + assert (success = false) as ->.
      { destruct success; [|done]. destruct (proj1 Hiff eq_refl) as [? ?]. done. }
      done.
  - unfold trace, outcome in *; cbn [fst snd] in *.
    assert (success = false) as ->.
    { destruct success; [|done]. destruct (proj1 Hiff eq_refl) as [? ?]. done. }
    done.
Qed.

Lemma systemCheck_task_fetch_fails e :
  server_fetch ext shared_request 1000 = Throw e →
  systemCheck_task rt ext = ([ServerFetch shared_request 1000], Throw e).
Proof. intros Hfetch. unfold systemCheck_task. by rewrite Hfetch. Qed.

Lemma systemCheck_task_interfaces_fail response e :
  server_fetch ext shared_request 1000 = Ok response →
  os_networkInterfaces ext = Throw e →
  outcome (systemCheck_task rt ext) = Throw e.
Proof.
  intros Hfetch Hnet. unfold systemCheck_task. rewrite Hfetch, Hnet.
  destruct (node_version rt) as [[major minor] patch].
  match goal with |- outcome ?m = _ => assert (∃ t, m = (t, Throw e)) as [t ->] end;
    [|done].
  eexists.
  eapply bind_eq; [reflexivity|]. cbv zeta.
  eapply bind_eq; [apply (when_threadLogger_eq rt Hdata)|].
  eapply bind_eq; [apply (threadLogger_eq rt Hdata)|].
  eapply bind_eq; [apply (when_threadLogger_eq rt Hdata)|].
  eapply bind_eq; [apply (when_threadLogger_eq rt Hdata)|].
  eapply bind_eq; [apply (when_threadLogger_eq rt Hdata)|].
  eapply bind_eq; [apply (when_threadLogger_eq rt Hdata)|].
  reflexivity.
Qed.

(** X3.  The verdict of [workerSystemCheck]: its [exit] message says
    [success: true] exactly when the fetch of the shared state and
    [os.networkInterfaces()] both completed, whatever its diagnostics
    found; and when the fetch fails no diagnostic runs: the run relays
    its start line and the inspected error, nothing else. *)
Theorem systemCheck_verdict :
  let t := trace (run_script rt ext SystemCheck) in
  let verdict : bool :=
    match server_fetch ext shared_request 1000, os_networkInterfaces ext with
    | Ok _, Ok _ => true
    | _, _ => false
    end in
  List.filter is_exit (posted t)
  = (if linked rt
     then [MsgExit (threadId rt) (workerData_threadName_opt rt) verdict]
     else [])
  ∧ ∀ e, server_fetch ext shared_request 1000 = Throw e →
      relay_calls t
      = [(systemCheck_name, INFO, "Starting system check...");
         (systemCheck_name, ERROR, inspectError ext "Failed to perform system check" e)].
Proof.
  intros t verdict. subst t.
  destruct (exit_posted rt ext Hdata SystemCheck) as (success & Hiff & Hexit).
  rewrite Hexit. cbn [script_task] in Hiff. unfold returns in Hiff. split.
  - replace verdict with success; [done|]. subst verdict.
    destruct (server_fetch ext shared_request 1000) as [response|e] eqn:Hfetch.
    + destruct (os_networkInterfaces ext) as [entries|e] eqn:Hnet.
      * destruct (systemCheck_task_eq rt ext Hdata response entries Hfetch Hnet)
          as (t & Ht & _).
        apply Hiff. rewrite Ht. by eexists.
      * rewrite (systemCheck_task_interfaces_fail response e Hfetch Hnet) in Hiff.
        destruct success; [|done]. destruct (proj1 Hiff eq_refl) as [? ?]. done.
    + rewrite (systemCheck_task_fetch_fails e Hfetch) in Hiff.
      destruct success; [|done]. destruct (proj1 Hiff eq_refl) as [? ?]. done.
  - intros e Hfetch. rewrite relay_calls_run. cbn [script_task script_name script_start
      script_failure]. by rewrite (systemCheck_task_fetch_fails e Hfetch).
Qed.

End verdicts.

(** ** workerSystemCheck.ts: the error diagnostics of a run *)

Section check.
Context (rt : Runtime) (ext : Externals).
Hypothesis Hdata : linked_has_data rt.

Lemma node_errors_length : (length (node_errors rt) ≤ 1)%nat.
Proof.
  unfold node_errors. destruct (node_version rt) as [[major minor] patch].
  destruct (major =? 20)%Z eqn:H20, (major =? 22)%Z eqn:H22, (major =? 21)%Z eqn:H21,
    (major =? 23)%Z eqn:H23, (major =? 25)%Z eqn:H25, (minor <? 19)%Z, (minor <? 13)%Z;
    cbn; lia.
Qed.

Lemma node_errors_nil :
  node_errors rt = []
  ↔ let '(versionMajor, versionMinor, _) := node_version rt in
    (versionMajor = 20 → (19 ≤ versionMinor)%Z)
    ∧ (versionMajor = 22 → (13 ≤ versionMinor)%Z)
    ∧ versionMajor ≠ 21 ∧ versionMajor ≠ 23 ∧ versionMajor ≠ 25.
Proof.
  unfold node_errors. destruct (node_version rt) as [[major minor] patch].
  destruct (major =? 20)%Z eqn:H20, (major =? 22)%Z eqn:H22, (major =? 21)%Z eqn:H21,
    (major =? 23)%Z eqn:H23, (major =? 25)%Z eqn:H25, (minor <? 19)%Z eqn:H19,
    (minor <? 13)%Z eqn:H13; cbn; (split; [try done; intros _; lia | try done; intros; lia]).
Qed.

(** X4.  The error-level diagnostics of a [workerSystemCheck] run whose fetch
    and [os.networkInterfaces()] completed are, in this order: the NVM
    line when both [NVM_BIN] and [NVM_DIR] are set, at most one line about
    the Node.js version, and one line for each of internal, external, IPv4
    and IPv6 that no detail of a non-excluded interface provides.  So the
    run relays no error exactly when NVM is not in use, the Node.js
    version is neither an odd major 21, 23 or 25 nor below 20.19 or 22.13
    within its major, and the non-excluded interfaces have an internal
    detail, an external IPv4 detail and an external IPv6 detail. *)
Theorem systemCheck_diagnostics response entries :
  server_fetch ext shared_request 1000 = Ok response →
  os_networkInterfaces ext = Ok entries →
  let t := trace (run_script rt ext SystemCheck) in
  ∃ found,
    (foundInternal found = true ↔ seen ext entries (λ d, internal d = true))
    ∧ (foundExternal found = true ↔ seen ext entries (λ d, internal d = false))
    ∧ (foundIpv4 found = true
       ↔ seen ext entries (λ d, family d = "IPv4" ∧ internal d = false))
    ∧ (foundIpv6 found = true
       ↔ seen ext entries (λ d, family d = "IPv6" ∧ internal d = false))
    ∧ error_relays t
      = map (λ m, (systemCheck_name, ERROR, m))
          ((if env_truthy rt "NVM_BIN" && env_truthy rt "NVM_DIR" then [nvm_text] else [])
           ++ node_errors rt ++ network_errors found)
    ∧ (length (node_errors rt) ≤ 1)%nat
    ∧ (error_relays t = []
       ↔ env_truthy rt "NVM_BIN" && env_truthy rt "NVM_DIR" = false
         ∧ (let '(versionMajor, versionMinor, _) := node_version rt in
            (versionMajor = 20 → (19 ≤ versionMinor)%Z)
            ∧ (versionMajor = 22 → (13 ≤ versionMinor)%Z)
            ∧ versionMajor ≠ 21 ∧ versionMajor ≠ 23 ∧ versionMajor ≠ 25)
         ∧ seen ext entries (λ d, internal d = true)
         ∧ seen ext entries (λ d, family d = "IPv4" ∧ internal d = false)
         ∧ seen ext entries (λ d, family d = "IPv6" ∧ internal d = false)).
Proof.
  intros Hfetch Hnet t.
  destruct (systemCheck_task_eq rt ext Hdata response entries Hfetch Hnet) as (tt & Htask & Herr).
  destruct (considered_flags ext entries) as (H1 & H2 & H3 & H4). cbn zeta in *.
  set (found := foldl scan_detail nothing_found (considered ext entries)) in *.
  exists found. do 4 (split; [done|]).
  assert (Hrun : error_relays t
    = map (λ m, (systemCheck_name, ERROR, m))
        ((if env_truthy rt "NVM_BIN" && env_truthy rt "NVM_DIR" then [nvm_text] else [])
         ++ node_errors rt ++ network_errors found)).
  { subst t. unfold error_relays at 1. rewrite (relay_calls_run rt ext Hdata).
    cbn [script_task script_name script_start]. rewrite Htask.
    unfold trace, outcome. cbn [fst snd]. rewrite app_nil_r.
    cbn [List.filter is_error_call fst snd]. exact Herr. }
  split; [done|]. split; [apply node_errors_length|].
  rewrite Hrun, <- node_errors_nil. split.
  - intros Hnil. apply map_eq_nil in Hnil.
    apply app_eq_nil in Hnil as [Hnvm Hnil]. apply app_eq_nil in Hnil as [Hnode Hnets].
    unfold network_errors in Hnets.
    destruct (foundInternal found), (foundExternal found), (foundIpv4 found),
      (foundIpv6 found); try discriminate Hnets.
    split; [by destruct (env_truthy rt "NVM_BIN" && env_truthy rt "NVM_DIR")|].
    split; [done|]. split; [by apply H1|]. split; [by apply H3|by apply H4].
  - intros (Hnvm & Hnode & Hi & Hv4 & Hv6). rewrite Hnvm, Hnode.
    assert (He : seen ext entries (λ d, internal d = false)).
    { destruct Hv4 as (n & ds & d & ? & ? & ? & ? & ?). by exists n, ds, d. }
    apply H1 in Hi. apply H2 in He. apply H3 in Hv4. apply H4 in Hv6.
    unfold network_errors. by rewrite Hi, He, Hv4, Hv6.
Qed.

End check.

(** ** Invariants of a run *)

Section closure.
Context (rt : Runtime) (ext : Externals).
Hypothesis Hdata : linked_has_data rt.
Context (Q : list Event → Prop) (s : Script).
Hypothesis Qnil : Q [].
Hypothesis Qapp : ∀ t1 t2, Q t1 → Q t2 → Q (t1 ++ t2).
Hypothesis Qcall : ∀ ev, call_event ev = true → Q [ev].
Hypothesis Qlog : ∀ level message, Q (threadLogger_trace rt (script_name s) level message).

Lemma trace_bind_closed {A B} (m : M A) (f : A → M B) :
  Q (trace m) → (∀ a, Q (trace (f a))) → Q (trace (m ≫= f)).
Proof.
  intros Hm Hf. rewrite trace_bind. destruct (outcome m); [|done]. by apply Qapp.
Qed.

Lemma Qcons ev t : call_event ev = true → Q t → Q (ev :: t).
Proof. intros Hev Ht. change (ev :: t) with ([ev] ++ t). apply Qapp; [by apply Qcall|done]. Qed.

Ltac closed_step Hlog :=
  match goal with
  | |- Q (trace (_ ≫= _)) => apply trace_bind_closed; [|intros]
  | |- Q (trace (threadLogger _ _ _ _)) => rewrite (threadLogger_eq rt Hdata); apply Hlog
  | |- Q (trace (call _ _)) => by apply Qcall
  | |- Q (trace (mret _)) => exact Qnil
  | |- Q (trace (if ?b then _ else _)) => destruct b
  | |- Q (trace (let '(_, _) := ?p in _)) => destruct p
  end.

Lemma scan_interfaces_closed shared entries f :
  (∀ level message, Q (threadLogger_trace rt systemCheck_name level message)) →
  Q (trace (scan_interfaces rt ext shared entries f)).
Proof.
  intros Hlog. revert f. induction entries as [|[interfaceName interfaceDetails] rest IH]; intros f.
  - exact Qnil.
  - cbn [scan_interfaces]. repeat closed_step Hlog; apply IH.
Qed.

Lemma script_task_closed : Q (trace (script_task rt ext s)).
Proof.
  pose proof Qlog as Hlog.
  destruct s eqn:Hs; cbn [script_task script_name] in *.
  - unfold checkUpdates_task. repeat closed_step Hlog.
  - unfold systemCheck_task. destruct (node_version rt) as [[major minor] patch].
    cbv zeta. repeat first [closed_step Hlog | by apply scan_interfaces_closed].
  - unfold globalPrefix_task. repeat closed_step Hlog.
Qed.

Lemma script_guarded_closed : Q (trace (script_guarded rt ext s)).
Proof.
  rewrite (script_guarded_eq rt ext Hdata). pose proof script_task_closed as Ht.
  destruct (outcome (script_task rt ext s)); [done|].
  apply Qapp; [done|]. apply Qcons; [done|]. apply Qlog.
Qed.

(** A property of traces that the pieces of a script have and that
    appending preserves holds of the whole run. *)
Lemma run_script_closed :
  Q (send_init_trace rt ext (script_name s)) →
  (∀ success, Q (send_exit_trace rt ext (script_name s) success)) →
  Q (if verbose rt then trace (logWorkerInfo rt ext (script_name s) (Some (verbose rt)))
     else []) →
  Q (trace (run_script rt ext s)).
Proof.
  intros Hinit Hexit Hinfo.
  destruct (script_guarded_returns rt ext Hdata s) as (success & Hg & _).
  rewrite (run_script_eq rt ext Hdata s success Hg). unfold trace at 1. cbn [fst].
  apply Qapp; [done|]. unfold script_prologue. apply Qcons; [done|].
  apply Qapp; [by apply Qapp|]. apply Qapp; [apply script_guarded_closed|].
  by apply Qcons.
Qed.

End closure.

Section identity.
Context (rt : Runtime) (ext : Externals).
Hypothesis Hdata : linked_has_data rt.

Lemma threadLogger_trace_own name level message :
  Forall (own_event rt name) (threadLogger_trace rt name level message).
Proof.
  unfold threadLogger_trace, parentLog_trace.
  destruct (parentPort rt) eqn:Hp, (linked rt), (debug rt); by repeat constructor.
Qed.

Lemma run_own s : Forall (own_event rt (script_name s)) (trace (run_script rt ext s)).
Proof.
  apply (run_script_closed rt ext Hdata).
  - done.
  - intros. by apply Forall_app.
  - intros [] Hev; try done; by repeat constructor.
  - intros. apply threadLogger_trace_own.
  - unfold send_init_trace, parentPost_trace, parentLog_trace, init_message.
    destruct (parentPort rt) eqn:Hp, (linked rt), (debug rt); by repeat constructor.
  - intros success. unfold send_exit_trace, parentPost_trace, parentLog_trace, exit_message.
    destruct (parentPort rt) eqn:Hp, (linked rt), (debug rt); by repeat constructor.
  - destruct (verbose rt); by repeat constructor.
Qed.

(** X6.  Every control message a worker script posts, from [init] to [exit] and
    every relayed log line between and after them, goes to the thread's
    own parent port, carries the thread's id and the thread name of its
    initial data, and, when it is a [log] message, is filed under the
    script's logger name. *)
Theorem messages_identify_thread (s : Script) (port : MessagePort) (m : ParentPortMessage) :
  PostMessage port m ∈ trace (run_script rt ext s) →
  own_message rt (script_name s) port m.
Proof.
  intros Hin. pose proof (run_own s) as Hall.
  rewrite Forall_forall in Hall. exact (Hall _ Hin).
Qed.

End identity.

Section debug_output.
Context (rt : Runtime) (ext : Externals).
Hypothesis Hdata : linked_has_data rt.

Lemma debug_lines_app t1 t2 : debug_lines (t1 ++ t2) = debug_lines t1 ++ debug_lines t2.
Proof. apply omap_app. Qed.

Lemma script_name_not_Worker s : String.eqb "Worker" (script_name s) = false.
Proof. by destruct s. Qed.

(** The echo lines of [worker.ts] balance the posted messages. *)
Lemma run_echo s :
  let t := trace (run_script rt ext s) in
  length (List.filter (λ l, String.eqb l.1 "Worker") (debug_lines t))
  = if debug rt then length (posted t) else 0%nat.
Proof.
  apply (run_script_closed rt ext Hdata
    (λ t, length (List.filter (λ l, String.eqb l.1 "Worker") (debug_lines t))
          = if debug rt then length (posted t) else 0%nat)).
  - by destruct (debug rt).
  - intros t1 t2 H1 H2.
    rewrite debug_lines_app, List.filter_app, !length_app, posted_app, length_app, H1, H2.
    by destruct (debug rt).
  - intros [] Hev; try done; by destruct (debug rt).
  - intros. unfold threadLogger_trace, parentLog_trace.
    destruct (parentPort rt), (linked rt), (debug rt) eqn:Hd; cbn; by rewrite ?Hd.
  - unfold send_init_trace, parentPost_trace, parentLog_trace.
    destruct (parentPort rt), (linked rt), (debug rt) eqn:Hd; cbn; by rewrite ?Hd.
  - intros success. unfold send_exit_trace, parentPost_trace, parentLog_trace.
    destruct (parentPort rt), (linked rt), (debug rt) eqn:Hd; cbn; by rewrite ?Hd.
  - destruct (verbose rt), (debug rt), s; done.
Qed.

Lemma run_loggers s :
  Forall (λ l, l.1 = script_name s ∨ l.1 = "Worker")
         (debug_lines (trace (run_script rt ext s))).
Proof.
  apply (run_script_closed rt ext Hdata
    (λ t, Forall (λ l, l.1 = script_name s ∨ l.1 = "Worker") (debug_lines t))).
  - done.
  - intros t1 t2 H1 H2. rewrite debug_lines_app. by apply Forall_app.
  - intros [] Hev; try done; by constructor.
  - intros. unfold threadLogger_trace, parentLog_trace.
    destruct (parentPort rt), (linked rt), (debug rt); cbn; repeat constructor; by right.
  - unfold send_init_trace, parentPost_trace, parentLog_trace.
    destruct (parentPort rt), (linked rt), (debug rt); cbn; repeat constructor; by right.
  - intros success. unfold send_exit_trace, parentPost_trace, parentLog_trace.
    destruct (parentPort rt), (linked rt), (debug rt); cbn; repeat constructor; by right.
  - destruct (verbose rt); cbn; repeat constructor; by left.
Qed.

Lemma threadLogger_trace_no_own s name level message :
  List.filter (λ l, String.eqb l.1 (script_name s))
    (debug_lines (threadLogger_trace rt name level message)) = [].
Proof.
  unfold threadLogger_trace, parentLog_trace.
  destruct (parentPort rt), (linked rt), (debug rt); cbn -[String.eqb];
    by rewrite ?script_name_not_Worker.
Qed.

Lemma guarded_no_own s :
  List.filter (λ l, String.eqb l.1 (script_name s))
    (debug_lines (trace (script_guarded rt ext s))) = [].
Proof.
  apply (script_guarded_closed rt ext Hdata
    (λ t, List.filter (λ l, String.eqb l.1 (script_name s)) (debug_lines t) = [])).
  - done.
  - intros t1 t2 H1 H2. by rewrite debug_lines_app, List.filter_app, H1, H2.
  - by intros [] Hev.
  - intros. apply threadLogger_trace_no_own.
Qed.

(** X7.  What a run of a worker script writes with [log.debug].  Every such
    line goes to the script's own logger or to the logger of [worker.ts].
    The script's own logger gets the five lines of [logWorkerInfo] when a
    verbose flag is set, the last of them the inspected environment
    ([logWorkerInfo] is called with [logEnv] true), and nothing
    otherwise.  The logger of [worker.ts] gets one line for each control
    message posted when a debug flag is set, and nothing otherwise. *)
Theorem debug_output (s : Script) :
  let t := trace (run_script rt ext s) in
  let own := List.filter (λ l, String.eqb l.1 (script_name s)) (debug_lines t) in
  let echo := List.filter (λ l, String.eqb l.1 "Worker") (debug_lines t) in
  Forall (λ l, l.1 = script_name s ∨ l.1 = "Worker") (debug_lines t)
  ∧ own = (if verbose rt
           then debug_lines (trace (logWorkerInfo rt ext (script_name s) (Some true)))
           else [])
  ∧ (length own = if verbose rt then 5 else 0)%nat
  ∧ (if verbose rt
     then last own = Some (script_name s, "Env: " +:+ inspect_env ext (process_env rt))
     else True)
  ∧ (length echo = if debug rt then length (posted t) else 0)%nat.
Proof.
  intros t own echo.
  assert (Hown : own = (if verbose rt
           then debug_lines (trace (logWorkerInfo rt ext (script_name s) (Some true)))
           else [])).
  { subst own t.
    destruct (script_guarded_returns rt ext Hdata s) as (success & Hg & _).
    rewrite (run_script_eq rt ext Hdata s success Hg). unfold trace at 1. cbn [fst].
    unfold script_prologue.
    change (ServerNew "matterbridge" :: ?l) with ([ServerNew "matterbridge"] ++ l).
    change (ServerClose :: ?l) with ([ServerClose] ++ l).
    rewrite !debug_lines_app, !List.filter_app, guarded_no_own, threadLogger_trace_no_own.
    assert (Hinit : List.filter (λ l, String.eqb l.1 (script_name s))
              (debug_lines (send_init_trace rt ext (script_name s))) = []).
    { unfold send_init_trace, parentPost_trace, parentLog_trace.
      destruct (parentPort rt), (linked rt), (debug rt); cbn -[String.eqb];
        by rewrite ?script_name_not_Worker. }
    assert (Hexit : List.filter (λ l, String.eqb l.1 (script_name s))
              (debug_lines (send_exit_trace rt ext (script_name s) success)) = []).
    { unfold send_exit_trace, parentPost_trace, parentLog_trace.
      destruct (parentPort rt), (linked rt), (debug rt); cbn -[String.eqb];
        by rewrite ?script_name_not_Worker. }
    rewrite Hinit, Hexit. cbn [debug_lines omap List.filter app]. rewrite !app_nil_r.
    destruct (verbose rt); [|done]. cbn -[String.eqb]. by rewrite !String.eqb_refl. }
  split; [apply run_loggers|]. split; [done|]. rewrite Hown.
  split; [by destruct (verbose rt)|]. split; [by destruct (verbose rt)|].
  apply run_echo.
Qed.

End debug_output.

(** X8.  A worker started by [createESMWorker(name, ...)] runs with the options'
    [workerData] as its initial data.  Every control message a worker
    script posts from inside it, [init] and [exit] included, names the
    thread by the [name] given to [createESMWorker], also when the
    caller's data had a [threadName] entry of its own. *)
Theorem created_worker_announces_name (rt : Runtime) (ext : Externals)
    (name relativePath : string) (data : option (gmap string value))
    (argv : option (list string)) (env : option (gmap string string))
    (execArgv : option (list string)) (pipedOutput : option bool)
    (w : Worker) (inside : Runtime) (ext' : Externals) (s : Script)
    (port : MessagePort) (m : ParentPortMessage) :
  outcome (createESMWorker rt ext name relativePath data argv env execArgv pipedOutput)
    = Ok w →
  workerData inside = Some (opt_workerData (worker_options w)) →
  PostMessage port m ∈ trace (run_script inside ext' s) →
  msg_threadName m = VStr name.
Proof.
  intros Hw Hinside Hin.
  assert (Hdata : linked_has_data inside) by (intros _; by eexists).
  pose proof (run_own inside ext' Hdata s) as Hall.
  rewrite Forall_forall in Hall. destruct (Hall _ Hin) as (_ & _ & -> & _).
  unfold workerData_threadName_opt. rewrite Hinside.
  unfold createESMWorker in Hw. destruct (verbose rt); injection Hw as <-;
    cbn [worker_options opt_workerData]; by rewrite lookup_insert_eq.
Qed.

(** X9.  A worker script started in a thread that has a parent port but no
    initial data stops at its first statement: reading
    [workerData.threadName] for the [init] message throws a [TypeError]
    before anything is posted or logged, so the parent sees neither
    [init] nor [exit], and the broadcast server is never created. *)
Theorem script_without_data_fails (rt : Runtime) (ext : Externals) (s : Script) :
  linked rt = true → workerData rt = None →
  run_script rt ext s = ([], Throw (TypeError "threadName")).
Proof.
  intros Hl Hd.
  destruct s; cbn [run_script];
    unfold workerCheckUpdates, workerSystemCheck, workerGlobalPrefix, send_init,
      workerData_threadName; by rewrite Hl, Hd.
Qed.

(** X10.  When the raw primitives fail half-way.  [parentLog] is all or
    nothing in every thread: a call that throws had no effect.
    [parentPost] is not: it throws after having posted its message exactly
    when the thread has a parent port, has no initial data and runs with a
    debug flag; the message is then on the parent port and the error is
    the [TypeError] of reading [workerData.threadName] for the debug
    line. *)
Theorem parentPost_throws_after_posting (rt : Runtime) (ext : Externals) :
  (∀ logName logLevel message,
     throws (parentLog rt logName logLevel message) →
     trace (parentLog rt logName logLevel message) = [])
  ∧ (∀ message,
       (throws (parentPost rt ext message)
        ∧ posted (trace (parentPost rt ext message)) ≠ [])
       ↔ (is_Some (parentPort rt) ∧ workerData rt = None ∧ debug rt = true))
  ∧ (∀ port message,
       parentPort rt = Some port → workerData rt = None → debug rt = true →
       parentPost rt ext message
       = ([PostMessage port message], Throw (TypeError "threadName"))).
Proof.
  split; [|split].
  - intros logName logLevel message. unfold throws, parentLog, workerData_threadName.
    destruct (parentPort rt), (workerData rt), (debug rt); cbn; intros [e He]; done.
  - intros message. unfold throws, parentPost, workerData_threadName.
    destruct (parentPort rt) as [port|], (workerData rt) as [wd|], (debug rt); cbn; split;
      try (intros [[e He] Hp]; done); try (intros (Hp & Hd & Hdbg); done);
      try (intros ([? Hp] & Hd & Hdbg); done).
    intros _. split; [by eexists|done].
  - intros port message Hp Hd Hdbg. unfold parentPost, workerData_threadName.
    by rewrite Hp, Hd, Hdbg.
Qed.

Section mirror.
Context (rt : Runtime) (ext : Externals).
Hypothesis Hdata : linked_has_data rt.

Lemma mirror_app (t1 t2 : list Event) :
  List.filter is_log (posted t1)
    = (if linked rt then map (relayed rt) (relay_calls t1) else []) →
  List.filter is_log (posted t2)
    = (if linked rt then map (relayed rt) (relay_calls t2) else []) →
  List.filter is_log (posted (t1 ++ t2))
    = (if linked rt then map (relayed rt) (relay_calls (t1 ++ t2)) else []).
Proof.
  intros H1 H2. rewrite posted_app, List.filter_app, relay_calls_app, map_app, H1, H2.
  by destruct (linked rt).
Qed.

Lemma mirror_threadLogger_trace n l m :
  List.filter is_log (posted (threadLogger_trace rt n l m))
  = (if linked rt then map (relayed rt) (relay_calls (threadLogger_trace rt n l m)) else []).
Proof.
  rewrite relay_calls_threadLogger_trace. unfold threadLogger_trace, parentLog_trace.
  destruct (linked rt) eqn:Hl.
  - destruct (linked_port rt Hl) as [port ->]. by destruct (debug rt).
  - by destruct (parentPort rt).
Qed.

Lemma mirror_guarded s :
  List.filter is_log (posted (trace (script_guarded rt ext s)))
  = (if linked rt then map (relayed rt) (relay_calls (trace (script_guarded rt ext s)))
     else []).
Proof.
  apply (script_guarded_closed rt ext Hdata
    (λ t, List.filter is_log (posted t)
          = (if linked rt then map (relayed rt) (relay_calls t) else []))).
  - by destruct (linked rt).
  - apply mirror_app.
  - intros [] Hev; try done; by destruct (linked rt).
  - intros. apply mirror_threadLogger_trace.
Qed.

(** X11.  The parent's log is a mirror of the worker's.  In a linked worker
    script the [log] control messages posted are, in order, the relayed
    copy of each line the script wrote through [threadLogger], one for
    one, preceded by the "initialized" notice and followed by the
    "exiting" notice when a debug flag is set; beside them only [init] and
    [exit] are posted.  When the thread is not linked nothing is posted. *)
Theorem parent_log_mirrors_local (s : Script) :
  let t := trace (run_script rt ext s) in
  ∃ success,
    (success = true ↔ returns (script_task rt ext s))
    ∧ List.filter is_log (posted t)
      = (if linked rt
         then (if debug rt then [debug_message rt (script_name s) (initialized_text rt)]
               else [])
              ++ map (relayed rt) (relay_calls t)
              ++ (if debug rt
                  then [debug_message rt (script_name s) (exiting_text rt success)]
                  else [])
         else [])
    ∧ List.filter (λ m, negb (is_log m)) (posted t)
      = (if linked rt then [init_message rt; exit_message rt success] else []).
Proof.
  intros t. subst t.
  destruct (script_guarded_returns rt ext Hdata s) as (success & Hg & Hiff).
  exists success. split; [done|].
  assert (Htrace : trace (run_script rt ext s)
            = send_init_trace rt ext (script_name s)
              ++ script_prologue rt ext s
              ++ trace (script_guarded rt ext s)
              ++ ServerClose :: send_exit_trace rt ext (script_name s) success)
    by (by rewrite (run_script_eq rt ext Hdata s success Hg)).
  rewrite Htrace. clear Htrace.
  destruct (send_init_quiet rt ext (script_name s)) as (_ & Hi & _).
  destruct (send_exit_quiet rt ext (script_name s) success) as (_ & He & _).
  assert (Hpro : List.filter is_log (posted (script_prologue rt ext s))
                 = (if linked rt then map (relayed rt) (relay_calls (script_prologue rt ext s))
                    else [])).
  { unfold script_prologue.
    change (ServerNew "matterbridge" :: ?l) with ([ServerNew "matterbridge"] ++ l).
    apply mirror_app; [by destruct (linked rt)|]. apply mirror_app.
    - destruct (verbose rt), (linked rt); done.
    - apply mirror_threadLogger_trace. }
  pose proof (mirror_guarded s) as Hgd.
  change (ServerClose :: ?l) with ([ServerClose] ++ l).
  rewrite !posted_app, !relay_calls_app, !List.filter_app, Hi, He, Hpro, Hgd.
  rewrite (posted_send_init rt ext), (posted_send_exit rt ext).
  assert (Hnl : ∀ t', List.filter (λ m, negb (is_log m))
                        (List.filter is_log (posted t')) = []).
  { intros t'. induction (posted t') as [|m l IH]; [done|]. cbn.
    destruct (is_log m) eqn:Hm; [|done]. cbn. by rewrite Hm. }
  assert (Hn1 : List.filter (λ m, negb (is_log m)) (posted (script_prologue rt ext s)) = []).
  { unfold script_prologue, threadLogger_trace, parentLog_trace.
    destruct (verbose rt), (parentPort rt), (linked rt), (debug rt); done. }
  assert (Hn2 : List.filter (λ m, negb (is_log m))
                  (posted (trace (script_guarded rt ext s))) = []).
  { apply (script_guarded_closed rt ext Hdata
      (λ t, List.filter (λ m, negb (is_log m)) (posted t) = [])).
    - done.
    - intros t1 t2 H1 H2. by rewrite posted_app, List.filter_app, H1, H2.
    - by intros [] Hev.
    - intros. unfold threadLogger_trace, parentLog_trace.
      destruct (parentPort rt), (linked rt), (debug rt); done. }
  rewrite Hn1, Hn2. cbn [relay_calls omap posted List.filter app map].
  rewrite !map_app.
  destruct (linked rt), (debug rt);
    cbn [List.filter is_log init_message exit_message debug_message negb app map];
    rewrite ?app_nil_r, <- ?app_assoc; done.
Qed.

End mirror.

(** ** dockerVersion.ts *)

Module DockerFacts.
Import DockerVersion.

Section chain.
Context (net : Net).

Lemma header_delete key (headers : option Headers) :
  key ≠ "Authorization" →
  header key (delete "Authorization" <$> headers) = header key headers.
Proof.
  intros Hk. destruct headers as [h|]; [|done].
  change (delete "Authorization" h !! key = h !! key). by apply lookup_delete_ne.
Qed.

Lemma authorization_delete (headers : option Headers) :
  authorization (delete "Authorization" <$> headers) = None.
Proof.
  destruct headers as [h|]; [|done].
  change (delete "Authorization" h !! "Authorization" = None). apply lookup_delete_eq.
Qed.

Lemma forwarded_first url headers timeoutMs :
  forwarded net url headers timeoutMs (mkRequest url headers timeoutMs).
Proof. by repeat split. Qed.

(** What one call adds to the list of requests: a chain that starts with
    the request asked for and satisfies a property [Inv] that the first
    request has and that a redirect preserves. *)
Lemma httpsGetJson_chain {T} (Inv : string → option Headers → Z → Request → Prop)
    (parse : string → T + string) :
  (∀ url headers timeoutMs, Inv url headers timeoutMs (mkRequest url headers timeoutMs)) →
  (∀ url redirectedUrl headers timeoutMs r,
     Inv redirectedUrl (redirectedHeaders net url redirectedUrl headers) timeoutMs r →
     Inv url headers timeoutMs r) →
  ∀ fuel url headers timeoutMs log,
    ∃ added,
      (httpsGetJson net parse fuel url headers timeoutMs log).1 = log ++ added
      ∧ Forall (Inv url headers timeoutMs) added
      ∧ (fuel ≠ O → head added = Some (mkRequest url headers timeoutMs))
      ∧ (length added ≤ fuel)%nat.
Proof.
  intros Hfirst Hstep.
  induction fuel as [|fuel IH]; intros url headers timeoutMs log.
  - exists []. cbn. rewrite app_nil_r. by repeat split.
  - cbn [httpsGetJson]. cbv zeta.
    set (request := mkRequest url headers timeoutMs).
    assert (Hone : ∀ s : Settlement T,
      ∃ added, (log ++ [request], s).1 = log ++ added
        ∧ Forall (Inv url headers timeoutMs) added
        ∧ (S fuel ≠ O → head added = Some request)
        ∧ (length added ≤ S fuel)%nat).
    { intros s. exists [request]. repeat split; [|cbn; lia]. repeat constructor. apply Hfirst. }
    destruct (https_get net log request) as [|message|status location body]; [done..|].
    destruct (if (300 <=? default 0 status)%Z && (default 0 status <? 400)%Z
              then if truthy (locationHeader location) then locationHeader location else None
              else None) as [target|].
    + destruct (URL_resolve net target url) as [redirectedUrl|e]; [|done].
      destruct (IH redirectedUrl (redirectedHeaders net url redirectedUrl headers)
                  timeoutMs (log ++ [request])) as (added & Hlog & Hall & _ & Hlen).
      exists (request :: added). rewrite Hlog, <- app_assoc. split; [done|]. split.
      * constructor; [apply Hfirst|].
        eapply Forall_impl; [exact Hall|]. intros r. apply Hstep.
      * split; [done|]. cbn. lia.
    + destruct ((default 0 status <? 200)%Z || (300 <=? default 0 status)%Z); [done|].
      by destruct (parse body).
Qed.


Lemma truthy_Some (s : option string) :
  truthy s = true → ∃ target, s = Some target ∧ target ≠ "".
Proof.
  destruct s as [target|]; [|done]. cbn. intros H. exists target. split; [done|].
  intros ->. done.
Qed.

Lemma redirect_target status location target :
  (if (300 <=? default 0 status)%Z && (default 0 status <? 400)%Z
   then if truthy (locationHeader location) then locationHeader location else None
   else None) = Some target →
  is_3xx status ∧ locationHeader location = Some target ∧ target ≠ "".
Proof.
  unfold is_3xx.
  destruct (Z.leb_spec 300 (default 0 status)), (Z.ltb_spec (default 0 status) 400);
    cbn [andb]; try done.
  destruct (truthy (locationHeader location)) eqn:Ht; [|done].
  intros Hl. destruct (truthy_Some _ Ht) as (target' & Ht' & Hne).
  rewrite Ht' in Hl. injection Hl as <-. done.
Qed.

Lemma no_redirect status location :
  (if (300 <=? default 0 status)%Z && (default 0 status <? 400)%Z
   then if truthy (locationHeader location) then locationHeader location else None
   else None) = None →
  is_3xx status → truthy (locationHeader location) = false.
Proof.
  unfold is_3xx. intros Hn [H1 H2].
  destruct (Z.leb_spec 300 (default 0 status)); [|lia].
  destruct (Z.ltb_spec (default 0 status) 400); [|lia].
  cbn [andb] in Hn. destruct (truthy (locationHeader location)) eqn:Ht; [|done].
  destruct (truthy_Some _ Ht) as (target & Ht' & _). by rewrite Ht' in Hn.
Qed.

(** A call that did not run out of steps ends on the answer to its last
    request. *)
Lemma httpsGetJson_last {T} (parse : string → T + string) :
  ∀ fuel url headers timeoutMs log log' s,
    httpsGetJson net parse fuel url headers timeoutMs log = (log', s) →
    (s = Redirecting ∧ length log' = (length log + fuel)%nat)
    ∨ ∃ earlier r,
        log' = (log ++ earlier) ++ [r]
        ∧ req_timeoutMs r = timeoutMs
        ∧ accounts_for net parse r (https_get net (log ++ earlier) r) s.
Proof.
  induction fuel as [|fuel IH]; intros url headers timeoutMs log log' s Hrun.
  - cbn in Hrun. injection Hrun as <- <-. left. split; [done|lia].
  - cbn [httpsGetJson] in Hrun. cbv zeta in Hrun.
    set (request := mkRequest url headers timeoutMs) in *.
    destruct (https_get net log request) as [|message|status location body] eqn:Hanswer.
    + injection Hrun as <- <-. right. exists [], request. rewrite app_nil_r.
      split; [done|]. split; [done|]. by rewrite Hanswer.
    + injection Hrun as <- <-. right. exists [], request. rewrite app_nil_r.
      split; [done|]. split; [done|]. by rewrite Hanswer.
    + destruct (if (300 <=? default 0 status)%Z && (default 0 status <? 400)%Z
                then if truthy (locationHeader location) then locationHeader location
                     else None
                else None) as [target|] eqn:Hredirect.
      * destruct (redirect_target _ _ _ Hredirect) as (H3 & Hloc & Hne).
        destruct (URL_resolve net target url) as [redirectedUrl|e] eqn:Hresolve.
        -- destruct (IH _ _ _ _ _ _ Hrun) as [[-> Hlen]|(earlier & r & -> & Ht & Hacc)].
           ++ left. split; [done|]. rewrite Hlen, length_app. cbn. lia.
           ++ right. exists (request :: earlier), r.
              rewrite <- !app_assoc in *. cbn [app] in *. done.
        -- injection Hrun as <- <-. right. exists [], request. rewrite app_nil_r.
           split; [done|]. split; [done|]. rewrite Hanswer. cbn. split; [done|].
           by exists target.
      * pose proof (no_redirect _ _ Hredirect) as Hno.
        destruct (Z.ltb_spec (default 0 status) 200) as [Hlt|Hge]; cbn [orb] in Hrun.
        { injection Hrun as <- <-. right. exists [], request. rewrite app_nil_r.
          split; [done|]. split; [done|]. rewrite Hanswer. cbn.
          split; [done|]. split; [|done]. unfold is_2xx. lia. }
        destruct (Z.leb_spec 300 (default 0 status)) as [Hle|Hgt]; cbn [orb] in Hrun.
        { injection Hrun as <- <-. right. exists [], request. rewrite app_nil_r.
          split; [done|]. split; [done|]. rewrite Hanswer. cbn.
          split; [done|]. split; [|done]. unfold is_2xx. lia. }
        destruct (parse body) as [json|message] eqn:Hparse; injection Hrun as <- <-;
          right; exists [], request; rewrite app_nil_r;
          (split; [done|]); (split; [done|]); rewrite Hanswer; cbn;
          (split; [unfold is_2xx; lia|done]).
Qed.

(** ** [httpsGetJson] *)


End chain.

(** ** [getDockerVersion] *)

Section docker.
Context (net : Net).

Lemma D_catch_log {A} (m : D (option A)) log : (D_catch m log).1 = (m log).1.
Proof. unfold D_catch. by destruct (m log) as [log' [a|f|e|]]. Qed.

Lemma D_catch_never_rejects {A} (m : D (option A)) log f :
  (D_catch m log).2 ≠ Rejected f.
Proof. unfold D_catch. by destruct (m log) as [log' [a|f'|e|]]. Qed.

Lemma D_catch_resolved {A} (m : D (option A)) log log' (a : A) :
  D_catch m log = (log', Resolved (Some a)) → m log = (log', Resolved (Some a)).
Proof. unfold D_catch. by destruct (m log) as [log1 [a'|f'|e|]]. Qed.

Lemma D_bind_resolved {A B} (m : D A) (f : A → D B) log log' (b : B) :
  D_bind m f log = (log', Resolved b) →
  ∃ a log1, m log = (log1, Resolved a) ∧ f a log1 = (log', Resolved b).
Proof.
  unfold D_bind. destruct (m log) as [log1 [a|f'|e|]]; try done.
  intros H. by exists a, log1.
Qed.

Section added.
Context (Inv : string → option Headers → Z → Request → Prop).
Hypothesis Inv_first :
  ∀ url headers timeoutMs, Inv url headers timeoutMs (mkRequest url headers timeoutMs).
Hypothesis Inv_step :
  ∀ url redirectedUrl headers timeoutMs r,
    Inv redirectedUrl (redirectedHeaders net url redirectedUrl headers) timeoutMs r →
    Inv url headers timeoutMs r.
Context (fuel : nat) (owner repo : string).

Lemma registry_call {T} (parse : string → T + string) timeoutMs token path acc log :
  let run := httpsGetJson net parse fuel (registry owner repo +:+ path)
               (Some (<["Accept" := acc]> (baseHeaders token))) timeoutMs log in
  ∃ added, run.1 = log ++ added ∧ Forall (from_call Inv owner repo timeoutMs token) added.
Proof.
  intros run.
  destruct (httpsGetJson_chain net Inv parse Inv_first Inv_step fuel
              (registry owner repo +:+ path)
              (Some (<["Accept" := acc]> (baseHeaders token))) timeoutMs log)
    as (added & Hlog & Hall & _).
  exists added. split; [done|].
  eapply Forall_impl; [exact Hall|]. intros r Hr. right. by exists path, acc.
Qed.

Lemma readLabel_added timeoutMs token manifest log :
  ∃ added,
    (readLabel net fuel owner repo token timeoutMs manifest log).1 = log ++ added
    ∧ Forall (from_call Inv owner repo timeoutMs token) added.
Proof.
  unfold readLabel.
  destruct (negb (isValidString net (config manifest ≫= digest) 10)).
  { exists []. by rewrite app_nil_r. }
  unfold D_bind.
  destruct (registry_call (JSON_parse_config net) timeoutMs token
              ("/blobs/" +:+ show (config manifest ≫= digest)) "application/json" log)
    as (added & Hlog & Hall).
  cbv zeta in Hlog.
  exists added. split; [|done].
  destruct (httpsGetJson _ _ _ _ _ _ log) as [log1 [cfg|f|e|]]; exact Hlog.
Qed.

Lemma getDockerVersion_added tag timeout log :
  let timeoutMs := default 5000 timeout in
  ∃ token added,
    (getDockerVersion net fuel owner repo tag timeout log).1 = log ++ added
    ∧ Forall (from_call Inv owner repo timeoutMs token) added
    ∧ (valid_args net owner repo tag = false → added = [])
    ∧ (valid_args net owner repo tag = true → fuel ≠ O →
       head added = Some (mkRequest (tokenUrl owner repo) None timeoutMs)).
Proof.
  intros timeoutMs. unfold getDockerVersion, valid_args. cbv zeta.
  fold timeoutMs.
  destruct (isValidString net (Some owner) 1); cbn [negb orb andb];
    [|exists None, []; by rewrite app_nil_r].
  destruct (isValidString net (Some repo) 1); cbn [negb orb andb];
    [|exists None, []; by rewrite app_nil_r].
  destruct (isValidString net (Some (default "latest" tag)) 1); cbn [negb orb andb];
    [|exists None, []; by rewrite app_nil_r].
  rewrite D_catch_log. unfold D_bind at 1.
  destruct (httpsGetJson_chain net Inv (JSON_parse_token net) Inv_first Inv_step fuel
              (tokenUrl owner repo) None timeoutMs log)
    as (a1 & Hl1 & Ha1 & Hh1 & _).
  assert (Ha1' : ∀ token, Forall (from_call Inv owner repo timeoutMs token) a1).
  { intros token. eapply Forall_impl; [exact Ha1|]. intros r Hr. by left. }
  assert (Hhead : ∀ rest, fuel ≠ O →
            head (a1 ++ rest) = Some (mkRequest (tokenUrl owner repo) None timeoutMs)).
  { intros rest Hf. specialize (Hh1 Hf). destruct a1; [done|]. exact Hh1. }
  destruct (httpsGetJson net (JSON_parse_token net) fuel (tokenUrl owner repo) None
              timeoutMs log) as [log1 [tokenJson|f|e|]];
    cbn [fst] in Hl1; subst log1;
    try (exists None, a1; split; [done|]; split; [apply Ha1'|];
         split; [done|]; intros _ Hf; specialize (Hhead [] Hf); by rewrite app_nil_r in Hhead).
  set (token := nullish (DockerVersion.token tokenJson) (access_token tokenJson)).
  destruct (negb (isValidString net token 10)).
  { exists None, a1. split; [done|]. split; [apply Ha1'|].
    split; [done|]. intros _ Hf. specialize (Hhead [] Hf). by rewrite app_nil_r in Hhead. }
  exists token.
  unfold D_bind at 1.
  destruct (registry_call (JSON_parse_manifest net) timeoutMs token
              ("/manifests/" +:+ encodeURIComponent net (default "latest" tag)) accept
              (log ++ a1)) as (a2 & Hl2 & Ha2).
  cbv zeta in Hl2.
  destruct (httpsGetJson net (JSON_parse_manifest net) fuel _ _ _ (log ++ a1))
    as [log2 [manifest|f|e|]]; cbn [fst] in Hl2; subst log2;
    try (exists (a1 ++ a2); rewrite app_assoc; split; [done|];
         split; [by apply Forall_app|]; split; [done|]; intros _; apply Hhead).
  destruct (bool_decide (config manifest ≫= digest = None)
            && bool_decide (manifests manifest ≠ None)).
  - destruct (negb (truthy (pickPlatformManifestDigest manifest))).
    { exists (a1 ++ a2). rewrite app_assoc. split; [done|].
      split; [by apply Forall_app|]. split; [done|]. intros _; apply Hhead. }
    unfold D_bind at 1.
    destruct (registry_call (JSON_parse_manifest net) timeoutMs token
                ("/manifests/" +:+ show (pickPlatformManifestDigest manifest)) accept
                ((log ++ a1) ++ a2)) as (a3 & Hl3 & Ha3).
    cbv zeta in Hl3.
    destruct (httpsGetJson net (JSON_parse_manifest net) fuel _ _ _ ((log ++ a1) ++ a2))
      as [log3 [manifest'|f|e|]]; cbn [fst] in Hl3; subst log3;
      try (exists (a1 ++ a2 ++ a3); rewrite !app_assoc; split; [done|];
           split; [rewrite <- app_assoc; by repeat (apply Forall_app; split)|];
           split; [done|]; intros _; rewrite <- app_assoc; apply Hhead).
    destruct (readLabel_added timeoutMs token manifest' (((log ++ a1) ++ a2) ++ a3))
      as (a4 & Hl4 & Ha4).
    exists (a1 ++ a2 ++ a3 ++ a4). rewrite Hl4, <- !app_assoc. split; [done|].
    split; [by repeat (apply Forall_app; split)|]. split; [done|]. intros _; apply Hhead.
  - destruct (readLabel_added timeoutMs token manifest ((log ++ a1) ++ a2)) as (a4 & Hl4 & Ha4).
    exists (a1 ++ a2 ++ a4). rewrite Hl4, <- !app_assoc. split; [done|].
    split; [by repeat (apply Forall_app; split)|]. split; [done|]. intros _; apply Hhead.
Qed.

End added.

Lemma readLabel_resolved fuel owner repo token timeoutMs manifest log log' v :
  readLabel net fuel owner repo token timeoutMs manifest log = (log', Resolved (Some v)) →
  ∃ log0 r status location body blob,
    log' = log0 ++ [r]
    ∧ https_get net log0 r = Response status location body
    ∧ is_2xx status
    ∧ JSON_parse_config net body = inl blob
    ∧ getOciVersionLabel blob = Some v.
Proof.
  unfold readLabel.
  destruct (negb (isValidString net (config manifest ≫= digest) 10)); [done|].
  intros Hrun. apply D_bind_resolved in Hrun as (blob & log1 & Hcall & Hret).
  injection Hret as -> Hv.
  destruct (httpsGetJson_last net _ _ _ _ _ _ _ _ Hcall)
    as [[? _]|(earlier & r & -> & _ & Hacc)]; [done|].
  unfold accounts_for in Hacc.
  destruct (https_get net (log ++ earlier) r) as [|message|status location body] eqn:Hanswer;
    try done.
  destruct Hacc as [H2 Hparse].
  by exists (log ++ earlier), r, status, location, body, blob.
Qed.

(** X14.  [getDockerVersion] never rejects: whatever the network does, it
    resolves (or waits on a call that did not settle).  When one of
    [owner], [repo], [tag] is not a valid string it resolves with
    [undefined] without any request.  Otherwise its first request is the
    token request, sent without headers; and every request it makes,
    redirects included, runs under the timer delay given (5000 ms by
    default). *)
Theorem getDockerVersion_requests (fuel : nat) (owner repo : string)
    (tag : option string) (timeout : option Z) (log : list Request) :
  let run := getDockerVersion net fuel owner repo tag timeout log in
  ∃ added,
    run.1 = log ++ added
    ∧ (∀ f, run.2 ≠ Rejected f)
    ∧ Forall (λ r, req_timeoutMs r = default 5000 timeout) added
    ∧ (valid_args net owner repo tag = false → added = [] ∧ run.2 = Resolved None)
    ∧ (valid_args net owner repo tag = true → fuel ≠ O →
       head added = Some (mkRequest (tokenUrl owner repo) None (default 5000 timeout))).
Proof.
  intros run.
  destruct (getDockerVersion_added (λ _ _ t r, req_timeoutMs r = t)
              ltac:(done) ltac:(done) fuel owner repo tag timeout log)
    as (token & added & Hlog & Hall & Hnone & Hhead).
  exists added. split; [done|]. split; [|split; [|split; [|done]]].
  - intros f. subst run. unfold getDockerVersion. cbv zeta.
    destruct (negb (isValidString net (Some owner) 1) || negb (isValidString net (Some repo) 1)
              || negb (isValidString net (Some (default "latest" tag)) 1)); [done|].
    apply D_catch_never_rejects.
  - eapply Forall_impl; [exact Hall|]. intros r [Hr|(path & acc & Hr)]; exact Hr.
  - intros Hinvalid. split; [by apply Hnone|].
    subst run. unfold getDockerVersion, valid_args in *. cbv zeta.
    destruct (isValidString net (Some owner) 1); [|done].
    destruct (isValidString net (Some repo) 1); [|done].
    destruct (isValidString net (Some (default "latest" tag)) 1); done.
Qed.

(** X16.  Where a version comes from.  When [getDockerVersion] resolves with a
    version, the arguments were valid strings and the run ended on a 2xx
    response whose body parsed to a config blob; the version is the
    label [getOciVersionLabel] reads from that blob. *)
Theorem getDockerVersion_version (fuel : nat) (owner repo : string)
    (tag : option string) (timeout : option Z) (log log' : list Request) (v : string) :
  getDockerVersion net fuel owner repo tag timeout log = (log', Resolved (Some v)) →
  valid_args net owner repo tag = true
  ∧ ∃ log0 r status location body blob,
      log' = log0 ++ [r]
      ∧ https_get net log0 r = Response status location body
      ∧ is_2xx status
      ∧ JSON_parse_config net body = inl blob
      ∧ getOciVersionLabel blob = Some v.
Proof.
  unfold getDockerVersion, valid_args. cbv zeta.
  destruct (isValidString net (Some owner) 1); cbn [negb orb andb]; [|done].
  destruct (isValidString net (Some repo) 1); cbn [negb orb andb]; [|done].
  destruct (isValidString net (Some (default "latest" tag)) 1); cbn [negb orb andb]; [|done].
  intros Hrun. split; [done|].
  apply D_catch_resolved in Hrun.
  apply D_bind_resolved in Hrun as (tokenJson & log1 & _ & Hrun).
  destruct (negb (isValidString net _ 10)); [done|].
  apply D_bind_resolved in Hrun as (manifest & log2 & _ & Hrun).
  destruct (bool_decide (config manifest ≫= digest = None)
            && bool_decide (manifests manifest ≠ None)).
  - destruct (negb (truthy (pickPlatformManifestDigest manifest))); [done|].
    apply D_bind_resolved in Hrun as (manifest' & log3 & _ & Hrun).
    by apply readLabel_resolved in Hrun.
  - by apply readLabel_resolved in Hrun.
Qed.

End docker.

(** ** The pure helpers *)

(** X17.  The digest [pickPlatformManifestDigest] returns is the digest of an
    entry of the manifest list: that of the first linux/amd64 entry, or,
    when there is no such entry or the first one has no digest, that of
    the first entry of the list.  A later linux/amd64 entry is never
    looked at. *)
Theorem pickPlatformManifestDigest_choice (manifestList : DockerManifestV2) (d : string) :
  pickPlatformManifestDigest manifestList = Some d →
  ∃ ms m,
    manifests manifestList = Some ms
    ∧ m ∈ ms
    ∧ manifest_digest m = Some d
    ∧ ((is_linux_amd64 m = true
        ∧ ∃ pre post, ms = pre ++ m :: post ∧ Forall (λ x, is_linux_amd64 x = false) pre)
       ∨ (head ms = Some m
          ∧ ∀ pre x post,
              ms = pre ++ x :: post → Forall (λ y, is_linux_amd64 y = false) pre →
              is_linux_amd64 x = true → manifest_digest x = None)).
Proof.
  unfold pickPlatformManifestDigest.
  destruct (manifests manifestList) as [[|first rest]|] eqn:Hms; try done.
  set (ms := first :: rest). intros Hpick. exists ms.
  assert (Hfind : ∀ l, match List.find is_linux_amd64 l with
            | Some m => is_linux_amd64 m = true
                        ∧ ∃ pre post, l = pre ++ m :: post
                                      ∧ Forall (λ x, is_linux_amd64 x = false) pre
            | None => Forall (λ x, is_linux_amd64 x = false) l
            end).
  { induction l as [|x l IH]; [by constructor|]. cbn [List.find].
    destruct (is_linux_amd64 x) eqn:Hx.
    - split; [done|]. by exists [], l.
    - destruct (List.find is_linux_amd64 l) as [m|].
      + destruct IH as (Hm & pre & post & -> & Hpre). split; [done|].
        exists (x :: pre), post. split; [done|]. by constructor.
      + by constructor. }
  specialize (Hfind ms).
  destruct (List.find is_linux_amd64 ms) as [m|] eqn:Hf.
  - destruct Hfind as (Hm & pre & post & Hsplit & Hpre).
    cbn in Hpick. destruct (manifest_digest m) as [dm|] eqn:Hdm; cbn in Hpick.
    + injection Hpick as <-. exists m. split; [done|].
      split; [rewrite Hsplit; set_solver|]. split; [done|]. left.
      split; [done|]. by exists pre, post.
    + exists first. split; [done|]. split; [set_solver|]. split; [done|]. right.
      split; [done|]. intros pre' x post' Hsplit' Hpre' Hx.
      assert (x = m) as ->; [|done].
      assert (Hfx : List.find is_linux_amd64 ms = Some x).
      { rewrite Hsplit'. clear -Hpre' Hx. induction Hpre' as [|y pre' Hy _ IH]; cbn.
        - by rewrite Hx.
        - by rewrite Hy. }
      rewrite Hf in Hfx. by injection Hfx.
  - cbn in Hpick. exists first. split; [done|]. split; [set_solver|]. split; [done|].
    right. split; [done|]. intros pre x post Hsplit _ Hx.
    rewrite Hsplit in Hfind. apply Forall_app in Hfind as [_ Hfind].
    apply Forall_cons in Hfind as [Hx' _]. by rewrite Hx in Hx'.
Qed.

(** X18.  The precedence of [getOciVersionLabel]: the result is always one of
    the four labels; it is absent exactly when all four are; and an
    [org.opencontainers.image.version] label, in [config] or in
    [container_config], always wins over an [org.label-schema.version]
    one, [config] winning over [container_config] for the same key. *)
Theorem getOciVersionLabel_precedence (blob : DockerConfigBlob) :
  let oci := "org.opencontainers.image.version" in
  let schema := "org.label-schema.version" in
  let a := label (image_config blob) oci in
  let b := label (container_config blob) oci in
  let c := label (image_config blob) schema in
  let d := label (container_config blob) schema in
  (getOciVersionLabel blob = None ↔ a = None ∧ b = None ∧ c = None ∧ d = None)
  ∧ (is_Some a → getOciVersionLabel blob = a)
  ∧ (a = None → is_Some b → getOciVersionLabel blob = b)
  ∧ (a = None → b = None → is_Some c → getOciVersionLabel blob = c)
  ∧ (a = None → b = None → c = None → getOciVersionLabel blob = d).
Proof.
  intros oci schema a b c d. unfold getOciVersionLabel. fold oci schema a b c d.
  destruct a as [va|], b as [vb|], c as [vc|], d as [vd|]; cbn;
    repeat split; try done; try (by intros [? ?]); try (by intros (? & ? & ? & ?)).
Qed.

End DockerFacts.

(** ** dockerVersion.ts: where the credential goes *)

Module DockerHosts.
Import DockerVersion.

Section hosts.
Context (net : Net).

(** When both URLs of a redirect parse, [Authorization] survives it only
    within the host. *)
Lemma redirectedHeaders_same_host url redirectedUrl headers :
  parses net url → parses net redirectedUrl →
  truthy (authorization (redirectedHeaders net url redirectedUrl headers)) = true →
  URL_host net redirectedUrl = URL_host net url
  ∧ authorization (redirectedHeaders net url redirectedUrl headers) = authorization headers.
Proof.
  unfold redirectedHeaders. intros [fromHost ->] [toHost ->].
  destruct (String.eqb_spec fromHost toHost) as [->|Hne]; cbn [negb andb]; [done|].
  destruct (truthy (authorization headers)) eqn:Hauth.
  - by rewrite DockerFacts.authorization_delete.
  - by rewrite Hauth.
Qed.

Lemma redirectedHeaders_other_keys url redirectedUrl headers key :
  key ≠ "Authorization" →
  header key (redirectedHeaders net url redirectedUrl headers) = header key headers.
Proof.
  intros Hk. unfold redirectedHeaders.
  destruct (URL_host net url) as [fromHost|]; [|done].
  destruct (URL_host net redirectedUrl) as [toHost|]; [|done].
  destruct (negb (fromHost =? toHost)%string && truthy (authorization headers)); [|done].
  by apply DockerFacts.header_delete.
Qed.

Lemma forwarded_hop url redirectedUrl headers timeoutMs r :
  parses net url → parses net redirectedUrl →
  forwarded net redirectedUrl (redirectedHeaders net url redirectedUrl headers) timeoutMs r →
  forwarded net url headers timeoutMs r.
Proof.
  intros Hu Hr (Ht & Hk & Ha). split; [done|]. split.
  - intros key Hkey. by rewrite (Hk key Hkey), redirectedHeaders_other_keys.
  - intros Hauth. destruct (Ha Hauth) as [Hh Hv].
    rewrite Hv in Hauth.
    destruct (redirectedHeaders_same_host url redirectedUrl headers Hu Hr Hauth)
      as [Hh' Hv'].
    by rewrite Hh, Hh', Hv, Hv'.
Qed.

(** Along a chain whose URLs all parse, every request keeps what
    [forwarded] says of the call that started the chain. *)
Lemma chain_forwarded added : ∀ url headers timeoutMs,
  redirect_chain net url headers timeoutMs added →
  (∀ r, r ∈ added → parses net (req_url r)) →
  Forall (forwarded net url headers timeoutMs) added.
Proof.
  induction added as [|r rest IH]; intros url headers timeoutMs Hchain Hparse; [done|].
  destruct Hchain as [-> Hrest]. constructor; [apply DockerFacts.forwarded_first|].
  destruct rest as [|r' rest']; [done|].
  assert (Hu : parses net url)
    by (apply (Hparse (mkRequest url headers timeoutMs)); apply list_elem_of_here).
  assert (Hr' : parses net (req_url r'))
    by (apply Hparse; apply list_elem_of_further, list_elem_of_here).
  eapply Forall_impl.
  - apply (IH _ _ _ Hrest). intros r Hr. apply Hparse. by apply list_elem_of_further.
  - intros r. by apply forwarded_hop.
Qed.

Lemma chain_cons url redirectedUrl headers timeoutMs added :
  redirect_chain net redirectedUrl (redirectedHeaders net url redirectedUrl headers)
    timeoutMs added →
  redirect_chain net url headers timeoutMs (mkRequest url headers timeoutMs :: added).
Proof.
  intros Hchain. split; [done|]. destruct added as [|r' rest]; [done|].
  destruct Hchain as [-> Hrest]. by split.
Qed.

(** The requests one call adds form a chain. *)
Lemma httpsGetJson_adds_chain {T} (parse : string → T + string) :
  ∀ fuel url headers timeoutMs log,
    ∃ added,
      (httpsGetJson net parse fuel url headers timeoutMs log).1 = log ++ added
      ∧ redirect_chain net url headers timeoutMs added.
Proof.
  induction fuel as [|fuel IH]; intros url headers timeoutMs log.
  - exists []. cbn. by rewrite app_nil_r.
  - cbn [httpsGetJson]. cbv zeta.
    set (request := mkRequest url headers timeoutMs).
    assert (Hone : ∀ s : Settlement T,
      ∃ added, (log ++ [request], s).1 = log ++ added
        ∧ redirect_chain net url headers timeoutMs added)
      by (intros s; by exists [request]).
    destruct (https_get net log request) as [|message|status location body]; [done..|].
    destruct (if (300 <=? default 0 status)%Z && (default 0 status <? 400)%Z
              then if truthy (locationHeader location) then locationHeader location else None
              else None) as [target|].
    + destruct (URL_resolve net target url) as [redirectedUrl|e]; [|done].
      destruct (IH redirectedUrl (redirectedHeaders net url redirectedUrl headers)
                  timeoutMs (log ++ [request])) as (added & Hlog & Hchain).
      exists (request :: added). rewrite Hlog, <- app_assoc. split; [done|].
      by apply (chain_cons url redirectedUrl).
    + destruct ((default 0 status <? 200)%Z || (300 <=? default 0 status)%Z); [done|].
      by destruct (parse body).
Qed.


Ltac chains_ok H :=
  repeat (constructor; [first [done | apply H]|]); first [constructor | done].

Lemma registry_chain {T} (parse : string → T + string) fuel owner repo timeoutMs token
    path acc log :
  ∃ chain,
    (httpsGetJson net parse fuel (registry owner repo +:+ path)
       (Some (<["Accept" := acc]> (baseHeaders token))) timeoutMs log).1 = log ++ chain
    ∧ call_chain net owner repo timeoutMs token chain.
Proof.
  destruct (httpsGetJson_adds_chain parse fuel (registry owner repo +:+ path)
              (Some (<["Accept" := acc]> (baseHeaders token))) timeoutMs log)
    as (chain & Hlog & Hchain).
  exists chain. split; [done|]. right. by exists path, acc.
Qed.

Lemma readLabel_chains fuel owner repo timeoutMs token manifest log :
  ∃ chains,
    (readLabel net fuel owner repo token timeoutMs manifest log).1 = log ++ concat chains
    ∧ Forall (call_chain net owner repo timeoutMs token) chains.
Proof.
  unfold readLabel.
  destruct (negb (isValidString net (config manifest ≫= digest) 10)).
  { exists []. cbn. by rewrite app_nil_r. }
  unfold D_bind.
  destruct (registry_chain (JSON_parse_config net) fuel owner repo timeoutMs token
              ("/blobs/" +:+ show (config manifest ≫= digest)) "application/json" log)
    as (chain & Hlog & Hchain).
  cbv zeta in Hlog. exists [chain]. cbn [concat]. rewrite app_nil_r.
  split; [|by constructor].
  destruct (httpsGetJson _ _ _ _ _ _ log) as [log1 [cfg|f|e|]]; exact Hlog.
Qed.

(** The requests of a run, call by call. *)
Lemma getDockerVersion_chains fuel owner repo tag timeout log :
  let timeoutMs := default 5000 timeout in
  ∃ token chains,
    (getDockerVersion net fuel owner repo tag timeout log).1 = log ++ concat chains
    ∧ Forall (call_chain net owner repo timeoutMs token) chains.
Proof.
  intros timeoutMs. unfold getDockerVersion. cbv zeta. fold timeoutMs.
  destruct (negb (isValidString net (Some owner) 1) || negb (isValidString net (Some repo) 1)
            || negb (isValidString net (Some (default "latest" tag)) 1)).
  { exists None, []. cbn. by rewrite app_nil_r. }
  rewrite DockerFacts.D_catch_log. unfold D_bind at 1.
  destruct (httpsGetJson_adds_chain (JSON_parse_token net) fuel (tokenUrl owner repo) None
              timeoutMs log) as (c1 & Hl1 & Hc1).
  assert (Hc1' : ∀ token, call_chain net owner repo timeoutMs token c1) by (by left).
  destruct (httpsGetJson net (JSON_parse_token net) fuel (tokenUrl owner repo) None
              timeoutMs log) as [log1 [tokenJson|f|e|]];
    cbn [fst] in Hl1; subst log1;
    try (exists None, [c1]; cbn [concat]; rewrite app_nil_r; split; [done|];
         chains_ok Hc1').
  set (token := nullish (DockerVersion.token tokenJson) (access_token tokenJson)).
  destruct (negb (isValidString net token 10)).
  { exists None, [c1]. cbn [concat]. rewrite app_nil_r. split; [done|].
    chains_ok Hc1'. }
  exists token. unfold D_bind at 1.
  destruct (registry_chain (JSON_parse_manifest net) fuel owner repo timeoutMs token
              ("/manifests/" +:+ encodeURIComponent net (default "latest" tag)) accept
              (log ++ c1)) as (c2 & Hl2 & Hc2).
  cbv zeta in Hl2.
  destruct (httpsGetJson net (JSON_parse_manifest net) fuel _ _ _ (log ++ c1))
    as [log2 [manifest|f|e|]]; cbn [fst] in Hl2; subst log2;
    try (exists [c1; c2]; cbn [concat]; rewrite app_nil_r, app_assoc; split; [done|];
         chains_ok Hc1').
  destruct (bool_decide (config manifest ≫= digest = None)
            && bool_decide (manifests manifest ≠ None)).
  - destruct (negb (truthy (pickPlatformManifestDigest manifest))).
    { exists [c1; c2]. cbn [concat]. rewrite app_nil_r, app_assoc. split; [done|].
      chains_ok Hc1'. }
    unfold D_bind at 1.
    destruct (registry_chain (JSON_parse_manifest net) fuel owner repo timeoutMs token
                ("/manifests/" +:+ show (pickPlatformManifestDigest manifest)) accept
                ((log ++ c1) ++ c2)) as (c3 & Hl3 & Hc3).
    cbv zeta in Hl3.
    destruct (httpsGetJson net (JSON_parse_manifest net) fuel _ _ _ ((log ++ c1) ++ c2))
      as [log3 [manifest2|f|e|]]; cbn [fst] in Hl3; subst log3;
      try (exists [c1; c2; c3]; cbn [concat]; rewrite app_nil_r, !app_assoc; split; [done|];
           chains_ok Hc1').
    destruct (readLabel_chains fuel owner repo timeoutMs token manifest2
                (((log ++ c1) ++ c2) ++ c3)) as (cs & Hl4 & Hc4).
    exists (c1 :: c2 :: c3 :: cs). rewrite Hl4. cbn [concat]. rewrite <- !app_assoc.
    split; [done|]. chains_ok Hc1'.
  - destruct (readLabel_chains fuel owner repo timeoutMs token manifest ((log ++ c1) ++ c2))
      as (cs & Hl4 & Hc4).
    exists (c1 :: c2 :: cs). rewrite Hl4. cbn [concat]. rewrite <- !app_assoc.
    split; [done|]. chains_ok Hc1'.
Qed.

(** X15.  Where the bearer token goes.  Provided the URLs requested in
    the run parse, each request of a [getDockerVersion] run that carries a
    non-empty [Authorization] header carries [Bearer <token>] for one and
    the same token, and is addressed to the host of a URL under
    [https://registry-1.docker.io/v2/<owner>/<repo>]: the token request
    itself carries none, and a redirect to another host drops it. *)
Theorem getDockerVersion_bearer (fuel : nat) (owner repo : string)
    (tag : option string) (timeout : option Z) (log : list Request) :
  ∃ token added,
    (getDockerVersion net fuel owner repo tag timeout log).1 = log ++ added
    ∧ ((∀ r, r ∈ added → ∃ host, URL_host net (req_url r) = Ok host) →
       Forall (λ r,
         truthy (authorization (req_headers r)) = true →
         authorization (req_headers r) = Some ("Bearer " +:+ show token)
         ∧ ∃ path, URL_host net (req_url r) = URL_host net (registry owner repo +:+ path))
         added).
Proof.
  destruct (getDockerVersion_chains fuel owner repo tag timeout log)
    as (token & chains & Hlog & Hchains).
  exists token, (concat chains). split; [done|]. intros Hparse.
  clear Hlog. induction Hchains as [|chain chains Hchain _ IH]; [done|].
  cbn [concat]. apply Forall_app. split.
  - assert (Hp : ∀ r, r ∈ chain → parses net (req_url r)).
    { intros r Hr. apply Hparse. cbn [concat]. apply elem_of_app. by left. }
    destruct Hchain as [Hc|(path & acc & Hc)];
      pose proof (chain_forwarded _ _ _ _ Hc Hp) as Hfw;
      (eapply Forall_impl; [exact Hfw|]); intros r (_ & _ & Hauth) Hr.
    + destruct (Hauth Hr) as [_ Hv]. rewrite Hv in Hr. done.
    + destruct (Hauth Hr) as [Hh Hv]. split; [|by exists path].
      rewrite Hv. unfold authorization, baseHeaders.
      etransitivity; [apply (lookup_insert_ne (M := gmap string)); done|].
      apply (lookup_singleton_eq (M := gmap string)).
  - apply IH. intros r Hr. apply Hparse. cbn [concat]. apply elem_of_app. by right.
Qed.

End hosts.
End DockerHosts.

(** ** The statements above on sample threads *)

Lemma scan_interfaces_found_witness :
  linked_has_data (spawned_worker [])
  ∧ ∃ t found,
      scan_interfaces (spawned_worker []) answering_externals
        {| mdnsInterface := None; shared_handle := 1 |}
        [("docker0", Some [{| internal := false; family := "IPv6" |}]);
         ("lo", Some [{| internal := true; family := "IPv4" |}])]
        nothing_found = (t, Ok found)
      ∧ relay_calls t = [(systemCheck_name, WARN, warn_text "docker0")].
Proof.
  split; [apply spawned_worker_data|].
  destruct (scan_interfaces_found (spawned_worker []) answering_externals
              (spawned_worker_data []) {| mdnsInterface := None; shared_handle := 1 |}
              [("docker0", Some [{| internal := false; family := "IPv6" |}]);
               ("lo", Some [{| internal := true; family := "IPv4" |}])])
    as (t & found & Ht & _ & _ & _ & _ & Hr).
  exists t, found. split; [exact Ht|exact Hr].
Defined.

Lemma checkUpdates_run_witness :
  linked_has_data (spawned_worker [])
  ∧ relay_calls (trace (run_script (spawned_worker []) failing_externals CheckUpdates))
    = [(checkUpdates_name, INFO, "Starting check updates...");
       (checkUpdates_name, ERROR, "Failed to check updates: inspected error")].
Proof.
  split; [apply spawned_worker_data|].
  destruct (checkUpdates_run (spawned_worker []) failing_externals (spawned_worker_data []))
    as (_ & _ & _ & Hr & _).
  exact Hr.
Defined.

Lemma globalPrefix_run_witness :
  linked_has_data (spawned_worker [])
  ∧ requests (trace (run_script (spawned_worker []) answering_externals GlobalPrefix))
    = [global_prefix_request "/usr/lib/node_modules"].
Proof.
  split; [apply spawned_worker_data|].
  destruct (globalPrefix_run (spawned_worker []) answering_externals (spawned_worker_data []))
    as (Hr & _).
  exact Hr.
Defined.

Lemma systemCheck_verdict_witness :
  linked_has_data (spawned_worker [])
  ∧ List.filter is_exit
      (posted (trace (run_script (spawned_worker []) failing_externals SystemCheck)))
    = [MsgExit 1 (VStr "CheckUpdates") false].
Proof.
  split; [apply spawned_worker_data|].
  destruct (systemCheck_verdict (spawned_worker []) failing_externals (spawned_worker_data []))
    as (Hexit & _).
  exact Hexit.
Defined.

Lemma systemCheck_diagnostics_witness :
  linked_has_data main_thread
  ∧ (∃ response, server_fetch answering_externals shared_request 1000 = Ok response)
  ∧ (∃ entries, os_networkInterfaces answering_externals = Ok entries)
  ∧ ∃ found,
      error_relays (trace (run_script main_thread answering_externals SystemCheck))
      = map (λ m, (systemCheck_name, ERROR, m)) (network_errors found).
Proof.
  split; [apply main_thread_data|]. split; [by eexists|]. split; [by eexists|].
  destruct (systemCheck_diagnostics main_thread answering_externals main_thread_data
              _ _ eq_refl eq_refl) as (found & _ & _ & _ & _ & Herr & _).
  exists found. exact Herr.
Defined.

Lemma messages_identify_thread_witness :
  linked_has_data (spawned_worker [])
  ∧ PostMessage (Port 1) (MsgInit 1 (VStr "CheckUpdates") true)
      ∈ trace (run_script (spawned_worker []) failing_externals CheckUpdates)
  ∧ own_message (spawned_worker []) checkUpdates_name (Port 1)
      (MsgInit 1 (VStr "CheckUpdates") true).
Proof.
  split; [apply spawned_worker_data|].
  assert (Hin : PostMessage (Port 1) (MsgInit 1 (VStr "CheckUpdates") true)
                  ∈ trace (run_script (spawned_worker []) failing_externals CheckUpdates)).
  { vm_compute. constructor. }
  split; [exact Hin|].
  exact (messages_identify_thread (spawned_worker []) failing_externals
           (spawned_worker_data []) CheckUpdates _ _ Hin).
Defined.

Lemma debug_output_witness :
  linked_has_data (spawned_worker ["verbose"])
  ∧ length (List.filter (λ l, String.eqb l.1 globalPrefix_name)
              (debug_lines (trace (run_script (spawned_worker ["verbose"])
                                     failing_externals GlobalPrefix)))) = 5%nat.
Proof.
  split; [apply spawned_worker_data|].
  destruct (debug_output (spawned_worker ["verbose"]) failing_externals
              (spawned_worker_data ["verbose"]) GlobalPrefix) as (_ & _ & Hlen & _).
  exact Hlen.
Defined.

Lemma created_worker_announces_name_witness :
  ∃ w,
    outcome (createESMWorker main_thread failing_externals "CheckUpdates" "worker.js"
               None None None None None) = Ok w
    ∧ workerData (spawned_worker []) = Some (opt_workerData (worker_options w))
    ∧ PostMessage (Port 1) (MsgExit 1 (VStr "CheckUpdates") false)
        ∈ trace (run_script (spawned_worker []) failing_externals CheckUpdates)
    ∧ msg_threadName (MsgExit 1 (VStr "CheckUpdates") false) = VStr "CheckUpdates".
Proof.
  eexists. split; [reflexivity|]. split; [reflexivity|].
  assert (Hin : PostMessage (Port 1) (MsgExit 1 (VStr "CheckUpdates") false)
                  ∈ trace (run_script (spawned_worker []) failing_externals CheckUpdates)).
  { vm_compute. repeat first [apply list_elem_of_here | apply list_elem_of_further]. }
  split; [exact Hin|].
  exact (created_worker_announces_name main_thread failing_externals "CheckUpdates"
           "worker.js" None None None None None _ (spawned_worker []) failing_externals
           CheckUpdates _ _ eq_refl eq_refl Hin).
Defined.

Lemma script_without_data_fails_witness :
  linked bare_worker = true ∧ workerData bare_worker = None
  ∧ run_script bare_worker failing_externals SystemCheck
    = ([], Throw (TypeError "threadName")).
Proof.
  split; [reflexivity|]. split; [reflexivity|].
  exact (script_without_data_fails bare_worker failing_externals SystemCheck
           eq_refl eq_refl).
Defined.

Lemma parentPost_throws_after_posting_witness :
  parentPort bare_worker_debug = Some (Port 1)
  ∧ workerData bare_worker_debug = None
  ∧ debug bare_worker_debug = true
  ∧ parentPost bare_worker_debug failing_externals (MsgInit 1 VUndefined true)
    = ([PostMessage (Port 1) (MsgInit 1 VUndefined true)], Throw (TypeError "threadName")).
Proof.
  split; [reflexivity|]. split; [reflexivity|]. split; [reflexivity|].
  destruct (parentPost_throws_after_posting bare_worker_debug failing_externals)
    as (_ & _ & H).
  exact (H (Port 1) (MsgInit 1 VUndefined true) eq_refl eq_refl eq_refl).
Defined.

Lemma parent_log_mirrors_local_witness :
  linked_has_data (spawned_worker [])
  ∧ List.filter is_log
      (posted (trace (run_script (spawned_worker []) failing_externals GlobalPrefix)))
    = [MsgLog 1 (VStr "CheckUpdates") (Some globalPrefix_name) INFO
         "Starting global prefix check...";
       MsgLog 1 (VStr "CheckUpdates") (Some globalPrefix_name) ERROR
         "Failed to get global node modules: inspected error"].
Proof.
  split; [apply spawned_worker_data|].
  destruct (parent_log_mirrors_local (spawned_worker []) failing_externals
              (spawned_worker_data []) GlobalPrefix) as (success & _ & Hlogs & _).
  exact Hlogs.
Defined.

(** ** The statements about dockerVersion.ts on a sample network *)


Lemma getDockerVersion_requests_witness :
  valid_args sample_net "" "matterbridge" (Some "latest") = false
  ∧ DockerVersion.getDockerVersion sample_net 5 "" "matterbridge" (Some "latest") (Some 5000) []
    = ([], DockerVersion.Resolved None).
Proof.
  split; [reflexivity|].
  destruct (DockerFacts.getDockerVersion_requests sample_net 5 "" "matterbridge"
              (Some "latest") (Some 5000) []) as (added & Hlog & _ & _ & Hinvalid & _).
  destruct (Hinvalid eq_refl) as [-> Hresult].
  destruct (DockerVersion.getDockerVersion sample_net 5 "" "matterbridge" (Some "latest")
              (Some 5000) []) as [log' s].
  cbn [fst snd] in Hlog, Hresult. by rewrite Hlog, Hresult.
Defined.

Lemma getDockerVersion_version_witness :
  ∃ log',
    DockerVersion.getDockerVersion sample_net 5 "luligu" "matterbridge" None None []
    = (log', DockerVersion.Resolved (Some "8.8.8"))
    ∧ length log' = 4%nat
    ∧ valid_args sample_net "luligu" "matterbridge" None = true.
Proof.
  eexists. split; [vm_compute; reflexivity|]. split; [reflexivity|].
  exact (proj1 (DockerFacts.getDockerVersion_version sample_net 5 "luligu" "matterbridge"
                  None None [] _ "8.8.8" ltac:(vm_compute; reflexivity))).
Defined.

Lemma pickPlatformManifestDigest_choice_witness :
  DockerVersion.pickPlatformManifestDigest sample_manifest_list = Some "sha256:amd"
  ∧ ∃ ms m, DockerVersion.manifests sample_manifest_list = Some ms ∧ m ∈ ms
            ∧ DockerVersion.manifest_digest m = Some "sha256:amd".
Proof.
  split; [reflexivity|].
  destruct (DockerFacts.pickPlatformManifestDigest_choice sample_manifest_list "sha256:amd"
              eq_refl)
    as (ms & m & Hms & Hin & Hd & _).
  by exists ms, m.
Defined.

Lemma getOciVersionLabel_precedence_witness :
  DockerVersion.label (DockerVersion.image_config sample_blob)
    "org.opencontainers.image.version" = None
  ∧ DockerVersion.getOciVersionLabel sample_blob = Some "2.0".
Proof.
  split; [reflexivity|].
  destruct (DockerFacts.getOciVersionLabel_precedence sample_blob) as (_ & _ & H & _).
  exact (H eq_refl ltac:(by eexists)).
Defined.


Lemma getDockerVersion_bearer_witness :
  ∃ token added,
    (DockerVersion.getDockerVersion strict_net 5 "luligu" "matterbridge" None None []).1
    = added
    ∧ length added = 4%nat
    ∧ (∀ r, r ∈ added → ∃ host, DockerVersion.URL_host strict_net (DockerVersion.req_url r)
                                = Ok host)
    ∧ Forall (λ r,
        DockerVersion.truthy (DockerVersion.authorization (DockerVersion.req_headers r))
        = true →
        DockerVersion.authorization (DockerVersion.req_headers r)
        = Some ("Bearer " +:+ DockerVersion.show token)
        ∧ ∃ path, DockerVersion.URL_host strict_net (DockerVersion.req_url r)
                  = DockerVersion.URL_host strict_net
                      (DockerVersion.registry "luligu" "matterbridge" +:+ path))
        added.
Proof.
  destruct (DockerHosts.getDockerVersion_bearer strict_net 5 "luligu" "matterbridge"
              None None []) as (token & added & Hlog & Hfw).
  exists token, added. split; [exact Hlog|].
  cbn [app] in Hlog. subst added. split; [vm_compute; reflexivity|].
  match type of Hfw with (?P → _) => assert (Hparse : P) end;
    [|split; [exact Hparse|exact (Hfw Hparse)]].
  intros r Hr. vm_compute in Hr.
  repeat (apply elem_of_cons in Hr as [->|Hr]; [eexists; vm_compute; reflexivity|]).
  by apply elem_of_nil in Hr.
Defined.
